(** * Micro AI Code Reviewer: the heuristic analysis and aggregation pipeline

    A shallow embedding of the deterministic core of the reviewer:
    the quality scorer, the security and dependency scanners, the output
    formatter, the language pattern detector and the language of a file,
    the custom style rules and the style enforcement, the performance
    estimator and its explanation, the team insight analyser and the
    priorities of suggested tests.

    Conventions of the embedding.
    - A JavaScript string is a [string]: the sequence of its code units
      (one [ascii] per unit, so texts of the Latin-1 range).
    - A JavaScript number that is a count or an index is a [Z] or a [nat];
      they stay far below 2^53 and are exact as doubles.  Every other
      number is a [Q] that a double represents, and each arithmetic
      operation rounds its exact result to the nearest double, ties to even
      ([fl]).  The exponent range is not modelled: none of the quantities
      below comes near overflow or the subnormal range.
    - A regular expression literal is a [regex] value, run by a
      backtracking matcher with the priorities of the JavaScript one.
    - A function that can throw returns a [completion].
    - Module level tables ([Map]s) are threaded as explicit state.
    - What a run of an outside tool (ESLint, Prettier) or the clock comes
      to is a parameter of the function that asks for it. *)

From Stdlib Require Import ZArith QArith Qround Qpower Qminmax Lia Lqa.
From Stdlib Require Import Ascii String List Bool Sorted.
From Stdlib Require Import PrimFloat FloatOps SpecFloat Uint63.
From stdpp Require Import gmap strings list pretty.
Import ListNotations.

Local Open Scope Z_scope.

(* ================================================================== *)
(** * Numbers: IEEE 754 binary64 on the rationals *)
(* ================================================================== *)

(** Nearest integer, ties to the even one. *)
Definition rne (x : Q) : Z :=
  let f := Qfloor x in
  match Qcompare (x - inject_Z f) (1 # 2) with
  | Lt => f
  | Gt => f + 1
  | Eq => if Z.even f then f else f + 1
  end.

(** The exponent [e] with [2^e <= x < 2^(e+1)], for a positive [x]. *)
Definition binade (x : Q) : Z :=
  let e0 := Z.log2 (Qnum x) - Z.log2 (Zpos (Qden x)) in
  if Qle_bool (2 ^ e0) x then e0 else e0 - 1.

(** The gap between neighbouring doubles around [x]: 53 significant bits. *)
Definition ulp (x : Q) : Q := (2 ^ (binade x - 52))%Q.

Definition fl_pos (x : Q) : Q := (inject_Z (rne (x / ulp x)) * ulp x)%Q.

(** Rounding of an exact result to the double that holds it. *)
Definition fl (x : Q) : Q :=
  Qred match Qcompare x 0 with
       | Eq => 0%Q
       | Gt => fl_pos x
       | Lt => (- fl_pos (- x))%Q
       end.

(** The arithmetic of doubles: the exact result, rounded.  No division
    below can have a zero divisor: a text has at least one line, a counted
    issue has a developer, and the gain is guarded. *)
Definition jsadd (x y : Q) : Q := fl (x + y).
Definition jssub (x y : Q) : Q := fl (x - y).
Definition jsmul (x y : Q) : Q := fl (x * y).
Definition jsdiv (x y : Q) : Q := fl (x / y).

(** A decimal literal denotes the nearest double. *)
Definition lit (x : Q) : Q := fl x.

(** [Math.round]: the nearest integer, a tie going towards +infinity. *)
Definition Math_round (x : Q) : Z := Qfloor (x + (1 # 2)).
Definition Math_ceil (x : Q) : Z := Qceiling x.
Definition Math_min (x y : Q) : Q := Qmin x y.
Definition Math_max (x y : Q) : Q := Qmax x y.

Definition num (n : nat) : Q := inject_Z (Z.of_nat n).

(** The doubles of the machine, to check [fl] against: the value of a
    finite primitive float, and the float of a small integer. *)
Definition double_value (f : float) : option Q :=
  match Prim2SF f with
  | S754_zero _ => Some 0%Q
  | S754_finite s m e =>
      Some (Qred ((if s then -1 else 1) * inject_Z (Zpos m) * 2 ^ e)%Q)
  | S754_infinity _ | S754_nan => None
  end.

Definition double_of_Z (z : Z) : float := PrimFloat.of_uint63 (Uint63.of_Z z).

Definition same_number (f : float) (q : Q) : bool :=
  match double_value f with
  | Some v => Qeq_bool v q
  | None => false
  end.

Definition upto (n : nat) : list Z := map Z.of_nat (seq 0 n).

(** [k / n * 100] for all [0 <= k <= 40] and [1 <= n <= 41] *)
Definition quotients_agree : bool :=
  forallb
    (fun n =>
       forallb
         (fun k =>
            same_number
              (PrimFloat.mul (PrimFloat.div (double_of_Z k) (double_of_Z (n + 1)))
                             (double_of_Z 100))
              (jsmul (jsdiv (inject_Z k) (inject_Z (n + 1))) 100))
         (upto 41))
    (upto 41).

(** [(r * 0.4) + (c * 0.3) + ((100 - d) * 0.3)], as the score adds it up *)
Definition weighted_sum (readability complexity duplication : Q) : Q :=
  jsadd (jsadd (jsmul readability (lit (4 # 10))) (jsmul complexity (lit (3 # 10))))
        (jsmul (jssub 100 duplication) (lit (3 # 10))).

Definition float_weighted_sum (readability complexity duplication : float) : float :=
  let f04 := PrimFloat.div (double_of_Z 4) (double_of_Z 10) in
  let f03 := PrimFloat.div (double_of_Z 3) (double_of_Z 10) in
  PrimFloat.add
    (PrimFloat.add (PrimFloat.mul readability f04) (PrimFloat.mul complexity f03))
    (PrimFloat.mul (PrimFloat.sub (double_of_Z 100) duplication) f03).

(** The weighted sum for some readabilities and complexities and all
    duplications. *)
Definition weighted_sums_agree : bool :=
  forallb
    (fun r =>
       forallb
         (fun c =>
            forallb
              (fun d =>
                 same_number
                   (float_weighted_sum (double_of_Z r) (double_of_Z c) (double_of_Z d))
                   (weighted_sum (inject_Z r) (inject_Z c) (inject_Z d)))
              (upto 101))
         [10; 30; 100])
    [0; 1; 80; 100].

(* ================================================================== *)
(** * Texts *)
(* ================================================================== *)

Definition chars (s : string) : list ascii := list_ascii_of_string s.

Definition newline : ascii := "010"%char.

(** [s.split('\n')]: always at least one piece. *)
Fixpoint split_lines (s : string) : list string :=
  match s with
  | EmptyString => [EmptyString]
  | String c s' =>
      if Ascii.eqb c newline then EmptyString :: split_lines s'
      else match split_lines s' with
           | l :: ls => String c l :: ls
           | [] => [String c EmptyString]
           end
  end.

Fixpoint starts_with (sub s : list ascii) : bool :=
  match sub, s with
  | [], _ => true
  | _ :: _, [] => false
  | a :: sub', b :: s' => Ascii.eqb a b && starts_with sub' s'
  end.

Fixpoint includes_chars (s sub : list ascii) : bool :=
  starts_with sub s ||
  match s with
  | [] => false
  | _ :: s' => includes_chars s' sub
  end.

(** [s.includes(sub)] *)
Definition includes (s sub : string) : bool := includes_chars (chars s) (chars sub).

(* ================================================================== *)
(** * Regular expressions *)
(* ================================================================== *)

Definition in_range (lo hi : nat) (c : ascii) : bool :=
  let n := nat_of_ascii c in (lo <=? n)%nat && (n <=? hi)%nat.

(** [\w] *)
Definition is_word (c : ascii) : bool :=
  in_range 97 122 c || in_range 65 90 c || in_range 48 57 c || Ascii.eqb c "_"%char.

(** [\s], on the code units below 256 *)
Definition is_space (c : ascii) : bool :=
  in_range 9 13 c || Ascii.eqb c " "%char || Ascii.eqb c "160"%char.

(** [.] matches everything but a line terminator. *)
Definition is_dot (c : ascii) : bool :=
  negb (Ascii.eqb c "010"%char || Ascii.eqb c "013"%char).

Definition is_not (x : ascii) (c : ascii) : bool := negb (Ascii.eqb c x).

Definition is_word_opt (o : option ascii) : bool :=
  match o with
  | Some c => is_word c
  | None => false
  end.

Inductive regex : Type :=
| REmpty
| RChar (c : ascii)
| RSet (p : ascii -> bool)
| RWordB
| RSeq (r1 r2 : regex)
| RAlt (r1 r2 : regex)
| RStar (r : regex).

Fixpoint RLit (l : list ascii) : regex :=
  match l with
  | [] => REmpty
  | c :: l' => RSeq (RChar c) (RLit l')
  end.

Definition RStr (s : string) : regex := RLit (chars s).
Definition RPlus (r : regex) : regex := RSeq r (RStar r).

Fixpoint RAtLeast (n : nat) (r : regex) : regex :=
  match n with
  | O => RStar r
  | S n' => RSeq r (RAtLeast n' r)
  end.

Definition RAlts (rs : list regex) (last : regex) : regex := fold_right RAlt last rs.

(** The matcher at one position: [prev] is the unit before the position,
    [s] the rest of the input, [k] what remains to be matched.  The first
    alternative that lets the whole continuation succeed wins; a star takes
    as many rounds as it can, and a round that consumes nothing is not
    taken. *)
Fixpoint rmatch (r : regex) (prev : option ascii) (s : list ascii)
    (k : option ascii -> list ascii -> option (list ascii)) : option (list ascii) :=
  match r with
  | REmpty => k prev s
  | RChar c =>
      match s with
      | x :: s' => if Ascii.eqb x c then k (Some x) s' else None
      | [] => None
      end
  | RSet p =>
      match s with
      | x :: s' => if p x then k (Some x) s' else None
      | [] => None
      end
  | RWordB =>
      if xorb (is_word_opt prev) (is_word_opt (head s)) then k prev s else None
  | RSeq r1 r2 => rmatch r1 prev s (fun prev' s' => rmatch r2 prev' s' k)
  | RAlt r1 r2 =>
      match rmatch r1 prev s k with
      | Some rest => Some rest
      | None => rmatch r2 prev s k
      end
  | RStar r1 =>
      (fix rounds (fuel : nat) (prev : option ascii) (s : list ascii) :=
         match fuel with
         | O => k prev s
         | S fuel' =>
             match rmatch r1 prev s
                     (fun prev' s' =>
                        if (length s' <? length s)%nat then rounds fuel' prev' s' else None) with
             | Some rest => Some rest
             | None => k prev s
             end
         end) (length s) prev s
  end.

(** The match starting at this very position, if any: what is left after it. *)
Definition match_here (r : regex) (prev : option ascii) (s : list ascii) : option (list ascii) :=
  rmatch r prev s (fun _ rest => Some rest).

(** The number of matches of a global ([g]) pattern: the search restarts
    where the last match ended, one unit further after an empty match.
    [skip] counts the units of the last match still to be passed. *)
Fixpoint count_matches_from (r : regex) (prev : option ascii) (s : list ascii) (skip : nat)
    : nat :=
  match s with
  | [] =>
      match skip, match_here r prev [] with
      | O, Some _ => 1
      | _, _ => 0
      end
  | c :: s' =>
      match skip with
      | S n => count_matches_from r (Some c) s' n
      | O =>
          match match_here r prev s with
          | Some rest =>
              S (count_matches_from r (Some c) s' (pred (length s - length rest)))
          | None => count_matches_from r (Some c) s' 0
          end
      end
  end%nat.

(** [matches ? matches.length : 0] for [matches = code.match(pattern)] *)
Definition count_matches (r : regex) (code : string) : nat :=
  count_matches_from r None (chars code) 0.

(* ================================================================== *)
(** * Completions: a call returns, or throws *)
(* ================================================================== *)

Inductive exn : Type :=
| TypeError (message : string)
| Error (message : string).

Inductive completion (A : Type) : Type :=
| Normal (a : A)
| Throw (e : exn).
Arguments Normal {A} a.
Arguments Throw {A} e.

#[global] Instance completion_ret : MRet completion := fun _ a => Normal a.

#[global] Instance completion_bind : MBind completion := fun _ _ f c =>
  match c with
  | Normal a => f a
  | Throw e => Throw e
  end.

(** [try { body } catch (error) { return fallback }] *)
Definition try_catch {A : Type} (body : completion A) (handler : exn -> completion A)
    : completion A :=
  match body with
  | Normal a => Normal a
  | Throw e => handler e
  end.

(** A value as a caller can pass it where a text is expected. *)
Inductive jsval : Type :=
| JString (s : string)
| JNumber (q : Q)
| JBoolean (b : bool)
| JNull
| JUndefined.

(** A string method called on a value: only a string has it. *)
Definition string_method {A : Type} (name : string) (f : string -> A) (v : jsval)
    : completion A :=
  match v with
  | JString s => Normal (f s)
  | JNumber _ | JBoolean _ => Throw (TypeError (name +:+ " is not a function"))
  | JNull | JUndefined =>
      Throw (TypeError ("Cannot read properties of null or undefined: " +:+ name))
  end.

(* ================================================================== *)
(** * The analysis service: quality score, security, dependencies *)
(* ================================================================== *)

Record issue : Type := {
  issue_type : string;
  issue_description : string;
  issue_severity : string;
  issue_suggestion : string
}.

Record quality_metrics : Type := {
  linesOfCode : Z;
  complexity : Z;
  duplication : Z;
  readability : Z
}.

(** [metrics] is [None] for the empty object of the fallback. *)
Record quality_score : Type := {
  score : Z;
  metrics : option quality_metrics
}.

Definition controlFlowKeywords : list string := ["if"; "for"; "while"; "case"; "catch"].

(** [new RegExp('\\b' + keyword + '\\b', 'g')] *)
Definition keyword_regex (keyword : string) : regex :=
  RSeq RWordB (RSeq (RStr keyword) RWordB).

Definition calculateComplexity (code : string) : Z :=
  let complexity :=
    fold_left (fun complexity keyword =>
                 complexity + Z.of_nat (count_matches (keyword_regex keyword) code))
              controlFlowKeywords 1 in
  Z.min (complexity * 10) 100.

Definition calculateDuplication (code : string) : Z :=
  let lines := split_lines code in
  let uniqueLines : gset string := list_to_set lines in
  let duplicationRate :=
    jsmul (jsdiv (num (length lines) - num (size uniqueLines)) (num (length lines))) 100 in
  Math_round duplicationRate.

Definition calculateReadability (code : string) : Z :=
  let lines := split_lines code in
  let avgLineLength := jsdiv (num (String.length code)) (num (length lines)) in
  let readabilityScore := jssub 100 (Math_min avgLineLength 100) in
  let readabilityScore :=
    if Qlt_le_dec avgLineLength 10 then jssub readabilityScore 20 else readabilityScore in
  Z.max (Math_round readabilityScore) 0.

Definition weighted_score (readability complexity duplication : Z) : Z :=
  Math_round
    (weighted_sum (inject_Z readability) (inject_Z complexity) (inject_Z duplication)).

Definition quality_fallback : quality_score := {| score := 0; metrics := None |}.

(** The body of the [try] block. *)
Definition quality_body (code : jsval) : completion quality_score :=
  linesOfCode ← string_method "split" (fun s => Z.of_nat (length (split_lines s))) code;
  complexity ← string_method "match" calculateComplexity code;
  duplication ← string_method "split" calculateDuplication code;
  readability ← string_method "split" calculateReadability code;
  let qualityScore := weighted_score readability complexity duplication in
  Normal {| score := qualityScore;
            metrics := Some {| linesOfCode := linesOfCode;
                               complexity := complexity;
                               duplication := duplication;
                               readability := readability |} |}.

(** The promise of the [async] function settles with this completion. *)
Definition getCodeQualityScore (code : jsval) : completion quality_score :=
  try_catch (quality_body code) (fun error => Normal quality_fallback).

Definition xss_issue : issue :=
  {| issue_type := "XSS Vulnerability";
     issue_description := "Potential cross-site scripting vulnerability detected";
     issue_severity := "High";
     issue_suggestion := "Use safer alternatives like textContent or sanitize user inputs" |}.

Definition sql_issue : issue :=
  {| issue_type := "SQL Injection";
     issue_description := "Potential SQL injection vulnerability detected";
     issue_severity := "High";
     issue_suggestion := "Use parameterized queries or ORM methods" |}.

Definition redirect_issue : issue :=
  {| issue_type := "Open Redirect";
     issue_description := "Potential open redirect vulnerability detected";
     issue_severity := "Medium";
     issue_suggestion := "Validate redirect URLs against whitelist" |}.

Definition buffer_issue : issue :=
  {| issue_type := "Deprecated API";
     issue_description := "Buffer() constructor is deprecated and unsafe";
     issue_severity := "High";
     issue_suggestion := "Use Buffer.alloc() or Buffer.from() instead" |}.

(** [issues.push(x)] under a condition *)
Definition push_if {A : Type} (cond : bool) (x : A) (l : list A) : list A :=
  if cond then l ++ [x] else l.

Definition getSecurityIssues (code : string) : list issue :=
  let issues := [] in
  let issues :=
    push_if (includes code ".innerHTML" || includes code "eval(") xss_issue issues in
  let issues :=
    push_if (includes code "+" && (includes code "SELECT" || includes code "INSERT"))
            sql_issue issues in
  let issues :=
    push_if (includes code "window.location" || includes code "redirect(")
            redirect_issue issues in
  issues.

Definition checkDependencies (code : string) : list issue :=
  push_if (includes code "new Buffer(") buffer_issue [].

(* ================================================================== *)
(** * The formatter: the structured report *)
(* ================================================================== *)

(** [{...issue, severityTag}] *)
Record formatted_issue : Type := {
  fi_issue : issue;
  fi_severityTag : string
}.

Definition formatIssuesWithSeverity (issues : list issue) : list formatted_issue :=
  map (fun issue =>
         {| fi_issue := issue;
            fi_severityTag := "[" +:+ issue_severity issue +:+ "]" |}) issues.

(** The review of the generative collaborator; a list it left out is [None]. *)
Record ai_review : Type := {
  ai_bugs : option (list issue);
  ai_performance : option (list issue);
  ai_refactor : option (list issue)
}.

Record review_data : Type := {
  rd_qualityScore : quality_score;
  rd_securityIssues : list issue;
  rd_dependencyIssues : list issue;
  rd_aiReview : ai_review
}.

Record analysis_summary : Type := {
  as_qualityScore : Z;
  as_totalIssues : nat
}.

Record ai_analysis : Type := {
  aa_bugs : list formatted_issue;
  aa_performance : list formatted_issue;
  aa_refactor : list formatted_issue
}.

Record analysis : Type := {
  an_summary : analysis_summary;
  an_qualityMetrics : option quality_metrics;
  an_security : list formatted_issue;
  an_dependencies : list formatted_issue;
  an_aiAnalysis : ai_analysis
}.

(** [list ? f(list) : []] *)
Definition format_or_empty (l : option (list issue)) : list formatted_issue :=
  match l with
  | Some issues => formatIssuesWithSeverity issues
  | None => []
  end.

Definition structureCodeReviewOutput (reviewData : review_data) : analysis :=
  let qualityScore := rd_qualityScore reviewData in
  let securityIssues := rd_securityIssues reviewData in
  let dependencyIssues := rd_dependencyIssues reviewData in
  let aiReview := rd_aiReview reviewData in
  {| an_summary :=
       {| as_qualityScore := score qualityScore;
          as_totalIssues :=
            (length securityIssues + length dependencyIssues +
             match ai_bugs aiReview with
             | Some bugs => length bugs
             | None => 0
             end)%nat |};
     an_qualityMetrics := metrics qualityScore;
     an_security := formatIssuesWithSeverity securityIssues;
     an_dependencies := formatIssuesWithSeverity dependencyIssues;
     an_aiAnalysis :=
       {| aa_bugs := format_or_empty (ai_bugs aiReview);
          aa_performance := format_or_empty (ai_performance aiReview);
          aa_refactor := format_or_empty (ai_refactor aiReview) |} |}.

Definition has_severity (severity : string) (i : formatted_issue) : bool :=
  String.eqb (issue_severity (fi_issue i)) severity.

(** [issues.filter(i => i.severity === severity).length] *)
Definition matching (severity : string) (issues : list formatted_issue) : nat :=
  length (List.filter (has_severity severity) issues).

Definition countIssuesBySeverity (analysis : analysis) (severity : string) : nat :=
  let count := 0%nat in
  let count := (count + matching severity (an_security analysis))%nat in
  let count := (count + matching severity (an_dependencies analysis))%nat in
  let count := (count + matching severity (aa_bugs (an_aiAnalysis analysis)))%nat in
  let count := (count + matching severity (aa_performance (an_aiAnalysis analysis)))%nat in
  let count := (count + matching severity (aa_refactor (an_aiAnalysis analysis)))%nat in
  count.

Record severity_breakdown : Type := {
  high : nat;
  medium : nat;
  low : nat
}.

Record report_summary : Type := {
  totalIssues : nat;
  qualityScore : Z;
  severityBreakdown : severity_breakdown
}.

Record report_ai : Type := {
  rep_bugs : list formatted_issue;
  rep_performance : list formatted_issue;
  rep_refactor : list formatted_issue
}.

Record report_details : Type := {
  det_quality : option quality_metrics;
  det_security : list formatted_issue;
  det_dependencies : list formatted_issue;
  det_ai : report_ai
}.

Record report : Type := {
  report_id : string;
  report_timestamp : string;
  summary : report_summary;
  details : report_details
}.

(** [{...issue, severity: issue.severity, type: label}] *)
Definition relabel (label : string) (i : formatted_issue) : formatted_issue :=
  {| fi_issue :=
       {| issue_type := label;
          issue_description := issue_description (fi_issue i);
          issue_severity := issue_severity (fi_issue i);
          issue_suggestion := issue_suggestion (fi_issue i) |};
     fi_severityTag := fi_severityTag i |}.

(** What the clock gives: [Date.now()] in decimal and [new Date().toISOString()]. *)
Record clock : Type := {
  now_millis : string;
  now_iso : string
}.

Definition createStructuredOutput (now : clock) (analysis : analysis) : report :=
  {| report_id := "review_" +:+ now_millis now;
     report_timestamp := now_iso now;
     summary :=
       {| totalIssues := as_totalIssues (an_summary analysis);
          qualityScore := as_qualityScore (an_summary analysis);
          severityBreakdown :=
            {| high := countIssuesBySeverity analysis "High";
               medium := countIssuesBySeverity analysis "Medium";
               low := countIssuesBySeverity analysis "Low" |} |};
     details :=
       {| det_quality := an_qualityMetrics analysis;
          det_security := map (relabel "Security") (an_security analysis);
          det_dependencies := map (relabel "Dependency") (an_dependencies analysis);
          det_ai :=
            {| rep_bugs := map (relabel "Bug") (aa_bugs (an_aiAnalysis analysis));
               rep_performance :=
                 map (relabel "Performance") (aa_performance (an_aiAnalysis analysis));
               rep_refactor :=
                 map (relabel "Refactor") (aa_refactor (an_aiAnalysis analysis)) |} |} |}.

(** The report of one analysis result.  [createStructuredOutput] reads the
    summary that [structureCodeReviewOutput] writes, so the report is their
    composition.  (The routes of the repository hand the raw result to
    [createStructuredOutput]; its [analysis.summary] is then undefined and
    the call throws, so that no report is produced on that path.) *)
Definition review_report (now : clock) (reviewData : review_data) : report :=
  createStructuredOutput now (structureCodeReviewOutput reviewData).

(** The issues the details of a report hold, over all its partitions. *)
Definition detail_issue_count (r : report) : nat :=
  (length (det_security (details r)) + length (det_dependencies (details r)) +
   length (rep_bugs (det_ai (details r))) + length (rep_performance (det_ai (details r))) +
   length (rep_refactor (det_ai (details r))))%nat.

Definition breakdown_total (r : report) : nat :=
  (high (severityBreakdown (summary r)) + medium (severityBreakdown (summary r)) +
   low (severityBreakdown (summary r)))%nat.

(* ================================================================== *)
(** * The performance estimator *)
(* ================================================================== *)

Record performance_metrics : Type := {
  loopComplexity : nat;
  functionCalls : nat;
  nestedDepth : nat;
  memoryUsage : nat;
  complexityScore : Q
}.

(** [/\b(for|while)\s*\(/g] *)
Definition loop_pattern : regex :=
  RSeq RWordB (RSeq (RAlt (RStr "for") (RStr "while"))
                    (RSeq (RStar (RSet is_space)) (RChar "("))).

(** [/\w+\s*\(/g] *)
Definition call_pattern : regex :=
  RSeq (RPlus (RSet is_word)) (RSeq (RStar (RSet is_space)) (RChar "(")).

(** [/\[[^\]]*\]/g] *)
Definition array_pattern : regex :=
  RSeq (RChar "[") (RSeq (RStar (RSet (is_not "]"))) (RChar "]")).

(** [/\{[^\}]*\}/g] *)
Definition object_pattern : regex :=
  RSeq (RChar "{") (RSeq (RStar (RSet (is_not "}"))) (RChar "}")).

Definition estimateNestedDepth (code : string) : nat :=
  fst (fold_left
         (fun '(maxDepth, currentDepth) c =>
            if Ascii.eqb c "{" then
              let currentDepth := S currentDepth in
              (Nat.max maxDepth currentDepth, currentDepth)
            else if Ascii.eqb c "}" then
              (maxDepth, Nat.max 0 (currentDepth - 1))
            else (maxDepth, currentDepth))
         (chars code) (0%nat, 0%nat)).

Definition estimateMemoryUsage (code : string) : nat :=
  let arrayCount := count_matches array_pattern code in
  let objectCount := count_matches object_pattern code in
  (arrayCount * 10 + objectCount * 15)%nat.

Definition calculateComplexityScore (loops calls depth memory : nat) : Q :=
  jsadd (jsadd (jsadd (jsmul (num loops) 10) (jsmul (num calls) 2))
               (jsmul (num depth) 15))
        (jsmul (num memory) (lit (1 # 2))).

Definition analyzeCodeForPerformance (code : string) : performance_metrics :=
  let loops := count_matches loop_pattern code in
  let calls := count_matches call_pattern code in
  let depth := estimateNestedDepth code in
  let memory := estimateMemoryUsage code in
  {| loopComplexity := loops;
     functionCalls := calls;
     nestedDepth := depth;
     memoryUsage := memory;
     complexityScore := calculateComplexityScore loops calls depth memory |}.

Record improvements : Type := {
  loopReduction : Z;
  callReduction : Z;
  depthReduction : Z;
  memoryReduction : Z
}.

Definition calculateImprovements (original optimized : performance_metrics) : improvements :=
  {| loopReduction := Z.of_nat (loopComplexity original) - Z.of_nat (loopComplexity optimized);
     callReduction := Z.of_nat (functionCalls original) - Z.of_nat (functionCalls optimized);
     depthReduction := Z.of_nat (nestedDepth original) - Z.of_nat (nestedDepth optimized);
     memoryReduction := Z.of_nat (memoryUsage original) - Z.of_nat (memoryUsage optimized) |}.

Definition calculatePerformanceGain (original optimized : performance_metrics) : Q :=
  if Qeq_bool (complexityScore original) 0 then 0%Q
  else
    let gain :=
      jsmul (jsdiv (jssub (complexityScore original) (complexityScore optimized))
                   (complexityScore original)) 100 in
    Math_max 0 (jsdiv (inject_Z (Math_round (jsmul gain 100))) 100).

Record performance_comparison : Type := {
  before : performance_metrics;
  after : performance_metrics;
  pc_improvements : improvements;
  estimatedPerformanceGain : Q
}.

Definition estimatePerformanceImpact (originalCode optimizedCode : string)
    : completion performance_comparison :=
  try_catch
    (let originalMetrics := analyzeCodeForPerformance originalCode in
     let optimizedMetrics := analyzeCodeForPerformance optimizedCode in
     let improvements := calculateImprovements originalMetrics optimizedMetrics in
     Normal {| before := originalMetrics;
               after := optimizedMetrics;
               pc_improvements := improvements;
               estimatedPerformanceGain :=
                 calculatePerformanceGain originalMetrics optimizedMetrics |})
    (fun error => Throw (Error "Failed to estimate performance impact")).

(* ================================================================== *)
(** * Property lookup in an object literal *)
(* ================================================================== *)

(** [table[key]] finds an own property, or else one that every object
    inherits from [Object.prototype]; the inherited ones are functions (or
    the prototype itself): truthy, and no catalog. *)
Inductive property (A : Type) : Type :=
| Own (a : A)
| Inherited
| Missing.
Arguments Own {A} a.
Arguments Inherited {A}.
Arguments Missing {A}.

Definition object_prototype_keys : list string :=
  ["constructor"; "__defineGetter__"; "__defineSetter__"; "hasOwnProperty";
   "__lookupGetter__"; "__lookupSetter__"; "isPrototypeOf"; "propertyIsEnumerable";
   "toString"; "valueOf"; "__proto__"; "toLocaleString"].

Fixpoint own_property {A : Type} (table : list (string * A)) (key : string) : option A :=
  match table with
  | [] => None
  | (k, a) :: table' => if String.eqb k key then Some a else own_property table' key
  end.

Definition get_property {A : Type} (table : list (string * A)) (key : string) : property A :=
  match own_property table key with
  | Some a => Own a
  | None => if existsb (String.eqb key) object_prototype_keys then Inherited else Missing
  end.

Definition RSeqs (rs : list regex) : regex := fold_right RSeq REmpty rs.

(* ================================================================== *)
(** * The multi-language analyzer *)
(* ================================================================== *)

Record language_rules : Type := {
  extensions : list string;
  lr_patterns : list (string * regex)
}.

Definition languageRules : list (string * language_rules) :=
  [ ("javascript",
     {| extensions := [".js"; ".jsx"];
        lr_patterns :=
          [ ("asyncAwait",
             RAlt (RSeqs [RWordB; RStr "async"; RPlus (RSet is_space); RStr "function"; RWordB])
                  (RSeqs [RWordB; RStr "async"; RPlus (RSet is_space); RChar "(";
                          RStar (RSet (is_not ")")); RChar ")"; RStar (RSet is_space);
                          RStr "=>"]));
            ("promiseChaining", RAlt (RStr ".then(") (RStr ".catch("));
            ("varUsage", RSeqs [RWordB; RStr "var"; RWordB]);
            ("consoleLog", RSeqs [RWordB; RStr "console.log"; RWordB]) ] |});
    ("typescript",
     {| extensions := [".ts"; ".tsx"];
        lr_patterns :=
          [ ("anyType", RSeqs [RChar ":"; RStar (RSet is_space); RStr "any"; RWordB]);
            ("explicitAny", RStr "<any>");
            ("nonNullAssertion", RStr "!.");
            ("tsIgnore", RStr "@ts-ignore") ] |});
    ("python",
     {| extensions := [".py"];
        lr_patterns :=
          [ ("globalUsage", RSeqs [RWordB; RStr "global"; RWordB]);
            ("execUsage", RSeqs [RWordB; RStr "exec"; RWordB]);
            ("evalUsage", RSeqs [RWordB; RStr "eval"; RWordB]);
            ("mutableDefault",
             RSeqs [RStr "def"; RPlus (RSet is_space); RPlus (RSet is_word); RChar "(";
                    RStar (RSet (is_not ")")); RChar "="; RStar (RSet is_space); RChar "[";
                    RStar (RSet is_dot); RChar "]"; RStar (RSet is_dot); RChar ")"]) ] |});
    ("java",
     {| extensions := [".java"];
        lr_patterns :=
          [ ("systemOut", RStr "System.out.print");
            ("rawTypes", RSeqs [RStr "List<"; RPlus (RSet is_word); RChar ">"]);
            ("stringConcat", RSeqs [RChar "+"; RStar (RSet is_space); RChar "034"]);
            ("nullCheck", RSeqs [RStr "=="; RStar (RSet is_space); RStr "null"]) ] |}) ].

Definition severityMap : list (string * string) :=
  [ ("varUsage", "Medium"); ("consoleLog", "Low"); ("anyType", "Medium");
    ("tsIgnore", "High"); ("execUsage", "High"); ("evalUsage", "High");
    ("systemOut", "Medium"); ("mutableDefault", "Medium") ].

Definition getSeverityForPattern (patternName : string) : string :=
  match own_property severityMap patternName with
  | Some severity => severity
  | None => "Low"
  end.

Record language_issue : Type := {
  li_type : string;
  li_description : string;
  li_count : nat;
  li_severity : string
}.

(** The loop over [Object.entries(rules.patterns)]: one issue for each
    pattern that matches, in the order of the catalog. *)
Definition language_pattern_issues (patterns : list (string * regex)) (code : string)
    : list language_issue :=
  fold_left
    (fun issues '(patternName, pattern) =>
       let matches := count_matches pattern code in
       push_if (0 <? matches)%nat
               {| li_type := patternName;
                  li_description := "Detected " +:+ patternName +:+ " pattern";
                  li_count := matches;
                  li_severity := getSeverityForPattern patternName |}
               issues)
    patterns [].

Definition analyzeLanguageSpecific (code language : string) : completion (list language_issue) :=
  match get_property languageRules language with
  | Own rules => Normal (language_pattern_issues (lr_patterns rules) code)
  | Inherited => Throw (TypeError "Cannot convert undefined or null to object")
  | Missing => Normal []
  end.

(* ================================================================== *)
(** * The custom style rules *)
(* ================================================================== *)

Record style_rule : Type := {
  rule_name : string;
  rule_pattern : regex;
  rule_severity : string;
  rule_description : string
}.

Definition style_rules : list (string * list style_rule) :=
  [ ("javascript",
     [ {| rule_name := "no-console";
          rule_pattern :=
            RSeqs [RWordB; RStr "console.";
                   RAlts [RStr "log"; RStr "warn"; RStr "error"; RStr "info"] (RStr "debug");
                   RStar (RSet is_space); RChar "("];
          rule_severity := "Medium";
          rule_description := "Avoid using console statements in production code" |};
       {| rule_name := "max-line-length";
          rule_pattern := RAtLeast 120 (RSet is_dot);
          rule_severity := "Low";
          rule_description := "Line length exceeds 120 characters" |};
       {| rule_name := "no-var";
          rule_pattern := RSeqs [RWordB; RStr "var"; RPlus (RSet is_space)];
          rule_severity := "Medium";
          rule_description := "Prefer const or let over var" |} ]);
    ("python",
     [ {| rule_name := "line-length";
          rule_pattern := RAtLeast 80 (RSet is_dot);
          rule_severity := "Low";
          rule_description := "Line length exceeds 80 characters" |};
       {| rule_name := "no-exec";
          rule_pattern := RSeqs [RWordB; RStr "exec"; RStar (RSet is_space); RChar "("];
          rule_severity := "High";
          rule_description := "Avoid using exec function" |} ]);
    ("java",
     [ {| rule_name := "system-out";
          rule_pattern :=
            RSeqs [RStr "System."; RAlt (RStr "out") (RStr "err"); RStr ".print"];
          rule_severity := "Medium";
          rule_description := "Avoid using System.out.println in production code" |} ]) ].

Record custom_issue : Type := {
  ci_type : string;
  ci_rule : string;
  ci_description : string;
  ci_severity : string;
  ci_count : nat
}.

Definition apply_style_rules (languageRules : list style_rule) (code : string)
    : list custom_issue :=
  fold_left
    (fun issues rule =>
       let matches := count_matches (rule_pattern rule) code in
       push_if (0 <? matches)%nat
               {| ci_type := "Custom";
                  ci_rule := rule_name rule;
                  ci_description := rule_description rule;
                  ci_severity := rule_severity rule;
                  ci_count := matches |}
               issues)
    languageRules [].

Definition javascript_style_rules : list style_rule :=
  match own_property style_rules "javascript" with
  | Some rules => rules
  | None => []
  end.

(** [language] is [None] when the caller leaves it out: the default
    parameter then makes it ['javascript']. *)
Definition checkCustomStyleRules (code : string) (language : option string)
    : completion (list custom_issue) :=
  let language := default "javascript" language in
  match get_property style_rules language with
  | Own languageRules => Normal (apply_style_rules languageRules code)
  | Inherited => Throw (TypeError "languageRules.forEach is not a function")
  | Missing => Normal (apply_style_rules javascript_style_rules code)
  end.

(* ================================================================== *)
(** * The team collaboration insights *)
(* ================================================================== *)

(** An issue of a past review; [ri_type] is [None] when it has no type. *)
Record review_issue : Type := {
  ri_type : option string;
  ri_description : string
}.

(** [pr_issues] is [None] when [pr.analysis] or its [issues] is absent. *)
Record pull_request : Type := {
  pr_author : string;
  pr_issues : option (list review_issue)
}.

(** [patterns] is a [Set]: no duplicates, in the order of insertion. *)
Record developer : Type := {
  dev_name : string;
  prCount : nat;
  dev_issues : list review_issue;
  dev_patterns : list string
}.

(** [issue.type] when it is truthy *)
Definition truthy_type (issue : review_issue) : option string :=
  match ri_type issue with
  | Some EmptyString => None
  | Some t => Some t
  | None => None
  end.

Definition set_add (x : string) (s : list string) : list string :=
  if existsb (String.eqb x) s then s else s ++ [x].

Definition has_developer (developers : list developer) (author : string) : bool :=
  existsb (fun d => String.eqb (dev_name d) author) developers.

(** The body of the loop over the pull requests, on the entry of the author. *)
Definition record_pull_request (pr : pull_request) (devData : developer) : developer :=
  let prCount := S (prCount devData) in
  match pr_issues pr with
  | Some issues =>
      {| dev_name := dev_name devData;
         prCount := prCount;
         dev_issues := dev_issues devData ++ issues;
         dev_patterns :=
           fold_left (fun patterns issue =>
                        match truthy_type issue with
                        | Some t => set_add t patterns
                        | None => patterns
                        end) issues (dev_patterns devData) |}
  | None =>
      {| dev_name := dev_name devData;
         prCount := prCount;
         dev_issues := dev_issues devData;
         dev_patterns := dev_patterns devData |}
  end.

(** The [Map] of the developers is kept as the list of its values, in the
    order of insertion. *)
Definition extractDevelopers (pullRequests : list pull_request) : list developer :=
  fold_left
    (fun developers pr =>
       let author := pr_author pr in
       let developers :=
         if has_developer developers author then developers
         else developers ++ [{| dev_name := author; prCount := 0;
                                dev_issues := []; dev_patterns := [] |}] in
       map (fun devData =>
              if String.eqb (dev_name devData) author then record_pull_request pr devData
              else devData) developers)
    pullRequests [].

(** [issueFrequency.set(key, (issueFrequency.get(key) || 0) + 1)], on the
    entries of the [Map] in the order of insertion. *)
Fixpoint increment (key : string) (issueFrequency : list (string * nat))
    : list (string * nat) :=
  match issueFrequency with
  | [] => [(key, 1%nat)]
  | (k, count) :: rest =>
      if String.eqb k key then (k, S count) :: rest else (k, count) :: increment key rest
  end.

Definition issue_key (issue : review_issue) : string :=
  match truthy_type issue with
  | Some t => t
  | None => "unknown"
  end.

Definition count_issue_types (developers : list developer) : list (string * nat) :=
  fold_left
    (fun issueFrequency dev =>
       fold_left (fun issueFrequency issue => increment (issue_key issue) issueFrequency)
                 (dev_issues dev) issueFrequency)
    developers [].

Record common_issue : Type := {
  common_type : string;
  frequency : nat;
  percentage : Z
}.

(** [Array.prototype.sort] with [(a, b) => b.frequency - a.frequency]:
    descending, and stable. *)
Fixpoint insert_by_frequency (x : common_issue) (sorted : list common_issue)
    : list common_issue :=
  match sorted with
  | [] => [x]
  | y :: sorted' =>
      if (frequency x <? frequency y)%nat then y :: insert_by_frequency x sorted'
      else x :: y :: sorted'
  end.

Definition sort_by_frequency (l : list common_issue) : list common_issue :=
  fold_right insert_by_frequency [] l.

Definition common_threshold (developerCount : nat) : Z :=
  Math_ceil (jsmul (num developerCount) (lit (3 # 10))).

Definition findCommonIssues (developers : list developer) : list common_issue :=
  let issueFrequency := count_issue_types developers in
  let threshold := common_threshold (length developers) in
  let commonIssues :=
    fold_left
      (fun commonIssues '(type, count) =>
         push_if (threshold <=? Z.of_nat count)
                 {| common_type := type;
                    frequency := count;
                    percentage :=
                      Math_round (jsmul (jsdiv (num count) (num (length developers))) 100) |}
                 commonIssues)
      issueFrequency [] in
  sort_by_frequency commonIssues.

(** The number of developers whose issue list holds an issue of this type. *)
Definition authors_with (type : string) (developers : list developer) : nat :=
  length (List.filter (fun dev => existsb (fun issue => String.eqb (issue_key issue) type)
                                      (dev_issues dev)) developers).

Record violation : Type := {
  violation_type : string;
  violation_count : nat;
  violation_percentage : Z
}.

Record recommendation : Type := {
  rec_type : string;
  rec_priority : string;
  rec_description : string;
  rec_suggestion : string
}.

Record insights : Type := {
  teamId : string;
  analysisPeriod : string * string;
  developerCount : nat;
  commonIssues : list common_issue;
  bestPracticeViolations : list violation;
  recommendations : list recommendation
}.

(** [{timestamp, ...insights}] *)
Record history_entry : Type := {
  timestamp : string;
  entry_insights : insights
}.

(** [array.slice(-n)]: the last [n] elements. *)
Definition slice_last {A : Type} (n : nat) (l : list A) : list A :=
  drop (length l - n) l.

(** [teamInsightsStorage] is the state; the array of a team is pushed to in
    place, and replaced when it has grown beyond ten entries. *)
Definition storeTeamInsights (now : string) (insights : insights)
    (teamInsightsStorage : gmap string (list history_entry))
    : gmap string (list history_entry) :=
  let teamId := teamId insights in
  let teamInsightsStorage :=
    match teamInsightsStorage !! teamId with
    | Some _ => teamInsightsStorage
    | None => <[teamId := []]> teamInsightsStorage
    end in
  let teamHistory :=
    default [] (teamInsightsStorage !! teamId)
    ++ [{| timestamp := now; entry_insights := insights |}] in
  let teamInsightsStorage := <[teamId := teamHistory]> teamInsightsStorage in
  if (10 <? length teamHistory)%nat
  then <[teamId := slice_last 10 teamHistory]> teamInsightsStorage
  else teamInsightsStorage.

Definition getTeamInsightsHistory (teamId : string)
    (teamInsightsStorage : gmap string (list history_entry)) : list history_entry :=
  default [] (teamInsightsStorage !! teamId).

(** A run of insertions, from the empty table the module starts with. *)
Definition store_all (insertions : list (string * insights))
    : gmap string (list history_entry) :=
  fold_left (fun storage '(now, insights) => storeTeamInsights now insights storage)
            insertions ∅.

(** All the entries ever inserted for a team, oldest first. *)
Definition inserted_for (team : string) (insertions : list (string * insights))
    : list history_entry :=
  map (fun '(now, insights) => {| timestamp := now; entry_insights := insights |})
      (List.filter (fun '(_, insights) => String.eqb (teamId insights) team) insertions).

(* ================================================================== *)
(** * Notions the statements use *)
(* ================================================================== *)

(** [sub] occurs in [s]. *)
Definition contains (s sub : string) : Prop :=
  exists pre post : string, s = pre +:+ sub +:+ post.

Definition is_xss (i : issue) : bool := String.eqb (issue_type i) "XSS Vulnerability".

(** A whole-word occurrence of [word] starts at this position: the text goes
    on with [word], and neither the unit before it nor the unit after it is
    a word character. *)
Definition whole_word_here (word : list ascii) (prev : option ascii) (s : list ascii) : bool :=
  negb (is_word_opt prev) && starts_with word s
  && negb (is_word_opt (head (drop (length word) s))).

Fixpoint whole_word_occurrences_from (word : list ascii) (prev : option ascii)
    (s : list ascii) : nat :=
  ((if whole_word_here word prev s then 1 else 0) +
   match s with
   | [] => 0
   | c :: s' => whole_word_occurrences_from word (Some c) s'
   end)%nat.

(** The number of positions of [code] where [word] occurs as a whole word. *)
Definition whole_word_occurrences (word code : string) : nat :=
  whole_word_occurrences_from (chars word) None (chars code).

(** An analysis result whose only finding is a performance suggestion. *)
Definition slow_loop : issue :=
  {| issue_type := "Slow loop";
     issue_description := "Nested loop over the same array";
     issue_severity := "Low";
     issue_suggestion := "Use a lookup table" |}.

Definition performance_only : review_data :=
  {| rd_qualityScore := {| score := 65; metrics := None |};
     rd_securityIssues := [];
     rd_dependencyIssues := [];
     rd_aiReview := {| ai_bugs := Some [];
                       ai_performance := Some [slow_loop];
                       ai_refactor := Some [] |} |}.

(** Ten authors with one pull request each; only the first has issues:
    three of the same type. *)
Definition unused_variable : review_issue :=
  {| ri_type := Some "unusedVariable"; ri_description := "Variable is never read" |}.

Definition one_author_three_times : list pull_request :=
  {| pr_author := "dev0";
     pr_issues := Some [unused_variable; unused_variable; unused_variable] |}
  :: map (fun author => {| pr_author := author; pr_issues := Some [] |})
         ["dev1"; "dev2"; "dev3"; "dev4"; "dev5"; "dev6"; "dev7"; "dev8"; "dev9"].

(** The unit before the position reached after reading [w]. *)
Definition last_unit (w : list ascii) (prev : option ascii) : option ascii :=
  fold_left (fun _ c => Some c) w prev.

(** The weighted sum of the score over the rationals, without the rounding
    of the double operations. *)
Definition exact_weighted_score (readability complexity duplication : Z) : Z :=
  Math_round ((4 # 10) * inject_Z readability + (3 # 10) * inject_Z complexity
              + (3 # 10) * (100 - inject_Z duplication))%Q.

(** A text of 101 empty lines. *)
Definition hundred_newlines : string := string_of_list_ascii (repeat newline 100).

(** Eight lines of 98 units, the last one a copy of the first. *)
Definition long_line (tag : ascii) : string :=
  string_of_list_ascii (repeat "x"%char 97 ++ [tag]).

Definition tie_text : string :=
  String.concat (String newline EmptyString)
    (map long_line ["1"; "2"; "3"; "4"; "5"; "6"; "7"; "1"]%char).

(** A text on which every language catalog has a pattern that matches. *)
Definition polyglot_text : string := "var x: any; exec System.out.print".

(** The severities the breakdown has a counter for. *)
Definition known_severity (i : formatted_issue) : bool :=
  has_severity "High" i || has_severity "Medium" i || has_severity "Low" i.

(** The number of issues of this type over the issue lists of all developers. *)
Definition occurrences (type : string) (developers : list developer) : nat :=
  list_sum (map (fun dev =>
                   length (List.filter (fun issue => String.eqb (issue_key issue) type)
                                       (dev_issues dev)))
                developers).

(** The count a frequency table holds for a key, 0 when it has none. *)
Definition count_of (key : string) (issueFrequency : list (string * nat)) : nat :=
  default 0%nat (own_property issueFrequency key).

(* ================================================================== *)
(** * The performance estimator: notions *)
(* ================================================================== *)

(** The braces that open, in a text. *)
Definition opening_braces (code : string) : nat :=
  length (List.filter (fun c => Ascii.eqb c "{") (chars code)).

(** One step of the loop of [estimateNestedDepth]. *)
Definition depth_step (state : nat * nat) : ascii -> nat * nat :=
  let '(maxDepth, currentDepth) := state in
  fun c =>
  if Ascii.eqb c "{" then
    let currentDepth := S currentDepth in
    (Nat.max maxDepth currentDepth, currentDepth)
  else if Ascii.eqb c "}" then
    (maxDepth, Nat.max 0 (currentDepth - 1))
  else (maxDepth, currentDepth).

(* ================================================================== *)
(** * The language of a file *)
(* ================================================================== *)

(** [String.prototype.toLowerCase], on the code units below 256: the
    letters A-Z, and the letters U+00C0-U+00DE but for the sign U+00D7. *)
Definition toLowerCase_unit (c : ascii) : ascii :=
  let n := nat_of_ascii c in
  if in_range 65 90 c || (in_range 192 222 c && negb (n =? 215)%nat)
  then ascii_of_nat (n + 32)
  else c.

Definition toLowerCase (s : string) : string :=
  string_of_list_ascii (map toLowerCase_unit (chars s)).

(** [s.lastIndexOf(c)]: the last index of the unit, or -1. *)
Fixpoint lastIndexOf_chars (s : list ascii) (c : ascii) : Z :=
  match s with
  | [] => -1
  | x :: s' =>
      let i := lastIndexOf_chars s' c in
      if 0 <=? i then i + 1
      else if Ascii.eqb x c then 0 else -1
  end.

Definition lastIndexOf (s : string) (c : ascii) : Z := lastIndexOf_chars (chars s) c.

(** [s.substring(start)]: a negative start counts as 0. *)
Definition substring (s : string) (start : Z) : string :=
  string_of_list_ascii (drop (Z.to_nat (Z.max 0 start)) (chars s)).

(** The loop over [Object.entries(languageRules)] returns at the first
    language whose extensions include the extension. *)
Definition detectLanguage (filename : string) : string :=
  let extension := toLowerCase (substring filename (lastIndexOf filename ".")) in
  match List.find (fun '(language, rules) => existsb (String.eqb extension) (extensions rules))
                  languageRules with
  | Some (language, _) => language
  | None => "text"
  end.

Definition getLanguageSupportInfo : list string := map fst languageRules.

Definition no_dot (s : string) : Prop := ~ In "."%char (chars s).

(* ================================================================== *)
(** * The issues of the catalogs *)
(* ================================================================== *)

(** The issue the language analyzer reports for a pattern of the catalog. *)
Definition language_issue_of (code : string) (entry : string * regex) : language_issue :=
  {| li_type := fst entry;
     li_description := "Detected " +:+ fst entry +:+ " pattern";
     li_count := count_matches (snd entry) code;
     li_severity := getSeverityForPattern (fst entry) |}.

Definition pattern_matches (code : string) (entry : string * regex) : bool :=
  (0 <? count_matches (snd entry) code)%nat.

Definition custom_issue_of (code : string) (rule : style_rule) : custom_issue :=
  {| ci_type := "Custom";
     ci_rule := rule_name rule;
     ci_description := rule_description rule;
     ci_severity := rule_severity rule;
     ci_count := count_matches (rule_pattern rule) code |}.

Definition rule_matches (code : string) (rule : style_rule) : bool :=
  (0 <? count_matches (rule_pattern rule) code)%nat.

(* ================================================================== *)
(** * The code style enforcement *)
(* ================================================================== *)

(** A message of ESLint; [em_ruleId] is [None] when it is [null]. *)
Record eslint_message : Type := {
  em_ruleId : option string;
  em_message : string;
  em_severity : Z;
  em_line : Z;
  em_column : Z;
  em_source : option string
}.

Record eslint_result : Type := {
  er_messages : list eslint_message;
  er_errorCount : Z;
  er_warningCount : Z
}.

Record eslint_issue : Type := {
  ei_type : string;
  ei_rule : string;
  ei_description : string;
  ei_severity : string;
  ei_line : Z;
  ei_column : Z;
  ei_source : option string
}.

Record eslint_check : Type := {
  ec_issues : list eslint_issue;
  ec_errorCount : Z;
  ec_warningCount : Z
}.

Definition getSeverityFromESLint (eslintSeverity : Z) : string :=
  if eslintSeverity =? 1 then "Medium"
  else if eslintSeverity =? 2 then "High"
  else "Low".

(** [message.ruleId || 'unknown'] *)
Definition rule_or_unknown (ruleId : option string) : string :=
  match ruleId with
  | Some EmptyString => "unknown"
  | Some rule => rule
  | None => "unknown"
  end.

(** The issue pushed for a message. *)
Definition eslint_issue_of (message : eslint_message) : eslint_issue :=
  {| ei_type := "ESLint";
     ei_rule := rule_or_unknown (em_ruleId message);
     ei_description := em_message message;
     ei_severity := getSeverityFromESLint (em_severity message);
     ei_line := em_line message;
     ei_column := em_column message;
     ei_source := em_source message |}.

(** The counts of ESLint are integers far below 2^53, so that their sums
    are exact. *)
Definition processESLintResults (results : list eslint_result) : eslint_check :=
  let issues :=
    fold_left
      (fun issues result =>
         fold_left (fun issues message => issues ++ [eslint_issue_of message])
                   (er_messages result) issues)
      results [] in
  {| ec_issues := issues;
     ec_errorCount := fold_left (fun acc result => acc + er_errorCount result) results 0;
     ec_warningCount := fold_left (fun acc result => acc + er_warningCount result) results 0 |}.

(** [{success: true, ...}], or [{success: false, error, details}] *)
Inductive check_result (A : Type) : Type :=
| Succeeded (a : A)
| Failed (error details : string).
Arguments Succeeded {A} a.
Arguments Failed {A} error details.

Definition exn_message (e : exn) : string :=
  match e with
  | TypeError message => message
  | Error message => message
  end.

(** [lint] is what the run of ESLint on the text comes to. *)
Definition checkESLintStyle (lint : completion (list eslint_result))
    : check_result eslint_check :=
  match lint with
  | Normal results => Succeeded (processESLintResults results)
  | Throw error => Failed "Failed to run ESLint check" (exn_message error)
  end.

Record prettier_issue : Type := {
  pi_type : string;
  pi_rule : string;
  pi_description : string;
  pi_severity : string;
  pi_fixable : bool
}.

Record prettier_check : Type := {
  prettier_issues : list prettier_issue;
  formatted : bool
}.

(** [write] is what writing the temporary file comes to (nothing is
    written when the caller gives a file path), [check] what the run of
    [prettier --check] comes to. *)
Definition checkPrettierStyle (write : completion unit) (check : completion string)
    : check_result prettier_check :=
  match write with
  | Throw error => Failed "Failed to run Prettier check" (exn_message error)
  | Normal _ =>
      match check with
      | Normal output => Succeeded {| prettier_issues := []; formatted := true |}
      | Throw error =>
          Succeeded
            {| prettier_issues :=
                 [{| pi_type := "Prettier";
                     pi_rule := "formatting";
                     pi_description := "Code does not match Prettier formatting standards";
                     pi_severity := "Low";
                     pi_fixable := true |}];
               formatted := false |}
      end
  end.

Record style_results : Type := {
  sr_eslint : option (check_result eslint_check);
  sr_prettier : option (check_result prettier_check);
  sr_customRules : list custom_issue
}.

Record style_summary : Type := {
  ss_totalIssues : nat;
  ss_severityBreakdown : severity_breakdown
}.

(** [if (breakdown.hasOwnProperty(severity)) breakdown[severity]++], on
    the lower-cased severity *)
Definition count_severity (breakdown : severity_breakdown) (severity : string)
    : severity_breakdown :=
  let severity := toLowerCase severity in
  if String.eqb severity "high" then
    {| high := S (high breakdown); medium := medium breakdown; low := low breakdown |}
  else if String.eqb severity "medium" then
    {| high := high breakdown; medium := S (medium breakdown); low := low breakdown |}
  else if String.eqb severity "low" then
    {| high := high breakdown; medium := medium breakdown; low := S (low breakdown) |}
  else breakdown.

(** One of the three blocks of the summary, on the severities of a list of issues. *)
Definition count_issues (severities : list string) (summary : style_summary) : style_summary :=
  {| ss_totalIssues := (ss_totalIssues summary + length severities)%nat;
     ss_severityBreakdown := fold_left count_severity severities (ss_severityBreakdown summary) |}.

Definition generateStyleSummary (results : style_results) : style_summary :=
  let summary :=
    {| ss_totalIssues := 0;
       ss_severityBreakdown := {| high := 0; medium := 0; low := 0 |} |} in
  let summary :=
    match sr_eslint results with
    | Some (Succeeded eslint) => count_issues (map ei_severity (ec_issues eslint)) summary
    | _ => summary
    end in
  let summary :=
    match sr_prettier results with
    | Some (Succeeded prettier) =>
        count_issues (map pi_severity (prettier_issues prettier)) summary
    | _ => summary
    end in
  count_issues (map ci_severity (sr_customRules results)) summary.

(** [cfg_eslint] is [false] when [config.eslint === false], and so on;
    [cfg_language] is [None] when the configuration has no language. *)
Record style_config : Type := {
  cfg_eslint : bool;
  cfg_prettier : bool;
  cfg_customRules : bool;
  cfg_language : option string
}.

Record style_report : Type := {
  style_results_of : style_results;
  style_summary_of : style_summary
}.

Definition enforceCodeStyle (lint : completion (list eslint_result))
    (write : completion unit) (check : completion string)
    (code : string) (config : style_config) : check_result style_report :=
  let body :=
    let eslint := if cfg_eslint config then Some (checkESLintStyle lint) else None in
    let prettier :=
      if cfg_prettier config then Some (checkPrettierStyle write check) else None in
    customRules ←
      (if cfg_customRules config then checkCustomStyleRules code (cfg_language config)
       else Normal []);
    let results :=
      {| sr_eslint := eslint; sr_prettier := prettier; sr_customRules := customRules |} in
    Normal {| style_results_of := results; style_summary_of := generateStyleSummary results |} in
  match body with
  | Normal r => Succeeded r
  | Throw error => Failed "Failed to enforce code style" (exn_message error)
  end.

(** The issues a check has found, when it ran and succeeded. *)
Definition found {A B : Type} (issues : A -> list B) (c : option (check_result A)) : list B :=
  match c with
  | Some (Succeeded a) => issues a
  | _ => []
  end.

Definition breakdown_sum (b : severity_breakdown) : nat := (high b + medium b + low b)%nat.

Definition style_severity (s : string) : Prop := In s ["High"; "Medium"; "Low"].

(* ================================================================== *)
(** * The developers of a team: notions *)
(* ================================================================== *)

(** The authors of a list of pull requests, each once, in the order of
    their first pull request. *)
Definition authors (pullRequests : list pull_request) : list string :=
  fold_left (fun names pr => set_add (pr_author pr) names) pullRequests [].

Definition pull_requests_of (author : string) (pullRequests : list pull_request)
    : list pull_request :=
  List.filter (fun pr => String.eqb (pr_author pr) author) pullRequests.

(** The issues of a list of pull requests, in their order. *)
Definition issues_of (pullRequests : list pull_request) : list review_issue :=
  flat_map (fun pr => default [] (pr_issues pr)) pullRequests.

(** The truthy types of a list of issues, each once, in the order of
    their first issue. *)
Definition types_of (issues : list review_issue) : list string :=
  fold_left (fun patterns issue =>
               match truthy_type issue with
               | Some t => set_add t patterns
               | None => patterns
               end) issues [].

Definition developer_of (pullRequests : list pull_request) (author : string) : developer :=
  let own := pull_requests_of author pullRequests in
  {| dev_name := author;
     prCount := length own;
     dev_issues := issues_of own;
     dev_patterns := types_of (issues_of own) |}.

(* ================================================================== *)
(** * The violations, the recommendations and the analysis of a team *)
(* ================================================================== *)

Definition antiPatterns : list string :=
  ["varUsage"; "consoleLog"; "anyType"; "tsIgnore";
   "globalUsage"; "execUsage"; "evalUsage"; "systemOut"].

(** The [Map] of the violations, as the list of its entries in the order
    of insertion. *)
Definition count_violations (developers : list developer) : list (string * nat) :=
  fold_left
    (fun violations dev =>
       fold_left
         (fun violations pattern =>
            if existsb (String.eqb pattern) antiPatterns
            then increment pattern violations
            else violations)
         (dev_patterns dev) violations)
    developers [].

(** [sort] with [(a, b) => b.count - a.count]: descending, and stable. *)
Fixpoint insert_by_count (x : violation) (sorted : list violation) : list violation :=
  match sorted with
  | [] => [x]
  | y :: sorted' =>
      if (violation_count x <? violation_count y)%nat then y :: insert_by_count x sorted'
      else x :: y :: sorted'
  end.

Definition sort_by_count (l : list violation) : list violation :=
  fold_right insert_by_count [] l.

Definition findBestPracticeViolations (developers : list developer) : list violation :=
  let violations := count_violations developers in
  let violationArray :=
    map (fun '(type, count) =>
           {| violation_type := type;
              violation_count := count;
              violation_percentage :=
                Math_round (jsmul (jsdiv (num count) (num (length developers))) 100) |})
        violations in
  sort_by_count violationArray.

(** A percentage in a template literal is an integer below 10^21: its
    decimal digits. *)
Definition generateTeamRecommendations (commonIssues : list common_issue)
    (bestPracticeViolations : list violation) : list recommendation :=
  let recommendations := [] in
  let recommendations :=
    fold_left
      (fun recommendations issue =>
         recommendations ++
         [{| rec_type := "common_issue";
             rec_priority := if 50 <? percentage issue then "high" else "medium";
             rec_description :=
               "Team-wide issue: " +:+ common_type issue +:+ " appears in "
               +:+ pretty (percentage issue) +:+ "% of developers' code";
             rec_suggestion :=
               "Conduct a team training session on " +:+ common_type issue
               +:+ " best practices" |}])
      commonIssues recommendations in
  fold_left
    (fun recommendations violation =>
       recommendations ++
       [{| rec_type := "best_practice";
           rec_priority := if 40 <? violation_percentage violation then "high" else "medium";
           rec_description :=
             "Best practice violation: " +:+ violation_type violation +:+ " found in "
             +:+ pretty (violation_percentage violation) +:+ "% of developers";
           rec_suggestion :=
             "Update team coding standards to explicitly prohibit "
             +:+ violation_type violation |}])
    bestPracticeViolations recommendations.

(** The data of a request; a field the caller left out is [None]. *)
Record pr_data : Type := {
  pd_teamId : option string;
  pd_startDate : option string;
  pd_endDate : option string;
  pd_pullRequests : option (list pull_request)
}.

(** What the clock gives: the date thirty days ago, the date now, and
    [new Date().toISOString()] at the time of storing. *)
Record team_clock : Type := {
  thirty_days_ago : string;
  today : string;
  stamp : string
}.

(** [value || fallback] *)
Definition or_else (value : option string) (fallback : string) : string :=
  match value with
  | Some EmptyString => fallback
  | Some v => v
  | None => fallback
  end.

Definition analyzeTeamCollaboration (now : team_clock) (prData : pr_data)
    (teamInsightsStorage : gmap string (list history_entry))
    : completion insights * gmap string (list history_entry) :=
  let body : completion (insights * gmap string (list history_entry)) :=
    pullRequests ←
      match pd_pullRequests prData with
      | Some pullRequests => Normal pullRequests
      | None => Throw (TypeError "Cannot read properties of undefined (reading 'forEach')")
      end;
    let developers := extractDevelopers pullRequests in
    let commonIssues := findCommonIssues developers in
    let bestPracticeViolations := findBestPracticeViolations developers in
    let insights :=
      {| teamId := or_else (pd_teamId prData) "default";
         analysisPeriod :=
           (or_else (pd_startDate prData) (thirty_days_ago now),
            or_else (pd_endDate prData) (today now));
         developerCount := length developers;
         commonIssues := commonIssues;
         bestPracticeViolations := bestPracticeViolations;
         recommendations :=
           generateTeamRecommendations commonIssues bestPracticeViolations |} in
    Normal (insights, storeTeamInsights (stamp now) insights teamInsightsStorage) in
  match body with
  | Normal (insights, teamInsightsStorage) => (Normal insights, teamInsightsStorage)
  | Throw error =>
      (Throw (Error "Failed to analyze team collaboration patterns"), teamInsightsStorage)
  end.

(** The number of developers whose patterns hold this type. *)
Definition developers_with (type : string) (developers : list developer) : nat :=
  length (List.filter (fun dev => existsb (String.eqb type) (dev_patterns dev)) developers).

(** [antiPatterns.includes(type)] *)
Definition is_antiPattern (type : string) : bool := existsb (String.eqb type) antiPatterns.

(* ================================================================== *)
(** * The explanation of a performance comparison, and the issues of a report *)
(* ================================================================== *)

(** [array.join(separator)] *)
Definition join (separator : string) (l : list string) : string :=
  match l with
  | [] => EmptyString
  | x :: l' => fold_left (fun joined s => joined +:+ separator +:+ s) l' x
  end.

(** A reduction in a template literal is a positive integer below 10^21:
    its decimal digits. *)
Definition generatePerformanceExplanation (analysis : performance_comparison) : string :=
  let improvements := pc_improvements analysis in
  let explanations := [] in
  let explanations :=
    push_if (0 <? loopReduction improvements)
            ("Reduced loop complexity by " +:+ pretty (loopReduction improvements)
             +:+ " loops, " +:+ "which can significantly improve execution time.")
            explanations in
  let explanations :=
    push_if (0 <? callReduction improvements)
            ("Reduced function calls by " +:+ pretty (callReduction improvements)
             +:+ ", " +:+ "decreasing overhead and improving performance.")
            explanations in
  let explanations :=
    push_if (0 <? depthReduction improvements)
            ("Reduced nesting depth by " +:+ pretty (depthReduction improvements)
             +:+ " levels, " +:+ "making the code more efficient and easier to optimize.")
            explanations in
  let explanations :=
    push_if (0 <? memoryReduction improvements)
            ("Reduced estimated memory usage by " +:+ pretty (memoryReduction improvements)
             +:+ " units, " +:+ "leading to better memory management.")
            explanations in
  join " " explanations.

(** The issues of an analysis result, over all five lists. *)
Definition all_issues (reviewData : review_data) : list issue :=
  rd_securityIssues reviewData ++ rd_dependencyIssues reviewData
  ++ default [] (ai_bugs (rd_aiReview reviewData))
  ++ default [] (ai_performance (rd_aiReview reviewData))
  ++ default [] (ai_refactor (rd_aiReview reviewData)).

Definition known_issue (i : issue) : bool :=
  existsb (String.eqb (issue_severity i)) ["High"; "Medium"; "Low"].

(* ================================================================== *)
(** * The test suggestions *)
(* ================================================================== *)

(** A suggested test; [ts_description] is [None] when it has none. *)
Record test_suggestion : Type := {
  ts_subject : string;
  ts_testName : string;
  ts_description : option string;
  ts_testType : string;
  ts_suggestion : string
}.

(** [(test.description || '').toLowerCase()] *)
Definition description_of (test : test_suggestion) : string :=
  toLowerCase (default EmptyString (ts_description test)).

Definition criticalKeywords : list string :=
  ["validate"; "authenticate"; "authorize"; "payment"; "security"].

Definition mediumKeywords : list string := ["calculate"; "transform"; "format"; "filter"].

Definition calculateTestPriority (test : test_suggestion) : string :=
  let description := description_of test in
  if existsb (fun keyword => includes description keyword) criticalKeywords then "high"
  else if existsb (fun keyword => includes description keyword) mediumKeywords then "medium"
  else "low".

Definition complexKeywords : list string :=
  ["async"; "database"; "api"; "external"; "integration"].

Definition simpleKeywords : list string := ["validate"; "check"; "verify"].

Definition estimateTestEffort (test : test_suggestion) : string :=
  let description := description_of test in
  if existsb (fun keyword => includes description keyword) complexKeywords then "high"
  else if existsb (fun keyword => includes description keyword) simpleKeywords then "low"
  else "medium".

(* ================================================================== *)
(** * Rounding to a double is monotone *)
(* ================================================================== *)

Section Rounding.
Local Open Scope Q_scope.

Lemma rne_floor_le x : (Qfloor x <= rne x <= Qfloor x + 1)%Z.
Proof.
  unfold rne. destruct (Qcompare _ _); try destruct (Z.even _); lia.
Qed.

Lemma rne_Z z : rne (inject_Z z) = z.
Proof.
  unfold rne. rewrite Qfloor_Z.
  destruct (Qcompare_spec (inject_Z z - inject_Z z) (1 # 2)) as [H|H|H];
    [exfalso; lra | reflexivity | exfalso; lra].
Qed.

Lemma rne_mono x y : x <= y -> (rne x <= rne y)%Z.
Proof.
  intros Hxy.
  pose proof (Qfloor_resp_le _ _ Hxy) as Hf.
  destruct (Z.eq_dec (Qfloor x) (Qfloor y)) as [E|N].
  - unfold rne. rewrite E.
    destruct (Qcompare_spec (x - inject_Z (Qfloor y)) (1 # 2)) as [H1|H1|H1];
    destruct (Qcompare_spec (y - inject_Z (Qfloor y)) (1 # 2)) as [H2|H2|H2];
    try destruct (Z.even _); try lia; exfalso; lra.
  - pose proof (rne_floor_le x). pose proof (rne_floor_le y). lia.
Qed.

Lemma pow2_pos e : 0 < 2 ^ e.
Proof. apply Qpower_0_lt. reflexivity. Qed.

Lemma pow2_Z (n : Z) : (0 <= n)%Z -> inject_Z (2 ^ n) == 2 ^ n.
Proof. intros. now rewrite Zpower_Qpower. Qed.

Lemma binade_spec x : 0 < x -> 2 ^ binade x <= x /\ x < 2 ^ (binade x + 1).
Proof.
  intros Hx. destruct x as [p q]. unfold binade. cbn [Qnum Qden].
  assert (Hp : (0 < p)%Z) by (unfold Qlt in Hx; cbn in Hx; lia).
  set (a := Z.log2 p). set (b := Z.log2 (Z.pos q)).
  destruct (Z.log2_spec p Hp) as [Ha1 Ha2]. fold a in Ha1, Ha2.
  destruct (Z.log2_spec (Z.pos q) eq_refl) as [Hb1 Hb2]. fold b in Hb1, Hb2.
  assert (Ha0 : (0 <= a)%Z) by apply Z.log2_nonneg.
  assert (Hb0 : (0 <= b)%Z) by apply Z.log2_nonneg.
  (* p # q as a quotient of integers *)
  assert (Hq : p # q == inject_Z p / inject_Z (Z.pos q)) by apply Qmake_Qdiv.
  assert (HqP : 0 < inject_Z (Z.pos q)) by reflexivity.
  assert (Hup : p # q < 2 ^ (a - b + 1)).
  { rewrite Hq. apply Qlt_shift_div_r; [exact HqP|].
    apply Qlt_le_trans with (inject_Z (2 ^ (a + 1))).
    - rewrite <- Zlt_Qlt. exact Ha2.
    - rewrite pow2_Z by lia.
      replace (a + 1)%Z with ((a - b + 1) + b)%Z by ring.
      rewrite Qpower_plus by discriminate.
      apply Qmult_le_l; [apply pow2_pos|].
      rewrite <- pow2_Z by lia. rewrite <- Zle_Qle. exact Hb1. }
  assert (Hlo : 2 ^ (a - b - 1) < p # q).
  { rewrite Hq. apply Qlt_shift_div_l; [exact HqP|].
    apply Qlt_le_trans with (inject_Z (2 ^ a)).
    - rewrite pow2_Z by lia.
      replace a with ((a - b - 1) + (b + 1))%Z at 2 by ring.
      rewrite Qpower_plus by discriminate.
      apply Qmult_lt_l; [apply pow2_pos|].
      rewrite <- pow2_Z by lia. rewrite <- Zlt_Qlt. exact Hb2.
    - rewrite <- Zle_Qle. exact Ha1. }
  destruct (Qle_bool (2 ^ (a - b)) (p # q)) eqn:E.
  - apply Qle_bool_iff in E. split; assumption.
  - split.
    + apply Qlt_le_weak. exact Hlo.
    + replace (a - b - 1 + 1)%Z with (a - b)%Z by ring.
      apply Qnot_le_lt. intro H. apply Qle_bool_iff in H. congruence.
Qed.

Lemma binade_unique x e : 2 ^ e <= x -> x < 2 ^ (e + 1) -> binade x = e.
Proof.
  intros H1 H2.
  assert (Hx : 0 < x) by (eapply Qlt_le_trans; [apply (pow2_pos e)|exact H1]).
  destruct (binade_spec x Hx) as [B1 B2].
  assert (L1 : 2 ^ e < 2 ^ (binade x + 1)) by (eapply Qle_lt_trans; eassumption).
  assert (L2 : 2 ^ binade x < 2 ^ (e + 1)) by (eapply Qle_lt_trans; eassumption).
  apply Qpower_lt_compat_l_inv in L1; [|reflexivity].
  apply Qpower_lt_compat_l_inv in L2; [|reflexivity].
  lia.
Qed.

Lemma binade_mono x y : 0 < x -> x <= y -> (binade x <= binade y)%Z.
Proof.
  intros Hx Hxy.
  assert (Hy : 0 < y) by (eapply Qlt_le_trans; eassumption).
  destruct (binade_spec x Hx) as [X1 _]. destruct (binade_spec y Hy) as [_ Y2].
  assert (L : 2 ^ binade x < 2 ^ (binade y + 1)).
  { eapply Qle_lt_trans; [exact X1|]. eapply Qle_lt_trans; eassumption. }
  apply Qpower_lt_compat_l_inv in L; [lia|reflexivity].
Qed.

Lemma ulp_pos x : 0 < ulp x.
Proof. apply pow2_pos. Qed.

Lemma scaled_bounds x : 0 < x -> inject_Z (2 ^ 52) <= x / ulp x /\ x / ulp x <= inject_Z (2 ^ 53).
Proof.
  intros Hx. destruct (binade_spec x Hx) as [B1 B2].
  pose proof (ulp_pos x) as Hu.
  assert (E1 : 2 ^ binade x == inject_Z (2 ^ 52) * ulp x).
  { unfold ulp. rewrite pow2_Z by lia. rewrite <- Qpower_plus by discriminate.
    now replace (52 + (binade x - 52))%Z with (binade x) by ring. }
  assert (E2 : 2 ^ (binade x + 1) == inject_Z (2 ^ 53) * ulp x).
  { unfold ulp. rewrite pow2_Z by lia. rewrite <- Qpower_plus by discriminate.
    now replace (53 + (binade x - 52))%Z with (binade x + 1)%Z by ring. }
  split.
  - apply Qle_shift_div_l; [exact Hu|]. now rewrite <- E1.
  - apply Qle_shift_div_r; [exact Hu|]. rewrite <- E2. now apply Qlt_le_weak.
Qed.

Lemma fl_pos_bounds x : 0 < x -> 2 ^ binade x <= fl_pos x /\ fl_pos x <= 2 ^ (binade x + 1).
Proof.
  intros Hx. destruct (scaled_bounds x Hx) as [S1 S2].
  pose proof (ulp_pos x) as Hu.
  apply rne_mono in S1. apply rne_mono in S2. rewrite rne_Z in S1, S2.
  unfold fl_pos. split.
  - apply Qle_trans with (inject_Z (2 ^ 52) * ulp x).
    + unfold ulp. rewrite pow2_Z by lia. rewrite <- Qpower_plus by discriminate.
      replace (52 + (binade x - 52))%Z with (binade x) by ring. apply Qle_refl.
    + apply Qmult_le_compat_r; [|now apply Qlt_le_weak]. now rewrite <- Zle_Qle.
  - apply Qle_trans with (inject_Z (2 ^ 53) * ulp x).
    + apply Qmult_le_compat_r; [|now apply Qlt_le_weak]. now rewrite <- Zle_Qle.
    + unfold ulp. rewrite pow2_Z by lia. rewrite <- Qpower_plus by discriminate.
      replace (53 + (binade x - 52))%Z with (binade x + 1)%Z by ring. apply Qle_refl.
Qed.

Lemma fl_pos_mono x y : 0 < x -> x <= y -> fl_pos x <= fl_pos y.
Proof.
  intros Hx Hxy.
  assert (Hy : 0 < y) by (eapply Qlt_le_trans; eassumption).
  pose proof (binade_mono x y Hx Hxy) as Hb.
  destruct (Z.eq_dec (binade x) (binade y)) as [E|N].
  - unfold fl_pos, ulp. rewrite E.
    apply Qmult_le_compat_r; [|apply Qlt_le_weak, pow2_pos].
    rewrite <- Zle_Qle. apply rne_mono.
    apply Qmult_le_compat_r; [exact Hxy|].
    apply Qlt_le_weak, Qinv_lt_0_compat, pow2_pos.
  - destruct (fl_pos_bounds x Hx) as [_ U]. destruct (fl_pos_bounds y Hy) as [L _].
    eapply Qle_trans; [exact U|]. eapply Qle_trans; [|exact L].
    apply Qpower_le_compat_l; [lia|discriminate].
Qed.

Lemma fl_pos_pos x : 0 < x -> 0 < fl_pos x.
Proof.
  intros Hx. destruct (fl_pos_bounds x Hx) as [L _].
  eapply Qlt_le_trans; [apply (pow2_pos (binade x))|exact L].
Qed.

Lemma fl_cases x :
  (x == 0 /\ fl x == 0) \/ (0 < x /\ fl x == fl_pos x) \/ (x < 0 /\ fl x == - fl_pos (- x)).
Proof.
  unfold fl. rewrite Qred_correct.
  destruct (Qcompare_spec x 0) as [H|H|H]; [left|right; right|right; left];
    split; auto; reflexivity.
Qed.

Lemma fl_mono x y : x <= y -> fl x <= fl y.
Proof.
  intros Hxy.
  destruct (fl_cases x) as [[Hx Ex]|[[Hx Ex]|[Hx Ex]]];
  destruct (fl_cases y) as [[Hy Ey]|[[Hy Ey]|[Hy Ey]]];
  rewrite Ex, Ey; try (exfalso; lra).
  - apply Qle_refl.
  - apply Qlt_le_weak, fl_pos_pos, Hy.
  - now apply fl_pos_mono.
  - assert (0 < fl_pos (- x)) by (apply fl_pos_pos; lra). lra.
  - assert (0 < fl_pos (- x)) by (apply fl_pos_pos; lra).
    assert (0 < fl_pos y) by (apply fl_pos_pos; lra). lra.
  - assert (fl_pos (- y) <= fl_pos (- x)) by (apply fl_pos_mono; lra). lra.
Qed.

Lemma fl_compat x y : x == y -> fl x == fl y.
Proof. intros E. apply Qle_antisym; apply fl_mono; rewrite E; apply Qle_refl. Qed.

Lemma fl_nonneg x : 0 <= x -> 0 <= fl x.
Proof. intros H. apply fl_mono in H. exact H. Qed.

Lemma Math_round_mono x y : x <= y -> (Math_round x <= Math_round y)%Z.
Proof. intros H. apply Qfloor_resp_le. lra. Qed.

Lemma Math_round_Z (z : Z) : Math_round (inject_Z z) = z.
Proof.
  unfold Math_round.
  pose proof (Qfloor_le (inject_Z z + (1 # 2))) as H1.
  pose proof (Qlt_floor (inject_Z z + (1 # 2))) as H2.
  assert (L1 : inject_Z (Qfloor (inject_Z z + (1 # 2))) < inject_Z (z + 1)).
  { rewrite (inject_Z_plus z 1). change (inject_Z 1) with 1. lra. }
  assert (L2 : inject_Z z < inject_Z (Qfloor (inject_Z z + (1 # 2)) + 1)) by lra.
  rewrite <- Zlt_Qlt in L1, L2. lia.
Qed.

(** [fl] and the primitive floats of the kernel compute the same doubles. *)
Lemma fl_agrees_with_primitive_floats :
  quotients_agree = true /\ weighted_sums_agree = true.
Proof. split; vm_compute; reflexivity. Qed.

End Rounding.

(* ================================================================== *)
(** * Texts and substrings *)
(* ================================================================== *)

Lemma chars_append (a b : string) : chars (a +:+ b) = chars a ++ chars b.
Proof. induction a as [|c a IH]; simpl; [reflexivity|]. now rewrite <- IH. Qed.

Lemma chars_of_list (l : list ascii) : chars (string_of_list_ascii l) = l.
Proof. apply list_ascii_of_string_of_list_ascii. Qed.

Lemma of_list_chars (s : string) : string_of_list_ascii (chars s) = s.
Proof. apply string_of_list_ascii_of_string. Qed.

Lemma starts_with_spec (sub s : list ascii) :
  starts_with sub s = true <-> exists post, s = sub ++ post.
Proof.
  revert s. induction sub as [|a sub IH]; intros s; simpl.
  - split; [intros _; now exists s | reflexivity].
  - destruct s as [|b s].
    + split; [discriminate | intros [post H]; discriminate].
    + rewrite andb_true_iff, IH. split.
      * intros [E [post ->]]. apply Ascii.eqb_eq in E. subst. now exists post.
      * intros [post H]. injection H as -> ->. split; [apply Ascii.eqb_refl | now exists post].
Qed.

Lemma includes_chars_spec (s sub : list ascii) :
  includes_chars s sub = true <-> exists pre post, s = pre ++ sub ++ post.
Proof.
  induction s as [|c s IH]; simpl; rewrite orb_true_iff, starts_with_spec.
  - split.
    + intros [[post H]|H]; [|discriminate]. now exists [], post.
    + intros [pre [post H]]. left. destruct pre; [now exists post | discriminate].
  - rewrite IH. split.
    + intros [[post H]|[pre [post H]]].
      * now exists [], post.
      * exists (c :: pre), post. simpl. now rewrite H.
    + intros [[|c' pre] [post H]].
      * left. now exists post.
      * right. injection H as -> ->. now exists pre, post.
Qed.

Lemma includes_contains (s sub : string) : includes s sub = true <-> contains s sub.
Proof.
  unfold includes, contains. rewrite includes_chars_spec. split.
  - intros [pre [post H]].
    exists (string_of_list_ascii pre), (string_of_list_ascii post).
    rewrite <- (of_list_chars s), H.
    rewrite <- (of_list_chars (_ +:+ _)).
    now rewrite !chars_append, !chars_of_list.
  - intros [pre [post ->]]. exists (chars pre), (chars post).
    now rewrite !chars_append.
Qed.

(* ================================================================== *)
(** * The security scan *)
(* ================================================================== *)

(** C9.  For every text that contains [.innerHTML], however often, the
    security scan returns exactly one issue of the XSS category, of severity
    High; and the other checks are independent of it: the SQL injection
    issue is in the result exactly when its own condition holds, and so is
    the open redirect issue. *)
Theorem C9_innerHTML_one_high_xss_issue (code : string) :
  contains code ".innerHTML" ->
  List.filter is_xss (getSecurityIssues code) = [xss_issue]
  /\ issue_severity xss_issue = "High"
  /\ (In sql_issue (getSecurityIssues code) <->
      contains code "+" /\ (contains code "SELECT" \/ contains code "INSERT"))
  /\ (In redirect_issue (getSecurityIssues code) <->
      contains code "window.location" \/ contains code "redirect(").
Proof.
  intros Hhtml. apply includes_contains in Hhtml.
  unfold getSecurityIssues. rewrite Hhtml. cbn [orb].
  rewrite <- !includes_contains.
  destruct (includes code "+"), (includes code "SELECT"), (includes code "INSERT"),
    (includes code "window.location"), (includes code "redirect(");
    cbn; (split; [reflexivity|]); (split; [reflexivity|]);
    split; split; intros H; try (now left); try (now right);
    try (now intuition discriminate); intuition (try discriminate; auto).
Qed.

(** A text with two occurrences. *)
Lemma C9_witness :
  List.filter is_xss (getSecurityIssues "a.innerHTML = b.innerHTML") = [xss_issue]
  /\ issue_severity xss_issue = "High"
  /\ (In sql_issue (getSecurityIssues "a.innerHTML = b.innerHTML") <->
      contains "a.innerHTML = b.innerHTML" "+"
      /\ (contains "a.innerHTML = b.innerHTML" "SELECT"
          \/ contains "a.innerHTML = b.innerHTML" "INSERT"))
  /\ (In redirect_issue (getSecurityIssues "a.innerHTML = b.innerHTML") <->
      contains "a.innerHTML = b.innerHTML" "window.location"
      \/ contains "a.innerHTML = b.innerHTML" "redirect(").
Proof.
  apply (C9_innerHTML_one_high_xss_issue "a.innerHTML = b.innerHTML").
  exists "a", " = b.innerHTML". reflexivity.
Defined.

(* ================================================================== *)
(** * The quality scorer on the empty text, and on what is no text *)
(* ================================================================== *)

(** C3, as the code has it.  The quality scorer applied to the empty string
    does not raise; it returns the score 65, with one line of code, the
    complexity 10, the duplication 0 and the readability 80. *)
Theorem C3_empty_text_scores_65 :
  getCodeQualityScore (JString EmptyString) =
  Normal {| score := 65;
            metrics := Some {| linesOfCode := 1; complexity := 10;
                               duplication := 0; readability := 80 |} |}.
Proof. vm_compute. reflexivity. Qed.

(** The score of the empty string is not 0. *)
Lemma C3_empty_text_score_is_not_zero :
  ~ (exists r, getCodeQualityScore (JString EmptyString) = Normal r /\ score r = 0).
Proof.
  intros [r [H Hz]]. vm_compute in H. injection H as <-. discriminate Hz.
Qed.

(** C10.  The quality scorer never hands an exception to its caller: for
    every input it returns a result object; when the body of its [try]
    block throws, that object is the fallback [{score: 0, metrics: {}}];
    and on a string the body does not throw at all. *)
Theorem C10_quality_scorer_never_throws (code : jsval) :
  (exists r, getCodeQualityScore code = Normal r)
  /\ (forall e, quality_body code = Throw e ->
      getCodeQualityScore code = Normal quality_fallback)
  /\ (forall s, code = JString s ->
      exists r, quality_body code = Normal r /\ getCodeQualityScore code = Normal r).
Proof.
  unfold getCodeQualityScore, try_catch. repeat split.
  - destruct (quality_body code); eauto.
  - intros e ->. reflexivity.
  - intros s ->. eexists. split; reflexivity.
Qed.

(** A number has no [split]: the body throws and the fallback comes back. *)
Lemma C10_witness :
  quality_body (JNumber 3) = Throw (TypeError "split is not a function")
  /\ getCodeQualityScore (JNumber 3) = Normal quality_fallback.
Proof.
  split; [reflexivity|].
  apply (proj1 (proj2 (C10_quality_scorer_never_throws (JNumber 3)))
           (TypeError "split is not a function")).
  reflexivity.
Defined.

(* ================================================================== *)
(** * The report summary *)
(* ================================================================== *)

Lemma length_format_or_empty (l : option (list issue)) :
  length (format_or_empty l) = match l with Some issues => length issues | None => 0%nat end.
Proof. destruct l; simpl; [|reflexivity]. unfold formatIssuesWithSeverity. apply length_map. Qed.

(** What the summary counts: the security issues, the dependency issues and
    the bugs. *)
Lemma review_report_totalIssues (now : clock) (rd : review_data) :
  totalIssues (summary (review_report now rd)) =
  (length (rd_securityIssues rd) + length (rd_dependencyIssues rd)
   + length (format_or_empty (ai_bugs (rd_aiReview rd))))%nat.
Proof. cbn. now rewrite length_format_or_empty. Qed.

(** What the details hold: these, and the performance and refactor lists. *)
Lemma review_report_detail_issue_count (now : clock) (rd : review_data) :
  detail_issue_count (review_report now rd) =
  (totalIssues (summary (review_report now rd))
   + length (format_or_empty (ai_performance (rd_aiReview rd)))
   + length (format_or_empty (ai_refactor (rd_aiReview rd))))%nat.
Proof.
  rewrite review_report_totalIssues. unfold detail_issue_count. cbn.
  unfold formatIssuesWithSeverity. rewrite !length_map. lia.
Qed.

Section Breakdown.
Local Open Scope nat_scope.

Lemma length_filter_cons {A : Type} (f : A -> bool) (x : A) (l : list A) :
  length (List.filter f (x :: l)) = (if f x then 1 else 0) + length (List.filter f l).
Proof. cbn [List.filter]. now destruct (f x). Qed.

Lemma known_severity_once (i : formatted_issue) :
  (if has_severity "High" i then 1 else 0) + (if has_severity "Medium" i then 1 else 0)
  + (if has_severity "Low" i then 1 else 0) = (if known_severity i then 1 else 0).
Proof.
  unfold known_severity, has_severity.
  destruct (String.eqb_spec (issue_severity (fi_issue i)) "High") as [->|N1];
    [reflexivity|].
  destruct (String.eqb_spec (issue_severity (fi_issue i)) "Medium") as [->|N2];
    [reflexivity|].
  now destruct (String.eqb (issue_severity (fi_issue i)) "Low").
Qed.

Lemma matching_known (l : list formatted_issue) :
  matching "High" l + matching "Medium" l + matching "Low" l =
  length (List.filter known_severity l).
Proof.
  unfold matching. induction l as [|i l IH]; [reflexivity|].
  rewrite !length_filter_cons, <- known_severity_once, <- IH. lia.
Qed.

(** The breakdown counts, over all five partitions, the issues whose
    severity is exactly High, Medium or Low. *)
Lemma breakdown_total_counts_known (now : clock) (rd : review_data) :
  breakdown_total (review_report now rd) =
  length (List.filter known_severity (formatIssuesWithSeverity (rd_securityIssues rd)))
  + length (List.filter known_severity (formatIssuesWithSeverity (rd_dependencyIssues rd)))
  + length (List.filter known_severity (format_or_empty (ai_bugs (rd_aiReview rd))))
  + length (List.filter known_severity (format_or_empty (ai_performance (rd_aiReview rd))))
  + length (List.filter known_severity (format_or_empty (ai_refactor (rd_aiReview rd)))).
Proof.
  rewrite <- !matching_known. unfold breakdown_total, review_report.
  cbn [summary severityBreakdown high medium low createStructuredOutput].
  unfold countIssuesBySeverity.
  cbn [structureCodeReviewOutput an_security an_dependencies an_aiAnalysis
       aa_bugs aa_performance aa_refactor].
  lia.
Qed.

End Breakdown.

(** C1, at an input where the code departs from it.  For the analysis
    result whose only finding is one performance suggestion of severity Low,
    the report says [totalIssues = 0], while its details hold one issue and
    its severity breakdown adds up to one. *)
Theorem C1_performance_issue_not_in_total (now : clock) :
  totalIssues (summary (review_report now performance_only)) = 0%nat
  /\ detail_issue_count (review_report now performance_only) = 1%nat
  /\ breakdown_total (review_report now performance_only) = 1%nat.
Proof. repeat split. Qed.

(* ================================================================== *)
(** * The common issues of a team *)
(* ================================================================== *)

Section Frequencies.
Local Open Scope nat_scope.

Lemma count_of_increment (k key : string) (m : list (string * nat)) :
  count_of key (increment k m) =
  (if String.eqb k key then 1 else 0) + count_of key m.
Proof.
  unfold count_of. induction m as [|[k' n] m IH]; cbn.
  - now destruct (String.eqb k key).
  - destruct (String.eqb_spec k' k) as [->|N]; cbn.
    + now destruct (String.eqb k key).
    + destruct (String.eqb_spec k' key) as [->|N'].
      * destruct (String.eqb_spec k key) as [->|_]; [congruence|reflexivity].
      * exact IH.
Qed.

Lemma keys_increment (k : string) (m : list (string * nat)) :
  List.NoDup (map fst m) ->
  List.NoDup (map fst (increment k m))
  /\ forall key, In key (map fst (increment k m)) <-> key = k \/ In key (map fst m).
Proof.
  induction m as [|[k' n] m IH]; intros Hnd; cbn.
  - split; [repeat constructor; intros []|]. intros key. intuition.
  - inversion Hnd as [|? ? Hnotin Hnd']; subst.
    destruct (IH Hnd') as [IH1 IH2].
    destruct (String.eqb_spec k' k) as [->|N]; cbn.
    + split; [exact Hnd|]. intros key. intuition.
    + split.
      * constructor; [|exact IH1]. rewrite IH2. intros [E|Hin]; [congruence|].
        now apply Hnotin.
      * intros key. rewrite IH2. intuition.
Qed.

Lemma positive_count_of (m : list (string * nat)) :
  Forall (fun p => 0 < snd p) m ->
  forall key, In key (map fst m) <-> 0 < count_of key m.
Proof.
  unfold count_of. induction m as [|[k n] m IH]; intros Hpos key; cbn.
  - split; [intros []|lia].
  - inversion Hpos as [|? ? Hn Hm]; subst. cbn in Hn.
    destruct (String.eqb_spec k key) as [->|N]; cbn.
    + split; [intros _; exact Hn|now left].
    + rewrite <- (IH Hm key). intuition congruence.
Qed.

Lemma positive_increment (k : string) (m : list (string * nat)) :
  Forall (fun p => 0 < snd p) m -> Forall (fun p => 0 < snd p) (increment k m).
Proof.
  induction m as [|[k' n] m IH]; intros H; cbn.
  - repeat constructor.
  - inversion H as [|? ? Hn Hm]; subst.
    destruct (String.eqb k' k); constructor; cbn in *; auto; lia.
Qed.

(** The table after the issues of a list of developers: no key twice, every
    count positive, and the count of a type grown by its occurrences. *)
Lemma count_issue_types_invariant (developers : list developer) :
  forall m : list (string * nat),
    List.NoDup (map fst m) -> Forall (fun p => 0 < snd p) m ->
    let m' :=
      fold_left
        (fun issueFrequency dev =>
           fold_left (fun issueFrequency issue => increment (issue_key issue) issueFrequency)
                     (dev_issues dev) issueFrequency)
        developers m in
    List.NoDup (map fst m') /\ Forall (fun p => 0 < snd p) m'
    /\ forall type, count_of type m' = count_of type m + occurrences type developers.
Proof.
  assert (Inner : forall (issues : list review_issue) (m : list (string * nat)),
    List.NoDup (map fst m) -> Forall (fun p => 0 < snd p) m ->
    let m' := fold_left (fun issueFrequency issue =>
                           increment (issue_key issue) issueFrequency) issues m in
    List.NoDup (map fst m') /\ Forall (fun p => 0 < snd p) m'
    /\ forall type, count_of type m' =
         count_of type m
         + length (List.filter (fun issue => String.eqb (issue_key issue) type) issues)).
  { induction issues as [|i issues IH]; intros m Hnd Hpos; cbn zeta; cbn [fold_left].
    - split; [exact Hnd|split; [exact Hpos|]]. intros type. cbn. lia.
    - destruct (IH (increment (issue_key i) m)) as [H1 [H2 H3]].
      + now apply keys_increment.
      + now apply positive_increment.
      + split; [exact H1|split; [exact H2|]].
        intros type. rewrite H3, count_of_increment. cbn.
        destruct (String.eqb (issue_key i) type); cbn; lia. }
  induction developers as [|dev developers IH]; intros m Hnd Hpos; cbn zeta; cbn [fold_left].
  - split; [exact Hnd|split; [exact Hpos|]]. intros type. unfold occurrences. cbn. lia.
  - destruct (Inner (dev_issues dev) m Hnd Hpos) as [H1 [H2 H3]].
    destruct (IH _ H1 H2) as [G1 [G2 G3]].
    split; [exact G1|split; [exact G2|]].
    intros type. rewrite G3, H3.
    change (occurrences type (dev :: developers))
      with (length (List.filter (fun issue => String.eqb (issue_key issue) type)
                                (dev_issues dev))
            + occurrences type developers).
    lia.
Qed.

Lemma in_table_count_of (m : list (string * nat)) (key : string) (n : nat) :
  List.NoDup (map fst m) -> In (key, n) m -> count_of key m = n.
Proof.
  unfold count_of. induction m as [|[k c] m IH]; intros Hnd Hin; [destruct Hin|].
  inversion Hnd as [|? ? Hnotin Hnd']; subst. cbn.
  destruct Hin as [E|Hin].
  - injection E as -> ->. now rewrite String.eqb_refl.
  - destruct (String.eqb_spec k key) as [->|N].
    + exfalso. apply Hnotin. now apply (in_map fst) in Hin.
    + now apply IH.
Qed.

Lemma in_push_if {A : Type} (cond : bool) (x y : A) (l : list A) :
  In y (push_if cond x l) <-> In y l \/ (cond = true /\ x = y).
Proof.
  unfold push_if. destruct cond.
  - rewrite in_app_iff. cbn [In]. intuition discriminate.
  - intuition discriminate.
Qed.

Lemma in_insert_by_frequency (x y : common_issue) (l : list common_issue) :
  In y (insert_by_frequency x l) <-> x = y \/ In y l.
Proof.
  induction l as [|z l IH]; cbn [insert_by_frequency]; [reflexivity|].
  destruct (frequency x <? frequency z); cbn [In]; [rewrite IH; tauto|reflexivity].
Qed.

Lemma in_sort_by_frequency (y : common_issue) (l : list common_issue) :
  In y (sort_by_frequency l) <-> In y l.
Proof.
  induction l as [|x l IH]; cbn [sort_by_frequency fold_right]; [reflexivity|].
  fold (sort_by_frequency l). now rewrite in_insert_by_frequency, IH.
Qed.

Lemma in_selected (developerCount : nat) (threshold : Z) (m : list (string * nat))
    (acc : list common_issue) (y : common_issue) :
  In y (fold_left
          (fun commonIssues '(type, count) =>
             push_if (threshold <=? Z.of_nat count)%Z
               {| common_type := type;
                  frequency := count;
                  percentage :=
                    Math_round (jsmul (jsdiv (num count) (num developerCount)) 100) |}
               commonIssues) m acc)
  <-> In y acc
      \/ exists type count,
           In (type, count) m /\ (threshold <= Z.of_nat count)%Z
           /\ y = {| common_type := type;
                     frequency := count;
                     percentage :=
                       Math_round (jsmul (jsdiv (num count) (num developerCount)) 100) |}.
Proof.
  revert acc. induction m as [|[k c] m IH]; intros acc; cbn [fold_left].
  - split; [now left|]. intros [H|(t & n & [] & _)]. exact H.
  - rewrite IH, in_push_if. split.
    + intros [[H|[Hb E]]|(t & n & Hin & Hle & E)].
      * now left.
      * right. exists k, c. split; [now left|]. split; [now apply Z.leb_le|now symmetry].
      * right. exists t, n. split; [now right|]. now split.
    + intros [H|(t & n & [E|Hin] & Hle & E')].
      * left. now left.
      * injection E as -> ->. left. right. split; [now apply Z.leb_le|now symmetry].
      * right. exists t, n. now repeat split.
Qed.

Lemma insert_by_frequency_sorted (x : common_issue) (l : list common_issue) :
  Sorted (fun a b => frequency b <= frequency a) l ->
  Sorted (fun a b => frequency b <= frequency a) (insert_by_frequency x l).
Proof.
  induction l as [|y l IH]; intros Hs; cbn [insert_by_frequency].
  - repeat constructor.
  - destruct (Nat.ltb_spec (frequency x) (frequency y)) as [L|L].
    + inversion Hs as [|? ? Hs' Hhd]; subst. constructor; [now apply IH|].
      destruct l as [|z l]; cbn [insert_by_frequency].
      * constructor. lia.
      * destruct (frequency x <? frequency z); constructor; [|lia].
        now inversion Hhd.
    + constructor; [exact Hs|]. now constructor.
Qed.

Lemma sort_by_frequency_sorted (l : list common_issue) :
  Sorted (fun a b => frequency b <= frequency a) (sort_by_frequency l).
Proof.
  induction l as [|x l IH]; [constructor|]. now apply insert_by_frequency_sorted.
Qed.

(** What [findCommonIssues] reports: the frequency of a reported type is the
    number of its occurrences over all issue lists, and the reported types
    are the ones that occur at least [threshold] times (and at all). *)
Lemma findCommonIssues_counts_occurrences (developers : list developer)
    (y : common_issue) :
  In y (findCommonIssues developers) <->
  (0 < frequency y
   /\ frequency y = occurrences (common_type y) developers
   /\ (common_threshold (length developers) <= Z.of_nat (frequency y))%Z
   /\ percentage y =
      Math_round (jsmul (jsdiv (num (frequency y)) (num (length developers))) 100)).
Proof.
  unfold findCommonIssues. rewrite in_sort_by_frequency, in_selected.
  destruct (count_issue_types_invariant developers [] (List.NoDup_nil _) (List.Forall_nil _))
    as [Hnd [Hpos Hcount]].
  fold (count_issue_types developers) in Hnd, Hpos, Hcount.
  split.
  - intros [[]|[type [count [Hin [Hle ->]]]]]. cbn.
    pose proof (in_table_count_of _ _ _ Hnd Hin) as E.
    rewrite Hcount in E. cbn in E.
    rewrite List.Forall_forall in Hpos. specialize (Hpos _ Hin). cbn in Hpos.
    repeat split; auto.
  - intros [Hp [Hf [Hle Hperc]]]. right.
    exists (common_type y), (frequency y). repeat split; auto.
    + assert (Hk : In (common_type y) (map fst (count_issue_types developers))).
      { apply (positive_count_of _ Hpos). rewrite Hcount. cbn. lia. }
      apply in_map_iff in Hk as [[k c] [Ek Hin]]. cbn in Ek. subst k.
      pose proof (in_table_count_of _ _ _ Hnd Hin) as E.
      rewrite Hcount in E. cbn in E. rewrite <- Hf in E. now subst c.
    + destruct y as [t f p]. cbn in *. now rewrite Hperc.
Qed.

End Frequencies.

(** C2, at an input where the code departs from it.  Of ten developers one
    has three issues of the same type and nobody else has any: the type is
    in the issue list of one author, below the threshold of three, and yet
    it is reported as common, with the frequency three. *)
Theorem C2_frequency_is_occurrence_count :
  length (extractDevelopers one_author_three_times) = 10%nat
  /\ common_threshold 10 = 3
  /\ authors_with "unusedVariable" (extractDevelopers one_author_three_times) = 1%nat
  /\ findCommonIssues (extractDevelopers one_author_three_times) =
     [{| common_type := "unusedVariable"; frequency := 3; percentage := 30 |}].
Proof. vm_compute. repeat split. Qed.

(* ================================================================== *)
(** * The performance gain *)
(* ================================================================== *)

Lemma fl_zero (x : Q) : (x == 0)%Q -> (fl x == 0)%Q.
Proof. intros H. rewrite (fl_compat x 0 H). reflexivity. Qed.

Lemma Math_round_zero (x : Q) : (x == 0)%Q -> Math_round x = 0.
Proof. intros H. unfold Math_round. rewrite H. reflexivity. Qed.

Lemma calculatePerformanceGain_nonneg (original optimized : performance_metrics) :
  (0 <= calculatePerformanceGain original optimized)%Q.
Proof.
  unfold calculatePerformanceGain.
  destruct (Qeq_bool _ _); [apply Qle_refl|]. apply Q.le_max_l.
Qed.

Lemma calculatePerformanceGain_same (m : performance_metrics) :
  calculatePerformanceGain m m = 0%Q.
Proof.
  unfold calculatePerformanceGain.
  destruct (Qeq_bool _ _); [reflexivity|].
  set (c := complexityScore m).
  assert (E1 : (jssub c c == 0)%Q) by (apply fl_zero; ring).
  assert (E2 : (jsdiv (jssub c c) c == 0)%Q).
  { apply fl_zero. unfold Qdiv. rewrite E1. ring. }
  assert (E3 : (jsmul (jsdiv (jssub c c) c) 100 == 0)%Q).
  { apply fl_zero. rewrite E2. ring. }
  assert (E4 : (jsmul (jsmul (jsdiv (jssub c c) c) 100) 100 == 0)%Q).
  { apply fl_zero. rewrite E3. ring. }
  rewrite (Math_round_zero _ E4). reflexivity.
Qed.

(** C5.  For every pair of texts the estimator returns a comparison whose
    gain is not negative; the gain is 0 whenever the complexity score of the
    text before is 0; and it is 0 when the two texts are the same. *)
Theorem C5_performance_gain (beforeText afterText : string) :
  exists r,
    estimatePerformanceImpact beforeText afterText = Normal r
    /\ before r = analyzeCodeForPerformance beforeText
    /\ after r = analyzeCodeForPerformance afterText
    /\ (0 <= estimatedPerformanceGain r)%Q
    /\ ((complexityScore (before r) == 0)%Q -> estimatedPerformanceGain r = 0%Q)
    /\ (beforeText = afterText -> estimatedPerformanceGain r = 0%Q).
Proof.
  eexists. split; [reflexivity|]. cbn [before after estimatedPerformanceGain].
  repeat split.
  - apply calculatePerformanceGain_nonneg.
  - intros H. unfold calculatePerformanceGain.
    apply Qeq_bool_iff in H. now rewrite H.
  - intros ->. apply calculatePerformanceGain_same.
Qed.

(** A text without loops, calls, braces or brackets, compared with itself. *)
Lemma C5_witness :
  (complexityScore (analyzeCodeForPerformance "x = 1;") == 0)%Q
  /\ exists r,
    estimatePerformanceImpact "x = 1;" "x = 1;" = Normal r
    /\ estimatedPerformanceGain r = 0%Q /\ estimatedPerformanceGain r = 0%Q.
Proof.
  split; [reflexivity|].
  destruct (C5_performance_gain "x = 1;" "x = 1;") as [r [H1 [H2 [H3 [H4 [H5 H6]]]]]].
  exists r. split; [exact H1|]. split.
  - apply H5. rewrite H2. reflexivity.
  - apply H6. reflexivity.
Defined.

(* ================================================================== *)
(** * The bounded history of a team *)
(* ================================================================== *)

Section History.
Local Open Scope nat_scope.

Lemma slice_last_short {A : Type} (n : nat) (l : list A) :
  length l <= n -> slice_last n l = l.
Proof. intros H. unfold slice_last. now replace (length l - n) with 0 by lia. Qed.

Lemma length_slice_last {A : Type} (n : nat) (l : list A) :
  length (slice_last n l) <= n.
Proof. unfold slice_last. rewrite length_drop. lia. Qed.

Lemma slice_last_snoc {A : Type} (n : nat) (l : list A) (x : A) :
  slice_last (S n) (slice_last (S n) l ++ [x]) = slice_last (S n) (l ++ [x]).
Proof.
  destruct (Nat.le_gt_cases (length l) (S n)) as [H|H].
  - now rewrite (slice_last_short (S n) l H).
  - unfold slice_last. rewrite !length_app, length_drop. cbn [length].
    replace (length l - (length l - S n) + 1 - S n) with 1 by lia.
    replace (length l + 1 - S n) with ((length l - S n) + 1) by lia.
    rewrite <- drop_drop.
    f_equal. rewrite drop_app_le; [reflexivity|lia].
Qed.

Lemma slice_last_push {A : Type} (h : list A) (x : A) :
  length h <= 10 ->
  slice_last 10 (h ++ [x]) = (if length h <? 10 then h else tail h) ++ [x].
Proof.
  intros H. destruct (Nat.ltb_spec (length h) 10) as [L|L].
  - apply slice_last_short. rewrite length_app. cbn. lia.
  - unfold slice_last. rewrite length_app. cbn [length].
    replace (length h + 1 - 10) with 1 by lia.
    destruct h; [cbn in L; lia|reflexivity].
Qed.

Lemma history_after_store (now : string) (ins : insights)
    (st : gmap string (list history_entry)) (team : string) :
  getTeamInsightsHistory team (storeTeamInsights now ins st) =
  if String.eqb (teamId ins) team
  then slice_last 10 (getTeamInsightsHistory team st
                      ++ [{| timestamp := now; entry_insights := ins |}])
  else getTeamInsightsHistory team st.
Proof.
  unfold storeTeamInsights, getTeamInsightsHistory.
  set (e := {| timestamp := now; entry_insights := ins |}).
  destruct (String.eqb_spec (teamId ins) team) as [->|N].
  - destruct (st !! team) as [h|] eqn:E.
    + rewrite E. change (default [] (Some h)) with h.
      destruct (Nat.ltb_spec 10 (length (h ++ [e]))) as [L|L];
        rewrite lookup_insert_eq; [reflexivity|].
      symmetry. now apply slice_last_short.
    + rewrite !lookup_insert_eq. change (default [] (Some [])) with (@nil history_entry).
      change (10 <? length ([] ++ [e])) with false. cbn iota.
      now rewrite lookup_insert_eq.
  - destruct (st !! teamId ins) as [h|] eqn:E.
    + destruct (10 <? length _); now rewrite !lookup_insert_ne.
    + destruct (10 <? length _); now rewrite !lookup_insert_ne.
Qed.

Lemma store_all_snoc (l : list (string * insights)) (now : string) (ins : insights) :
  store_all (l ++ [(now, ins)]) = storeTeamInsights now ins (store_all l).
Proof. unfold store_all. now rewrite fold_left_app. Qed.

Lemma inserted_for_snoc (team : string) (l : list (string * insights))
    (now : string) (ins : insights) :
  inserted_for team (l ++ [(now, ins)]) =
  inserted_for team l
  ++ (if String.eqb (teamId ins) team
      then [{| timestamp := now; entry_insights := ins |}] else []).
Proof.
  unfold inserted_for. rewrite List.filter_app, map_app. cbn.
  now destruct (String.eqb (teamId ins) team).
Qed.

Lemma history_is_last_ten (insertions : list (string * insights)) (team : string) :
  getTeamInsightsHistory team (store_all insertions) =
  slice_last 10 (inserted_for team insertions).
Proof.
  induction insertions as [|[now ins] l IH] using rev_ind.
  - reflexivity.
  - rewrite store_all_snoc, inserted_for_snoc, history_after_store, IH.
    destruct (String.eqb (teamId ins) team).
    + apply slice_last_snoc.
    + now rewrite app_nil_r.
Qed.

(** C4.  After any run of insertions the history of every team has at most
    ten entries: it is the last ten of the entries inserted for that team,
    in the order of their insertion.  One more insertion appends its entry,
    after dropping the oldest entry when the history was full. *)
Theorem C4_team_history_bounded_fifo (insertions : list (string * insights)) (team : string) :
  let storage := store_all insertions in
  length (getTeamInsightsHistory team storage) <= 10
  /\ getTeamInsightsHistory team storage = slice_last 10 (inserted_for team insertions)
  /\ forall (now : string) (ins : insights),
       let history := getTeamInsightsHistory (teamId ins) storage in
       getTeamInsightsHistory (teamId ins) (storeTeamInsights now ins storage) =
       (if length history <? 10 then history else tail history)
       ++ [{| timestamp := now; entry_insights := ins |}].
Proof.
  cbn zeta. split; [|split].
  - rewrite history_is_last_ten. apply length_slice_last.
  - apply history_is_last_ten.
  - intros now ins. rewrite history_after_store, String.eqb_refl.
    apply slice_last_push. rewrite history_is_last_ten. apply length_slice_last.
Qed.
End History.

(* ================================================================== *)
(** * The complexity metric counts whole words *)
(* ================================================================== *)

Section WholeWords.
Local Open Scope nat_scope.

Lemma rmatch_lit (w : list ascii) (prev : option ascii) (s : list ascii)
    (k : option ascii -> list ascii -> option (list ascii)) :
  rmatch (RLit w) prev s k =
  if starts_with w s then k (last_unit w prev) (drop (length w) s) else None.
Proof.
  revert prev s. induction w as [|c w IH]; intros prev s; [reflexivity|].
  destruct s as [|x s]; [reflexivity|].
  cbn [RLit rmatch starts_with]. rewrite Ascii.eqb_sym.
  destruct (Ascii.eqb_spec c x) as [->|N]; [|reflexivity].
  rewrite IH. reflexivity.
Qed.

Lemma last_unit_word (w : list ascii) (prev : option ascii) :
  w <> [] -> forallb is_word w = true -> is_word_opt (last_unit w prev) = true.
Proof.
  revert prev. induction w as [|c w IH]; intros prev Hne Hw; [congruence|].
  cbn in Hw. apply andb_true_iff in Hw as [Hc Hw].
  destruct w as [|c' w]; [exact Hc|].
  apply (IH (Some c)); [discriminate|exact Hw].
Qed.

Lemma starts_with_head_word (w s : list ascii) :
  w <> [] -> forallb is_word w = true -> starts_with w s = true ->
  is_word_opt (head s) = true.
Proof.
  intros Hne Hw H. destruct w as [|c w]; [congruence|].
  destruct s as [|x s]; [discriminate|].
  cbn in H, Hw. apply andb_true_iff in H as [E _]. apply andb_true_iff in Hw as [Hc _].
  apply Ascii.eqb_eq in E. subst. exact Hc.
Qed.

Lemma match_here_keyword (w : list ascii) (prev : option ascii) (s : list ascii) :
  w <> [] -> forallb is_word w = true ->
  match_here (RSeq RWordB (RSeq (RLit w) RWordB)) prev s =
  if whole_word_here w prev s then Some (drop (length w) s) else None.
Proof.
  intros Hne Hw. unfold match_here, whole_word_here. cbn [rmatch].
  destruct (starts_with w s) eqn:E.
  - rewrite (starts_with_head_word w s Hne Hw E), xorb_true_r.
    destruct (negb (is_word_opt prev)); [|reflexivity].
    rewrite rmatch_lit, E, (last_unit_word w prev Hne Hw), xorb_true_l.
    reflexivity.
  - rewrite andb_false_r. cbn [andb].
    destruct (xorb _ _); [|reflexivity]. now rewrite rmatch_lit, E.
Qed.

Lemma starts_with_length (w s : list ascii) :
  starts_with w s = true -> length w <= length s.
Proof.
  revert s. induction w as [|c w IH]; intros s H; cbn; [lia|].
  destruct s as [|x s]; [discriminate|].
  cbn in H. apply andb_true_iff in H as [_ H]. apply IH in H. cbn. lia.
Qed.

Lemma starts_with_take_word (w s : list ascii) :
  forallb is_word w = true -> starts_with w s = true ->
  forallb is_word (take (length w) s) = true.
Proof.
  revert s. induction w as [|c w IH]; intros s Hw H; [reflexivity|].
  destruct s as [|x s]; [discriminate|].
  cbn in H, Hw. apply andb_true_iff in H as [E H]. apply andb_true_iff in Hw as [Hc Hw].
  apply Ascii.eqb_eq in E. subst. cbn. rewrite Hc. now apply IH.
Qed.

(** Inside a word no whole word starts. *)
Lemma whole_word_here_after_word (w : list ascii) (prev : option ascii) (s : list ascii) :
  is_word_opt prev = true -> whole_word_here w prev s = false.
Proof. intros H. unfold whole_word_here. now rewrite H. Qed.

Lemma count_matches_keyword (w : list ascii) :
  w <> [] -> forallb is_word w = true ->
  forall (s : list ascii) (prev : option ascii) (skip : nat),
    skip <= length s ->
    (skip <> 0 -> is_word_opt prev = true) ->
    forallb is_word (take skip s) = true ->
    count_matches_from (RSeq RWordB (RSeq (RLit w) RWordB)) prev s skip =
    whole_word_occurrences_from w prev s.
Proof.
  intros Hne Hw. induction s as [|c s IH]; intros prev skip Hlen Hprev Htake.
  - cbn in Hlen. assert (skip = 0) as -> by lia.
    cbn [count_matches_from whole_word_occurrences_from].
    rewrite (match_here_keyword w prev [] Hne Hw).
    now destruct (whole_word_here w prev []).
  - cbn [count_matches_from whole_word_occurrences_from].
    destruct skip as [|n].
    + rewrite (match_here_keyword w prev (c :: s) Hne Hw).
      destruct (whole_word_here w prev (c :: s)) eqn:E.
      * unfold whole_word_here in E. apply andb_true_iff in E as [E _].
        apply andb_true_iff in E as [_ E].
        pose proof (starts_with_length _ _ E) as L.
        pose proof (starts_with_take_word _ _ Hw E) as T.
        rewrite length_drop.
        replace (length (c :: s) - (length (c :: s) - length w)) with (length w) by lia.
        destruct w as [|a w]; [congruence|].
        cbn [length pred] in *. cbn [take forallb] in T.
        apply andb_true_iff in T as [Hc T].
        cbn. f_equal. apply IH; [lia|intros _; exact Hc|exact T].
      * cbn. apply IH; [lia|congruence|reflexivity].
    + rewrite whole_word_here_after_word by (apply Hprev; discriminate).
      cbn [take forallb] in Htake. apply andb_true_iff in Htake as [Hc Htake].
      cbn in Hlen. cbn. apply IH; [lia|intros _; exact Hc|exact Htake].
Qed.

Lemma count_matches_keyword_regex (keyword code : string) :
  chars keyword <> [] -> forallb is_word (chars keyword) = true ->
  count_matches (keyword_regex keyword) code = whole_word_occurrences keyword code.
Proof.
  intros Hne Hw. unfold count_matches, keyword_regex, RStr, whole_word_occurrences.
  apply (count_matches_keyword _ Hne Hw); [lia|congruence|reflexivity].
Qed.

End WholeWords.

(** C7.  The complexity of a text is the minimum of 100 and ten times one
    plus the number of whole-word occurrences of the keywords if, for,
    while, case and catch; for the text [function f(){ if(a){} if(b){} }]
    it is 30. *)
Theorem C7_complexity_counts_whole_words (code : string) :
  calculateComplexity code =
  Z.min ((1 + Z.of_nat (list_sum (map (fun keyword => whole_word_occurrences keyword code)
                                      controlFlowKeywords))) * 10) 100
  /\ calculateComplexity "function f(){ if(a){} if(b){} }" = 30.
Proof.
  split; [|vm_compute; reflexivity].
  unfold calculateComplexity, controlFlowKeywords. cbn [fold_left map list_sum fold_right].
  rewrite !count_matches_keyword_regex by (try discriminate; reflexivity).
  f_equal. lia.
Qed.

(* ================================================================== *)
(** * The bounds of the quality metrics *)
(* ================================================================== *)

Lemma split_lines_nonempty (s : string) : (1 <= length (split_lines s))%nat.
Proof.
  induction s as [|c s IH]; cbn; [lia|].
  destruct (Ascii.eqb c newline); cbn; [lia|].
  destruct (split_lines s); cbn in *; lia.
Qed.

Lemma size_list_to_set_le (l : list string) :
  (size (list_to_set l : gset string) <= length l)%nat.
Proof.
  induction l as [|x l IH]; cbn [length].
  - rewrite list_to_set_nil, size_empty. lia.
  - rewrite list_to_set_cons, size_union_alt, size_singleton.
    assert (Hsub : (list_to_set l ∖ {[x]} : gset string) ⊆ list_to_set l).
    { intros y Hy. apply elem_of_difference in Hy. tauto. }
    apply subseteq_size in Hsub. lia.
Qed.

Section Bounds.
Local Open Scope Q_scope.

Lemma fl_upper (x c : Q) : x <= c -> fl c == c -> fl x <= c.
Proof. intros H E. rewrite <- E. now apply fl_mono. Qed.

Lemma Math_round_bounds (y : Q) (n : Z) :
  0 <= y -> y <= inject_Z n -> (0 <= Math_round y <= n)%Z.
Proof.
  intros H0 Hn. split.
  - change 0%Z with (Math_round 0). now apply Math_round_mono.
  - rewrite <- (Math_round_Z n). now apply Math_round_mono.
Qed.

Lemma num_nonneg (n : nat) : 0 <= num n.
Proof. unfold num. change 0 with (inject_Z 0). rewrite <- Zle_Qle. lia. Qed.

Lemma num_le (n m : nat) : (n <= m)%nat -> num n <= num m.
Proof. intros H. unfold num. rewrite <- Zle_Qle. lia. Qed.

Lemma num_pos (n : nat) : (1 <= n)%nat -> 0 < num n.
Proof. intros H. unfold num. change 0 with (inject_Z 0). rewrite <- Zlt_Qlt. lia. Qed.

Lemma jsdiv_nonneg (x y : Q) : 0 <= x -> 0 < y -> 0 <= jsdiv x y.
Proof.
  intros Hx Hy. apply fl_nonneg. apply Qle_shift_div_l; [exact Hy|]. lra.
Qed.

Lemma calculateDuplication_bounds (code : string) :
  (0 <= calculateDuplication code <= 100)%Z.
Proof.
  unfold calculateDuplication.
  set (lines := split_lines code). set (uniq := size (list_to_set lines : gset string)).
  pose proof (split_lines_nonempty code) as Hl. fold lines in Hl.
  pose proof (size_list_to_set_le lines) as Hu. fold uniq in Hu.
  pose proof (num_pos _ Hl) as Hp. pose proof (num_le _ _ Hu) as Hle.
  pose proof (num_nonneg uniq) as Hn.
  assert (R0 : 0 <= jsdiv (num (length lines) - num uniq) (num (length lines))).
  { apply jsdiv_nonneg; [lra|exact Hp]. }
  assert (R1 : jsdiv (num (length lines) - num uniq) (num (length lines)) <= 1).
  { apply fl_upper; [|reflexivity]. apply Qle_shift_div_r; [exact Hp|]. lra. }
  apply (Math_round_bounds _ 100).
  - apply fl_nonneg. lra.
  - apply fl_upper; [|reflexivity]. change (inject_Z 100) with 100. lra.
Qed.

Lemma calculateReadability_bounds (code : string) :
  (0 <= calculateReadability code <= 100)%Z.
Proof.
  unfold calculateReadability.
  set (avg := jsdiv _ _).
  assert (Havg : 0 <= avg).
  { apply jsdiv_nonneg; [apply num_nonneg|apply num_pos, split_lines_nonempty]. }
  assert (Hmin : 0 <= Math_min avg 100 /\ Math_min avg 100 <= 100).
  { unfold Math_min. split; [apply Q.min_glb; [exact Havg|discriminate]|apply Q.le_min_r]. }
  assert (Hrs : jssub 100 (Math_min avg 100) <= 100).
  { apply fl_upper; [lra|reflexivity]. }
  split; [lia|]. apply Z.max_lub; [|lia].
  destruct (Qlt_le_dec avg 10).
  - apply Qfloor_resp_le with (y := 100 + (1 # 2)).
    assert (jssub (jssub 100 (Math_min avg 100)) 20 <= 100)
      by (apply fl_upper; [lra|reflexivity]).
    lra.
  - apply Qfloor_resp_le with (y := 100 + (1 # 2)). lra.
Qed.

Lemma calculateComplexity_bounds (code : string) :
  (10 <= calculateComplexity code <= 100)%Z.
Proof.
  unfold calculateComplexity.
  assert (H : forall (l : list string) (a : Z), (1 <= a)%Z ->
            (1 <= fold_left (fun complexity keyword =>
                    complexity + Z.of_nat (count_matches (keyword_regex keyword) code))%Z
                  l a)%Z).
  { induction l as [|k l IH]; intros a Ha; cbn; [exact Ha|]. apply IH. lia. }
  specialize (H controlFlowKeywords 1%Z ltac:(lia)). lia.
Qed.

Lemma weighted_score_bounds (r c d : Z) :
  (0 <= r <= 100)%Z -> (0 <= c <= 100)%Z -> (0 <= d <= 100)%Z ->
  (0 <= weighted_score r c d <= 100)%Z.
Proof.
  intros Hr Hc Hd. unfold weighted_score, weighted_sum.
  assert (Qr : 0 <= inject_Z r /\ inject_Z r <= 100).
  { change 0 with (inject_Z 0). change 100 with (inject_Z 100). rewrite <- !Zle_Qle. lia. }
  assert (Qc : 0 <= inject_Z c /\ inject_Z c <= 100).
  { change 0 with (inject_Z 0). change 100 with (inject_Z 100). rewrite <- !Zle_Qle. lia. }
  assert (Qd : 0 <= inject_Z d /\ inject_Z d <= 100).
  { change 0 with (inject_Z 0). change 100 with (inject_Z 100). rewrite <- !Zle_Qle. lia. }
  set (d04 := lit (4 # 10)). set (d03 := lit (3 # 10)).
  assert (P4 : 0 < d04) by reflexivity. assert (P3 : 0 < d03) by reflexivity.
  assert (T1 : 0 <= jsmul (inject_Z r) d04 /\ jsmul (inject_Z r) d04 <= 40).
  { split; [apply fl_nonneg; nra|].
    apply Qle_trans with (fl (100 * d04)); [apply fl_mono; nra|]. vm_compute. discriminate. }
  assert (T2 : 0 <= jsmul (inject_Z c) d03 /\ jsmul (inject_Z c) d03 <= 30).
  { split; [apply fl_nonneg; nra|].
    apply Qle_trans with (fl (100 * d03)); [apply fl_mono; nra|]. vm_compute. discriminate. }
  assert (S1 : 0 <= jssub 100 (inject_Z d) /\ jssub 100 (inject_Z d) <= 100).
  { split; [apply fl_nonneg; lra|apply fl_upper; [lra|reflexivity]]. }
  assert (T3 : 0 <= jsmul (jssub 100 (inject_Z d)) d03
               /\ jsmul (jssub 100 (inject_Z d)) d03 <= 30).
  { split; [apply fl_nonneg; nra|].
    apply Qle_trans with (fl (100 * d03)); [apply fl_mono; nra|]. vm_compute. discriminate. }
  assert (A1 : 0 <= jsadd (jsmul (inject_Z r) d04) (jsmul (inject_Z c) d03)
               /\ jsadd (jsmul (inject_Z r) d04) (jsmul (inject_Z c) d03) <= 70).
  { split; [apply fl_nonneg; lra|apply fl_upper; [lra|reflexivity]]. }
  apply (Math_round_bounds _ 100).
  - apply fl_nonneg. lra.
  - apply fl_upper; [|reflexivity]. change (inject_Z 100) with 100. lra.
Qed.

End Bounds.

(** C6, as the code has it.  For every text the score is [Math.round] of
    the weighted sum of the returned readability, complexity and
    duplication, each product and sum rounded as a double, and it lies in
    [0,100]; the complexity lies in [10,100], the duplication and the
    readability in [0,100]; the number of lines is at least 1 (and has no
    upper bound). *)
Theorem C6_quality_score_and_metric_bounds (code : string) :
  let m := {| linesOfCode := Z.of_nat (length (split_lines code));
              complexity := calculateComplexity code;
              duplication := calculateDuplication code;
              readability := calculateReadability code |} in
  getCodeQualityScore (JString code) =
  Normal {| score := weighted_score (readability m) (complexity m) (duplication m);
            metrics := Some m |}
  /\ 0 <= weighted_score (readability m) (complexity m) (duplication m) <= 100
  /\ 10 <= complexity m <= 100
  /\ 0 <= duplication m <= 100
  /\ 0 <= readability m <= 100
  /\ 1 <= linesOfCode m.
Proof.
  cbn zeta. split; [reflexivity|].
  cbn [readability complexity duplication linesOfCode].
  pose proof (calculateComplexity_bounds code).
  pose proof (calculateDuplication_bounds code).
  pose proof (calculateReadability_bounds code).
  pose proof (split_lines_nonempty code).
  repeat split; try lia; apply weighted_score_bounds; lia.
Qed.

(** A text of 100 newlines has 101 lines, and [linesOfCode] is one of the
    returned metrics. *)
Lemma C6_lines_of_code_above_100 :
  exists r m, getCodeQualityScore (JString hundred_newlines) = Normal r
              /\ metrics r = Some m /\ 100 < linesOfCode m.
Proof.
  eexists.
  eexists {| linesOfCode := 101; complexity := 10; duplication := 99; readability := 79 |}.
  split; [vm_compute; reflexivity|]. split; [reflexivity|]. cbn. lia.
Qed.

(** The rounding of the doubles shows in the score.  For eight lines of 98
    units, one of them a copy (readability 1, complexity 10, duplication
    13), the weighted sum is 29.5 over the rationals, which rounds to 30; in
    doubles [87 * 0.3] is [26.099999999999998] and the sum is
    [29.499999999999996], which rounds to the score 29. *)
Lemma score_of_tie_text :
  getCodeQualityScore (JString tie_text) =
  Normal {| score := 29;
            metrics := Some {| linesOfCode := 8; complexity := 10;
                               duplication := 13; readability := 1 |} |}
  /\ exact_weighted_score 1 10 13 = 30.
Proof. split; vm_compute; reflexivity. Qed.

(* ================================================================== *)
(** * A language without a catalog entry *)
(* ================================================================== *)

Lemma own_property_absent {A : Type} (table : list (string * A)) (key : string) :
  ~ In key (map fst table) -> own_property table key = None.
Proof.
  induction table as [|[k a] table IH]; intros H; [reflexivity|].
  cbn in *. destruct (String.eqb_spec k key) as [->|N]; [tauto|]. apply IH. tauto.
Qed.

Lemma not_in_by_eqb (key : string) (keys : list string) :
  forallb (fun k => negb (String.eqb key k)) keys = true -> ~ In key keys.
Proof.
  intros H Hin. rewrite forallb_forall in H. specialize (H key Hin).
  now rewrite String.eqb_refl in H.
Qed.

Lemma not_inherited (key : string) :
  ~ In key object_prototype_keys -> existsb (String.eqb key) object_prototype_keys = false.
Proof.
  intros H. destruct (existsb _ _) eqn:E; [|reflexivity].
  apply existsb_exists in E as [k [Hin Hk]]. apply String.eqb_eq in Hk. now subst.
Qed.

(** C8, as the code has it.  For a language that has no catalog entry (and
    is not a name every object inherits), the custom style rules fall back
    to the javascript catalog and apply its rules to the text, while the
    language pattern detector has no fallback and returns no issue. *)
Theorem C8_unknown_language (code language : string) :
  ~ In language object_prototype_keys ->
  (~ In language (map fst languageRules) ->
   analyzeLanguageSpecific code language = Normal [])
  /\ (~ In language (map fst style_rules) ->
      checkCustomStyleRules code (Some language) =
      Normal (apply_style_rules javascript_style_rules code)
      /\ checkCustomStyleRules code (Some language) =
         checkCustomStyleRules code (Some "javascript")).
Proof.
  intros Hp. split.
  - intros Hl. unfold analyzeLanguageSpecific, get_property.
    now rewrite (own_property_absent _ _ Hl), (not_inherited _ Hp).
  - intros Hs.
    assert (Hstyle : checkCustomStyleRules code (Some language) =
                     Normal (apply_style_rules javascript_style_rules code)).
    { unfold checkCustomStyleRules, get_property.
      change (default "javascript" (Some language)) with language.
      now rewrite (own_property_absent _ _ Hs), (not_inherited _ Hp). }
    split; [exact Hstyle|rewrite Hstyle; reflexivity].
Qed.

(** [ruby] has no entry in either catalog. *)
Lemma C8_witness :
  analyzeLanguageSpecific "var x = 1;" "ruby" = Normal []
  /\ checkCustomStyleRules "var x = 1;" (Some "ruby") =
     Normal (apply_style_rules javascript_style_rules "var x = 1;")
  /\ checkCustomStyleRules "var x = 1;" (Some "ruby") =
     checkCustomStyleRules "var x = 1;" (Some "javascript").
Proof.
  assert (Hp : ~ In "ruby" object_prototype_keys) by (apply not_in_by_eqb; reflexivity).
  destruct (C8_unknown_language "var x = 1;" "ruby" Hp) as [Hl Hs].
  split.
  - apply Hl. apply not_in_by_eqb. reflexivity.
  - apply Hs. apply not_in_by_eqb. reflexivity.
Defined.

(** The text has a match in every language catalog, and still the detector
    returns nothing for a language without an entry. *)
Lemma C8_language_analyzer_has_no_fallback :
  analyzeLanguageSpecific polyglot_text "ruby" = Normal []
  /\ forall language, In language (map fst languageRules) ->
       analyzeLanguageSpecific polyglot_text language <> Normal [].
Proof.
  split; [reflexivity|].
  intros language [<-|[<-|[<-|[<-|[]]]]]; vm_compute; discriminate.
Qed.

(* ================================================================== *)
(** * The range of the quality score *)
(* ================================================================== *)

Section QualityRange.
Local Open Scope Q_scope.

Lemma inject_Z_bounds (z a b : Z) :
  (a <= z <= b)%Z -> inject_Z a <= inject_Z z /\ inject_Z z <= inject_Z b.
Proof. intros [H1 H2]. now rewrite <- !Zle_Qle. Qed.

Lemma calculateReadability_at_most_90 (code : string) : (calculateReadability code <= 90)%Z.
Proof.
  unfold calculateReadability.
  set (avg := jsdiv _ _).
  assert (Havg : 0 <= avg).
  { apply jsdiv_nonneg; [apply num_nonneg|apply num_pos, split_lines_nonempty]. }
  assert (Hmin : 0 <= Math_min avg 100).
  { unfold Math_min. apply Q.min_glb; [exact Havg|discriminate]. }
  apply Z.max_lub; [|lia].
  destruct (Qlt_le_dec avg 10) as [L|L].
  - assert (H1 : jssub 100 (Math_min avg 100) <= 100) by (apply fl_upper; [lra|reflexivity]).
    assert (H2 : jssub (jssub 100 (Math_min avg 100)) 20 <= 80)
      by (apply fl_upper; [lra|reflexivity]).
    apply Z.le_trans with 80%Z; [|lia].
    rewrite <- (Math_round_Z 80). now apply Math_round_mono.
  - assert (Hm : 10 <= Math_min avg 100).
    { unfold Math_min. apply Q.min_glb; [exact L|discriminate]. }
    assert (H1 : jssub 100 (Math_min avg 100) <= 90) by (apply fl_upper; [lra|reflexivity]).
    rewrite <- (Math_round_Z 90). now apply Math_round_mono.
Qed.

Lemma weighted_score_range (r c d : Z) :
  (0 <= r <= 90)%Z -> (10 <= c <= 100)%Z -> (0 <= d <= 100)%Z ->
  (3 <= weighted_score r c d <= 96)%Z.
Proof.
  intros Hr Hc Hd. unfold weighted_score, weighted_sum.
  destruct (inject_Z_bounds _ _ _ Hr) as [Qr0 Qr1].
  destruct (inject_Z_bounds _ _ _ Hc) as [Qc0 Qc1].
  destruct (inject_Z_bounds _ _ _ Hd) as [Qd0 Qd1].
  change (inject_Z 0) with 0 in *. change (inject_Z 90) with 90 in *.
  change (inject_Z 10) with 10 in *. change (inject_Z 100) with 100 in *.
  set (d04 := lit (4 # 10)). set (d03 := lit (3 # 10)).
  assert (P4 : 0 < d04) by reflexivity. assert (P3 : 0 < d03) by reflexivity.
  assert (T1 : 0 <= jsmul (inject_Z r) d04 /\ jsmul (inject_Z r) d04 <= 36).
  { split; [apply fl_nonneg; nra|].
    apply Qle_trans with (fl (90 * d04)); [apply fl_mono; nra|]. vm_compute. discriminate. }
  assert (T2 : 3 <= jsmul (inject_Z c) d03 /\ jsmul (inject_Z c) d03 <= 30).
  { split.
    - apply Qle_trans with (fl (10 * d03)); [vm_compute; discriminate|apply fl_mono; nra].
    - apply Qle_trans with (fl (100 * d03)); [apply fl_mono; nra|]. vm_compute. discriminate. }
  assert (S1 : 0 <= jssub 100 (inject_Z d) /\ jssub 100 (inject_Z d) <= 100).
  { split; [apply fl_nonneg; lra|apply fl_upper; [lra|reflexivity]]. }
  assert (T3 : 0 <= jsmul (jssub 100 (inject_Z d)) d03
               /\ jsmul (jssub 100 (inject_Z d)) d03 <= 30).
  { split; [apply fl_nonneg; nra|].
    apply Qle_trans with (fl (100 * d03)); [apply fl_mono; nra|]. vm_compute. discriminate. }
  assert (A1 : 3 <= jsadd (jsmul (inject_Z r) d04) (jsmul (inject_Z c) d03)
               /\ jsadd (jsmul (inject_Z r) d04) (jsmul (inject_Z c) d03) <= 66).
  { split.
    - apply Qle_trans with (fl 3); [vm_compute; discriminate|apply fl_mono; lra].
    - apply fl_upper; [lra|reflexivity]. }
  split.
  - rewrite <- (Math_round_Z 3). apply Math_round_mono.
    apply Qle_trans with (fl 3); [vm_compute; discriminate|apply fl_mono; lra].
  - rewrite <- (Math_round_Z 96). apply Math_round_mono.
    apply fl_upper; [|reflexivity]. change (inject_Z 96) with 96. lra.
Qed.

End QualityRange.

(** X1.  For every text the quality scorer returns, and its score lies
    between 3 and 96: the readability is at most 90 and the complexity at
    least 10, so that neither 0 nor 100 is the score of a text. *)
Theorem X1_quality_score_between_3_and_96 (code : string) :
  exists r, getCodeQualityScore (JString code) = Normal r /\ 3 <= score r <= 96.
Proof.
  eexists. split; [reflexivity|]. cbn [score].
  pose proof (calculateComplexity_bounds code).
  pose proof (calculateDuplication_bounds code).
  pose proof (calculateReadability_bounds code).
  pose proof (calculateReadability_at_most_90 code).
  apply weighted_score_range; lia.
Qed.

(* ================================================================== *)
(** * Duplication, readability and the security scan *)
(* ================================================================== *)

(** X2.  A text whose lines are all distinct has the duplication 0. *)
Theorem X2_distinct_lines_have_no_duplication (code : string) :
  List.NoDup (split_lines code) -> calculateDuplication code = 0.
Proof.
  intros H. apply NoDup_ListNoDup in H.
  unfold calculateDuplication.
  rewrite (size_list_to_set (C := gset string) _ H).
  assert (E : (jsmul (jsdiv (num (length (split_lines code)) - num (length (split_lines code)))
                       (num (length (split_lines code)))) 100 == 0)%Q).
  { apply fl_zero.
    assert (E1 : (jsdiv (num (length (split_lines code)) - num (length (split_lines code)))
                    (num (length (split_lines code))) == 0)%Q).
    { apply fl_zero. unfold Qdiv. ring. }
    rewrite E1. ring. }
  now apply Math_round_zero.
Qed.

Lemma X2_witness :
  calculateDuplication "let a = 1;" = 0.
Proof.
  apply X2_distinct_lines_have_no_duplication. cbn. repeat constructor. intros [].
Defined.

(** X3.  A text with 100 code units or more for each of its lines, on
    average, has the readability 0. *)
Theorem X3_long_lines_are_unreadable (code : string) :
  (100 * length (split_lines code) <= String.length code)%nat ->
  calculateReadability code = 0.
Proof.
  intros H. unfold calculateReadability.
  set (avg := jsdiv _ _).
  assert (Havg : (100 <= avg)%Q).
  { change 100%Q with (fl 100). apply fl_mono.
    apply Qle_shift_div_l; [apply num_pos, split_lines_nonempty|].
    unfold num. change 100%Q with (inject_Z 100). rewrite <- inject_Z_mult, <- Zle_Qle. lia. }
  assert (Hmin : (Math_min avg 100 == 100)%Q) by (apply Q.min_r; exact Havg).
  destruct (Qlt_le_dec avg 10) as [L|L]; [exfalso; lra|].
  assert (E : (jssub 100 (Math_min avg 100) == 0)%Q) by (apply fl_zero; rewrite Hmin; ring).
  now rewrite (Math_round_zero _ E).
Qed.

Lemma X3_witness :
  calculateReadability (string_of_list_ascii (repeat "x"%char 100)) = 0.
Proof. apply X3_long_lines_are_unreadable. vm_compute. lia. Defined.

Section Security.

Lemma contains_trans (big code sub : string) :
  contains big code -> contains code sub -> contains big sub.
Proof.
  rewrite <- !includes_contains. unfold includes. rewrite !includes_chars_spec.
  intros [p [q ->]] [p' [q' ->]]. exists (p ++ p'), (q' ++ q).
  now rewrite <- !app_assoc.
Qed.

Lemma includes_mono (big code sub : string) :
  contains big code -> includes code sub = true -> includes big sub = true.
Proof.
  intros H1 H2. apply includes_contains. apply (contains_trans big code sub H1).
  now apply includes_contains.
Qed.

(** X4.  The scans are monotone: an issue reported for a text is reported
    for every text that contains it. *)
Theorem X4_security_issues_grow_with_the_text (big code : string) (i : issue) :
  contains big code ->
  (In i (getSecurityIssues code) -> In i (getSecurityIssues big))
  /\ (In i (checkDependencies code) -> In i (checkDependencies big)).
Proof.
  intros Hc. split.
  - unfold getSecurityIssues. rewrite !in_push_if. cbn [In].
    rewrite !orb_true_iff, !andb_true_iff, !orb_true_iff.
    pose proof (includes_mono big code) as M.
    intuition auto.
  - unfold checkDependencies. rewrite !in_push_if. cbn [In].
    pose proof (includes_mono big code) as M. intuition auto.
Qed.

Lemma X4_witness :
  In xss_issue (getSecurityIssues "if (ok) { x = eval(s); }").
Proof.
  apply (X4_security_issues_grow_with_the_text "if (ok) { x = eval(s); }" "eval(" xss_issue).
  - exists "if (ok) { x = ", "s); }". reflexivity.
  - cbn. now left.
Defined.

(** X5.  The security issues of a text are a sublist of the XSS, the SQL
    injection and the redirect issue, in this order: each at most once. *)
Theorem X5_security_issues_in_fixed_order (code : string) :
  sublist (getSecurityIssues code) [xss_issue; sql_issue; redirect_issue].
Proof.
  unfold getSecurityIssues, push_if.
  destruct (_ || _), (_ && _), (_ || _); cbn [app]; repeat constructor.
Qed.

End Security.

(* ================================================================== *)
(** * Numbers that are doubles *)
(* ================================================================== *)

Section Representable.
Local Open Scope Q_scope.

Lemma rne_compat (x y : Q) : x == y -> rne x = rne y.
Proof.
  intros E. apply Z.le_antisymm; apply rne_mono; rewrite E; apply Qle_refl.
Qed.

Lemma binade_compat (x y : Q) : 0 < x -> x == y -> binade x = binade y.
Proof.
  intros Hx E. assert (Hy : 0 < y) by now rewrite <- E.
  destruct (binade_spec y Hy) as [B1 B2].
  apply binade_unique; now rewrite E.
Qed.

Lemma fl_pos_compat_eq (x y : Q) : 0 < x -> x == y -> fl_pos x == fl_pos y.
Proof.
  intros Hx E. assert (Hy : 0 < y) by now rewrite <- E.
  apply Qle_antisym; apply fl_pos_mono; auto; rewrite E; apply Qle_refl.
Qed.

(** A positive number with at most 53 significant bits is a double. *)
Lemma fl_pos_representable (m k : Z) :
  (0 < m < 2 ^ 53)%Z -> fl_pos (inject_Z m * 2 ^ k) == inject_Z m * 2 ^ k.
Proof.
  intros Hm. set (x := inject_Z m * 2 ^ k).
  assert (Hm0 : 0 < inject_Z m) by (change 0 with (inject_Z 0); rewrite <- Zlt_Qlt; lia).
  assert (Hx : 0 < x).
  { unfold x. apply Qmult_lt_0_compat; [exact Hm0|apply pow2_pos]. }
  destruct (binade_spec x Hx) as [B1 B2].
  set (e := binade x) in *.
  assert (He : (e < 53 + k)%Z).
  { apply Qpower_lt_compat_l_inv with (q := 2); [|reflexivity].
    eapply Qle_lt_trans; [exact B1|]. unfold x.
    rewrite Qpower_plus by discriminate.
    apply Qmult_lt_compat_r; [apply pow2_pos|].
    rewrite <- pow2_Z by lia. rewrite <- Zlt_Qlt. lia. }
  assert (Hscaled : x / ulp x == inject_Z (m * 2 ^ (k - e + 52))).
  { unfold ulp. fold e. rewrite inject_Z_mult, pow2_Z by lia. unfold x.
    assert (P : 2 ^ (k - e + 52) * 2 ^ (e - 52) == 2 ^ k).
    { rewrite <- Qpower_plus by discriminate. now replace (k - e + 52 + (e - 52))%Z with k by ring. }
    apply Qeq_sym. apply Qmult_inj_r with (z := 2 ^ (e - 52)).
    - apply Qnot_eq_sym, Qlt_not_eq, pow2_pos.
    - unfold Qdiv. rewrite <- !Qmult_assoc, P.
      rewrite (Qmult_comm (/ _)), Qmult_inv_r; [ring|].
      apply Qnot_eq_sym, Qlt_not_eq, pow2_pos. }
  unfold fl_pos. rewrite (rne_compat _ _ Hscaled), rne_Z.
  unfold ulp. fold e. rewrite inject_Z_mult, pow2_Z by lia.
  rewrite <- Qmult_assoc, <- Qpower_plus by discriminate.
  now replace (k - e + 52 + (e - 52))%Z with k by ring.
Qed.

(** An integer or a half-integer below 2^52 is a double. *)
Lemma fl_half_integer (n : Z) : (0 <= n < 2 ^ 53)%Z -> fl (n # 2) == n # 2.
Proof.
  intros Hn. destruct (Z.eq_dec n 0%Z) as [->|N]; [reflexivity|].
  assert (E : n # 2 == inject_Z n * 2 ^ (-1)).
  { rewrite (Qmake_Qdiv n 2). reflexivity. }
  rewrite (fl_compat _ _ E), E.
  destruct (fl_cases (inject_Z n * 2 ^ (-1))) as [[H _]|[[H ->]|[H _]]].
  - exfalso. assert (0 < inject_Z n) by (change 0 with (inject_Z 0); rewrite <- Zlt_Qlt; lia).
    change (2 ^ (-1)) with (1 # 2) in H. lra.
  - apply fl_pos_representable. lia.
  - exfalso. assert (0 < inject_Z n) by (change 0 with (inject_Z 0); rewrite <- Zlt_Qlt; lia).
    change (2 ^ (-1)) with (1 # 2) in H. lra.
Qed.

Lemma fl_integer (n : Z) : (0 <= n < 2 ^ 52)%Z -> fl (inject_Z n) == inject_Z n.
Proof.
  intros Hn.
  assert (E : inject_Z n == (2 * n) # 2).
  { unfold Qeq. cbn. lia. }
  rewrite (fl_compat _ _ E), (fl_half_integer (2 * n)) by lia. now symmetry.
Qed.

(** Rounding twice is rounding once. *)
Lemma fl_idempotent (x : Q) : fl (fl x) == fl x.
Proof.
  assert (P : forall y, 0 < y -> fl (fl_pos y) == fl_pos y).
  { intros y Hy.
    destruct (scaled_bounds y Hy) as [S1 S2].
    apply rne_mono in S1. apply rne_mono in S2. rewrite rne_Z in S1, S2.
    pose proof (fl_pos_pos y Hy) as Hp.
    destruct (fl_cases (fl_pos y)) as [[H _]|[[_ ->]|[H _]]]; [lra| |lra].
    unfold fl_pos at 2 3. unfold ulp.
    destruct (Z.eq_dec (rne (y / ulp y)) (2 ^ 53)%Z) as [E|N].
    - unfold ulp in E. rewrite E.
      assert (E2 : inject_Z (2 ^ 53) * 2 ^ (binade y - 52) == inject_Z 1 * 2 ^ (binade y + 1)).
      { rewrite pow2_Z by lia. rewrite <- Qpower_plus by discriminate.
        replace (53 + (binade y - 52))%Z with (binade y + 1)%Z by ring.
        change (inject_Z 1) with 1. ring. }
      assert (Hpos : 0 < inject_Z (2 ^ 53) * 2 ^ (binade y - 52)).
      { apply Qmult_lt_0_compat; [reflexivity|apply pow2_pos]. }
      rewrite (fl_pos_compat_eq _ _ Hpos E2) at 1.
      rewrite E2. apply fl_pos_representable. lia.
    - apply fl_pos_representable. unfold ulp in S1, S2, N. lia. }
  destruct (fl_cases x) as [[_ E]|[[H E]|[H E]]]; rewrite (fl_compat _ _ E), E.
  - reflexivity.
  - now apply P.
  - assert (Hn : 0 < - x) by lra.
    pose proof (fl_pos_pos _ Hn) as Hp. specialize (P _ Hn).
    destruct (fl_cases (- fl_pos (- x))) as [[H1 _]|[[H1 _]|[_ ->]]]; [lra|lra|].
    destruct (fl_cases (fl_pos (- x))) as [[H1 _]|[[_ E4]|[H1 _]]]; [lra| |lra].
    rewrite E4 in P.
    assert (E3 : - - fl_pos (- x) == fl_pos (- x)) by ring.
    assert (Hpos : 0 < - - fl_pos (- x)) by lra.
    rewrite (fl_pos_compat_eq _ _ Hpos E3). now rewrite P.
Qed.

End Representable.

(* ================================================================== *)
(** * The performance estimate *)
(* ================================================================== *)

Section Performance.

Lemma count_matches_from_le (r : regex) (s : list ascii) :
  forall prev skip, (count_matches_from r prev s skip <= length s + 1)%nat.
Proof.
  induction s as [|c s IH]; intros prev skip; cbn [count_matches_from length].
  - destruct skip, (match_here r prev []); cbn; lia.
  - destruct skip as [|n]; [|specialize (IH (Some c) n); lia].
    destruct (match_here r prev (c :: s)).
    + match goal with
      | |- context [count_matches_from r (Some c) s ?k] => specialize (IH (Some c) k)
      end. lia.
    + specialize (IH (Some c) 0%nat). lia.
Qed.

Lemma count_matches_le (r : regex) (code : string) :
  (count_matches r code <= String.length code + 1)%nat.
Proof.
  unfold count_matches.
  replace (String.length code) with (length (chars code)); [apply count_matches_from_le|].
  unfold chars. induction code; cbn; congruence.
Qed.

Lemma length_chars (code : string) : length (chars code) = String.length code.
Proof. unfold chars. induction code; cbn; congruence. Qed.

Lemma estimateNestedDepth_fold (code : string) :
  estimateNestedDepth code = fst (fold_left depth_step (chars code) (0, 0)%nat).
Proof. reflexivity. Qed.

Lemma depth_fold_bound (s : list ascii) :
  forall m c : nat,
    (fst (fold_left depth_step s (m, c))
     <= Nat.max m (c + length (List.filter (fun x => Ascii.eqb x "{") s)))%nat
    /\ (m <= fst (fold_left depth_step s (m, c)))%nat.
Proof.
  induction s as [|x s IH]; intros m c; cbn [fold_left List.filter length].
  - cbn. lia.
  - unfold depth_step at 2 4.
    destruct (Ascii.eqb x "{") eqn:E1.
    + destruct (IH (Nat.max m (S c)) (S c)) as [H1 H2]. cbn [length]. lia.
    + destruct (Ascii.eqb x "}") eqn:E2.
      * destruct (IH m (Nat.max 0 (c - 1))) as [H1 H2]. lia.
      * destruct (IH m c) as [H1 H2]. lia.
Qed.

Lemma estimateNestedDepth_le_braces (code : string) :
  (estimateNestedDepth code <= opening_braces code)%nat.
Proof.
  rewrite estimateNestedDepth_fold.
  destruct (depth_fold_bound (chars code) 0 0) as [H _].
  unfold opening_braces. cbn in H. lia.
Qed.

Lemma complexityScore_nonneg (code : string) :
  (0 <= complexityScore (analyzeCodeForPerformance code))%Q.
Proof.
  cbn [complexityScore analyzeCodeForPerformance]. unfold calculateComplexityScore.
  assert (H : forall n q, (0 <= q)%Q -> (0 <= jsmul (num n) q)%Q).
  { intros n q Hq. apply fl_nonneg. pose proof (num_nonneg n). nra. }
  assert (Hhalf : (0 <= lit (1 # 2))%Q) by discriminate.
  apply fl_nonneg.
  assert (A := H (count_matches loop_pattern code) 10%Q ltac:(discriminate)).
  assert (B := H (count_matches call_pattern code) 2%Q ltac:(discriminate)).
  assert (C := H (estimateNestedDepth code) 15%Q ltac:(discriminate)).
  assert (D := H (estimateMemoryUsage code) _ Hhalf).
  assert (E : (0 <= jsadd (jsmul (num (count_matches loop_pattern code)) 10)
                          (jsmul (num (count_matches call_pattern code)) 2))%Q)
    by (apply fl_nonneg; lra).
  assert (F : (0 <= jsadd (jsadd (jsmul (num (count_matches loop_pattern code)) 10)
                                 (jsmul (num (count_matches call_pattern code)) 2))
                          (jsmul (num (estimateNestedDepth code)) 15))%Q)
    by (apply fl_nonneg; lra).
  lra.
Qed.

Lemma complexityScore_is_double (code : string) :
  (fl (complexityScore (analyzeCodeForPerformance code))
   == complexityScore (analyzeCodeForPerformance code))%Q.
Proof.
  cbn [complexityScore analyzeCodeForPerformance]. unfold calculateComplexityScore.
  unfold jsadd at 1. apply fl_idempotent.
Qed.

Lemma gain_at_most_100 (original optimized : performance_metrics) :
  (0 <= complexityScore original)%Q ->
  (fl (complexityScore original) == complexityScore original)%Q ->
  (0 <= complexityScore optimized)%Q ->
  (calculatePerformanceGain original optimized <= 100)%Q.
Proof.
  intros Ha Hfl Hb. unfold calculatePerformanceGain.
  destruct (Qeq_bool (complexityScore original) 0) eqn:E; [discriminate|].
  set (a := complexityScore original) in *. set (b := complexityScore optimized) in *.
  assert (Hpos : (0 < a)%Q).
  { apply Qle_lteq in Ha as [L|Z]; [exact L|].
    symmetry in Z. apply Qeq_bool_iff in Z. congruence. }
  assert (H1 : (jssub a b <= a)%Q).
  { apply Qle_trans with (fl a); [apply fl_mono; lra|]. rewrite Hfl. apply Qle_refl. }
  assert (H2 : (jsdiv (jssub a b) a <= 1)%Q).
  { apply fl_upper; [|reflexivity]. apply Qle_shift_div_r; [exact Hpos|]. lra. }
  assert (H3 : (jsmul (jsdiv (jssub a b) a) 100 <= 100)%Q).
  { apply fl_upper; [lra|reflexivity]. }
  assert (H4 : (jsmul (jsmul (jsdiv (jssub a b) a) 100) 100 <= 10000)%Q).
  { apply fl_upper; [lra|reflexivity]. }
  assert (H5 : (Math_round (jsmul (jsmul (jsdiv (jssub a b) a) 100) 100) <= 10000)%Z).
  { rewrite <- (Math_round_Z 10000). now apply Math_round_mono. }
  apply Q.max_lub; [discriminate|].
  apply fl_upper; [|reflexivity].
  apply Qle_shift_div_r; [reflexivity|].
  change (100 * 100)%Q with (inject_Z 10000). now rewrite <- Zle_Qle.
Qed.

Lemma gain_zero_without_improvement (original optimized : performance_metrics) :
  (0 <= complexityScore original)%Q ->
  (complexityScore original <= complexityScore optimized)%Q ->
  (calculatePerformanceGain original optimized == 0)%Q.
Proof.
  intros Ha Hle. unfold calculatePerformanceGain.
  destruct (Qeq_bool (complexityScore original) 0) eqn:E; [reflexivity|].
  set (a := complexityScore original) in *. set (b := complexityScore optimized) in *.
  assert (Hpos : (0 < a)%Q).
  { apply Qle_lteq in Ha as [L|Z]; [exact L|].
    symmetry in Z. apply Qeq_bool_iff in Z. congruence. }
  assert (H1 : (jssub a b <= 0)%Q) by (apply fl_upper; [lra|reflexivity]).
  assert (H2 : (jsdiv (jssub a b) a <= 0)%Q).
  { apply fl_upper; [|reflexivity]. apply Qle_shift_div_r; [exact Hpos|]. lra. }
  assert (H3 : (jsmul (jsdiv (jssub a b) a) 100 <= 0)%Q).
  { apply fl_upper; [lra|reflexivity]. }
  assert (H4 : (jsmul (jsmul (jsdiv (jssub a b) a) 100) 100 <= 0)%Q).
  { apply fl_upper; [lra|reflexivity]. }
  assert (H5 : (Math_round (jsmul (jsmul (jsdiv (jssub a b) a) 100) 100) <= 0)%Z).
  { rewrite <- (Math_round_Z 0). now apply Math_round_mono. }
  apply Q.max_l. apply fl_upper; [|reflexivity].
  apply Qle_shift_div_r; [reflexivity|].
  change (0 * 100)%Q with (inject_Z 0). now rewrite <- Zle_Qle.
Qed.

(** X6.  The estimated gain of every comparison lies between 0 and 100,
    and it is 0 whenever the complexity score has not gone down. *)
Theorem X6_performance_gain_is_a_percentage (beforeText afterText : string) :
  exists r,
    estimatePerformanceImpact beforeText afterText = Normal r
    /\ (0 <= estimatedPerformanceGain r <= 100)%Q
    /\ ((complexityScore (before r) <= complexityScore (after r))%Q ->
        (estimatedPerformanceGain r == 0)%Q).
Proof.
  eexists. split; [reflexivity|]. cbn [before after estimatedPerformanceGain].
  split; [split|].
  - apply calculatePerformanceGain_nonneg.
  - apply gain_at_most_100;
      [apply complexityScore_nonneg|apply complexityScore_is_double|apply complexityScore_nonneg].
  - apply gain_zero_without_improvement. apply complexityScore_nonneg.
Qed.

Lemma X6_witness :
  exists r,
    estimatePerformanceImpact "f(x)" "for (;;) { f(x); }" = Normal r
    /\ (estimatedPerformanceGain r == 0)%Q.
Proof.
  destruct (X6_performance_gain_is_a_percentage "f(x)" "for (;;) { f(x); }")
    as [r [H1 [H2 H3]]].
  exists r. split; [exact H1|]. apply H3.
  injection H1 as <-. vm_compute. discriminate.
Defined.

(** X7.  The nesting depth is at most the number of opening braces; it
    does not go down when text is appended; and a closing brace before
    any opening brace does not count. *)
Theorem X7_nested_depth_bounds (code : string) :
  (estimateNestedDepth code <= opening_braces code)%nat
  /\ (forall more, estimateNestedDepth code <= estimateNestedDepth (code +:+ more))%nat
  /\ estimateNestedDepth (String "}" code) = estimateNestedDepth code.
Proof.
  split; [apply estimateNestedDepth_le_braces|]. rewrite !estimateNestedDepth_fold. split.
  - intros more. rewrite estimateNestedDepth_fold, chars_append, fold_left_app.
    destruct (fold_left depth_step (chars code) (0, 0)%nat) as [m c].
    apply depth_fold_bound.
  - reflexivity.
Qed.

End Performance.

(* ================================================================== *)
(** * The complexity score is exact *)
(* ================================================================== *)

Section ExactScore.

Lemma fl_of_integer (x : Q) (n : Z) :
  (x == inject_Z n)%Q -> 0 <= n < 2 ^ 52 -> (fl x == inject_Z n)%Q.
Proof. intros E H. rewrite (fl_compat _ _ E). now apply fl_integer. Qed.

Lemma fl_of_half_integer (x : Q) (n : Z) :
  (x == n # 2)%Q -> 0 <= n < 2 ^ 53 -> (fl x == n # 2)%Q.
Proof. intros E H. rewrite (fl_compat _ _ E). now apply fl_half_integer. Qed.

Lemma half_eq (n : Z) : (n # 2 == inject_Z n * (1 # 2))%Q.
Proof. unfold Qeq. cbn. lia. Qed.

Lemma calculateComplexityScore_exact (l c d m : nat) :
  10 * Z.of_nat l + 2 * Z.of_nat c + 15 * Z.of_nat d + Z.of_nat m < 2 ^ 50 ->
  (calculateComplexityScore l c d m
   == 10 * num l + 2 * num c + 15 * num d + num m / 2)%Q.
Proof.
  intros H. unfold calculateComplexityScore, jsadd, jsmul, num.
  change (lit (1 # 2)) with (1 # 2)%Q.
  assert (T1 : (fl (inject_Z (Z.of_nat l) * 10) == inject_Z (10 * Z.of_nat l))%Q).
  { apply fl_of_integer; [rewrite inject_Z_mult; ring|lia]. }
  assert (T2 : (fl (inject_Z (Z.of_nat c) * 2) == inject_Z (2 * Z.of_nat c))%Q).
  { apply fl_of_integer; [rewrite inject_Z_mult; ring|lia]. }
  assert (T3 : (fl (inject_Z (Z.of_nat d) * 15) == inject_Z (15 * Z.of_nat d))%Q).
  { apply fl_of_integer; [rewrite inject_Z_mult; ring|lia]. }
  assert (T4 : (fl (inject_Z (Z.of_nat m) * (1 # 2)) == Z.of_nat m # 2)%Q).
  { apply fl_of_half_integer; [symmetry; apply half_eq|lia]. }
  assert (A1 : (fl (fl (inject_Z (Z.of_nat l) * 10) + fl (inject_Z (Z.of_nat c) * 2))
                == inject_Z (10 * Z.of_nat l + 2 * Z.of_nat c))%Q).
  { apply fl_of_integer; [rewrite T1, T2, <- inject_Z_plus; reflexivity|lia]. }
  assert (A2 : (fl (fl (fl (inject_Z (Z.of_nat l) * 10) + fl (inject_Z (Z.of_nat c) * 2))
                    + fl (inject_Z (Z.of_nat d) * 15))
                == inject_Z (10 * Z.of_nat l + 2 * Z.of_nat c + 15 * Z.of_nat d))%Q).
  { apply fl_of_integer; [rewrite A1, T3, <- inject_Z_plus; reflexivity|lia]. }
  rewrite (fl_of_half_integer _
             (2 * (10 * Z.of_nat l + 2 * Z.of_nat c + 15 * Z.of_nat d) + Z.of_nat m)).
  - rewrite (half_eq (_ + _)), inject_Z_plus, !inject_Z_mult, !inject_Z_plus, !inject_Z_mult.
    change (inject_Z 2) with 2%Q. change (inject_Z 10) with 10%Q.
    change (inject_Z 15) with 15%Q. field.
  - rewrite A2, T4. unfold Qeq, Qplus, inject_Z. cbn [Qnum Qden]. lia.
  - lia.
Qed.

(** X8.  For a text of fewer than 2^40 code units the complexity score is
    exactly ten times the loops plus twice the calls plus fifteen times
    the depth plus half the memory estimate: no rounding happens. *)
Theorem X8_complexity_score_is_exact (code : string) :
  Z.of_nat (String.length code) < 2 ^ 40 ->
  let p := analyzeCodeForPerformance code in
  (complexityScore p
   == 10 * num (loopComplexity p) + 2 * num (functionCalls p)
      + 15 * num (nestedDepth p) + num (memoryUsage p) / 2)%Q.
Proof.
  intros H. cbn zeta. cbn [complexityScore loopComplexity functionCalls nestedDepth memoryUsage
                            analyzeCodeForPerformance].
  apply calculateComplexityScore_exact.
  pose proof (count_matches_le loop_pattern code).
  pose proof (count_matches_le call_pattern code).
  pose proof (count_matches_le array_pattern code).
  pose proof (count_matches_le object_pattern code).
  pose proof (estimateNestedDepth_le_braces code) as D.
  assert (opening_braces code <= String.length code)%nat.
  { unfold opening_braces. rewrite <- length_chars. apply List.filter_length_le. }
  unfold estimateMemoryUsage. lia.
Qed.

Lemma X8_witness :
  let p := analyzeCodeForPerformance "for (k in o) { go(o[k]); }" in
  (complexityScore p
   == 10 * num (loopComplexity p) + 2 * num (functionCalls p)
      + 15 * num (nestedDepth p) + num (memoryUsage p) / 2)%Q.
Proof.
  apply (X8_complexity_score_is_exact "for (k in o) { go(o[k]); }").
  vm_compute. reflexivity.
Defined.

End ExactScore.

(* ================================================================== *)
(** * The language of a file *)
(* ================================================================== *)

Section Detect.

Lemma toLowerCase_unit_dot (c : ascii) : toLowerCase_unit c = "."%char <-> c = "."%char.
Proof.
  destruct c as [[] [] [] [] [] [] [] []]; vm_compute; split; intros H; try reflexivity;
    discriminate H.
Qed.

Lemma lastIndexOf_chars_range (s : list ascii) (c : ascii) :
  -1 <= lastIndexOf_chars s c < Z.of_nat (length s).
Proof.
  induction s as [|x s IH]; cbn [lastIndexOf_chars length]; [lia|].
  destruct (Z.leb_spec 0 (lastIndexOf_chars s c)); [lia|].
  destruct (Ascii.eqb x c); lia.
Qed.

Lemma lastIndexOf_chars_absent (s : list ascii) (c : ascii) :
  ~ In c s -> lastIndexOf_chars s c = -1.
Proof.
  induction s as [|x s IH]; cbn [lastIndexOf_chars In]; [reflexivity|].
  intros H. rewrite IH by tauto. cbn.
  destruct (Ascii.eqb_spec x c); [tauto|reflexivity].
Qed.

Lemma lastIndexOf_chars_last (a b : list ascii) (c : ascii) :
  ~ In c b -> lastIndexOf_chars (a ++ c :: b) c = Z.of_nat (length a).
Proof.
  intros H. induction a as [|x a IH]; cbn [app lastIndexOf_chars length].
  - rewrite (lastIndexOf_chars_absent b c H). cbn. now rewrite Ascii.eqb_refl.
  - rewrite IH. destruct (Z.leb_spec 0 (Z.of_nat (length a))); lia.
Qed.

Lemma extension_of_name (base rest : string) :
  no_dot rest ->
  substring (base +:+ String "." rest) (lastIndexOf (base +:+ String "." rest) ".")
  = String "." rest.
Proof.
  intros H. unfold substring, lastIndexOf. rewrite chars_append.
  change (chars (String "." rest)) with ("."%char :: chars rest).
  rewrite (lastIndexOf_chars_last _ _ _ H).
  rewrite Z.max_r by lia. rewrite Nat2Z.id, drop_app_length.
  change ("."%char :: chars rest) with (chars (String "." rest)). apply of_list_chars.
Qed.

Lemma toLowerCase_no_dot (s : string) : no_dot (toLowerCase s) -> no_dot s.
Proof.
  unfold no_dot, toLowerCase. rewrite chars_of_list. intros H I. apply H.
  apply in_map_iff. exists "."%char. split; [|exact I]. now apply toLowerCase_unit_dot.
Qed.

Lemma toLowerCase_no_dot_inv (s : string) : no_dot s -> no_dot (toLowerCase s).
Proof.
  unfold no_dot, toLowerCase. rewrite chars_of_list. intros H I. apply H.
  apply in_map_iff in I as [c [E I]]. apply (proj1 (toLowerCase_unit_dot c)) in E. now subst c.
Qed.

Lemma toLowerCase_String (c : ascii) (s : string) :
  toLowerCase (String c s) = String (toLowerCase_unit c) (toLowerCase s).
Proof. reflexivity. Qed.

Lemma detectLanguage_extension (base rest : string) :
  no_dot rest ->
  detectLanguage (base +:+ String "." rest)
  = match List.find (fun '(language, rules) =>
                       existsb (String.eqb (toLowerCase (String "." rest))) (extensions rules))
                    languageRules with
    | Some (language, _) => language
    | None => "text"
    end.
Proof. intros H. unfold detectLanguage. now rewrite extension_of_name. Qed.

Lemma no_dot_by_eqb (s : string) : existsb (Ascii.eqb ".") (chars s) = false -> no_dot s.
Proof.
  intros H I. apply not_true_iff_false in H. apply H, existsb_exists.
  exists "."%char. split; [exact I|apply Ascii.eqb_refl].
Qed.

(** X9.  A file name that ends with an extension of a language, in any
    letter case, is detected as that language. *)
Theorem X9_detectLanguage_by_extension (base cased language : string) (rules : language_rules) :
  own_property languageRules language = Some rules ->
  In (toLowerCase cased) (extensions rules) ->
  detectLanguage (base +:+ cased) = language.
Proof.
  intros Hin Hext.
  assert (K : forall ext lang,
             toLowerCase cased = String "." ext ->
             existsb (Ascii.eqb ".") (chars ext) = false ->
             match List.find (fun '(language, rules) =>
                                existsb (String.eqb (String "." ext)) (extensions rules))
                             languageRules with
             | Some (language, _) => language
             | None => "text"
             end = lang ->
             detectLanguage (base +:+ cased) = lang).
  { intros ext lang E D F. destruct cased as [|c rest]; [discriminate E|].
    rewrite toLowerCase_String in E. injection E as E1 E2.
    apply (proj1 (toLowerCase_unit_dot c)) in E1. subst c.
    rewrite detectLanguage_extension.
    - rewrite toLowerCase_String, E2. exact F.
    - apply toLowerCase_no_dot. rewrite E2. now apply no_dot_by_eqb. }
  cbn [languageRules own_property] in Hin. revert Hin Hext.
  repeat match goal with
         | |- context [String.eqb ?a language] =>
             destruct (String.eqb_spec a language) as [<-|_];
             [intros Hin; injection Hin as <-; cbn [extensions In]; intros Hext;
              repeat (destruct Hext as [Hext|Hext];
                      [symmetry in Hext; eapply K; [exact Hext|reflexivity|reflexivity]|]);
              destruct Hext|]
         end.
  discriminate.
Qed.

Lemma X9_witness :
  detectLanguage ("src/App" +:+ ".JSX") = "javascript".
Proof.
  eapply (X9_detectLanguage_by_extension "src/App" ".JSX" "javascript").
  - reflexivity.
  - right. left. reflexivity.
Defined.

Lemma detectLanguage_range (filename : string) :
  In (detectLanguage filename) ("text" :: getLanguageSupportInfo).
Proof.
  unfold detectLanguage.
  destruct (List.find _ languageRules) as [[language rules]|] eqn:F; [|now left].
  right. apply find_some in F as [F _]. unfold getLanguageSupportInfo.
  apply in_map_iff. now exists (language, rules).
Qed.

(** X10.  A file name yields one of the four languages, or text; and the
    language analyzer returns for each of them. *)
Theorem X10_detected_language_is_analyzable (filename code : string) :
  In (detectLanguage filename) ["text"; "javascript"; "typescript"; "python"; "java"]
  /\ exists issues, analyzeLanguageSpecific code (detectLanguage filename) = Normal issues.
Proof.
  pose proof (detectLanguage_range filename) as H. split; [exact H|].
  unfold analyzeLanguageSpecific.
  cbn in H. destruct H as [<-|[<-|[<-|[<-|[<-|[]]]]]]; eexists; reflexivity.
Qed.

(** X11.  A file name without a dot is text. *)
Theorem X11_detectLanguage_without_dot (filename : string) :
  no_dot filename -> detectLanguage filename = "text".
Proof.
  intros H. unfold detectLanguage, lastIndexOf. rewrite (lastIndexOf_chars_absent _ _ H).
  unfold substring. change (Z.to_nat (Z.max 0 (-1))) with 0%nat. rewrite drop_0, of_list_chars.
  assert (D : forall ext, In "."%char (chars ext) -> String.eqb (toLowerCase filename) ext = false).
  { intros ext I. apply String.eqb_neq. intros <-. revert I. now apply toLowerCase_no_dot_inv. }
  cbn [languageRules List.find existsb extensions].
  rewrite !D by (cbn; tauto). reflexivity.
Qed.

Lemma X11_witness : detectLanguage "Makefile" = "text".
Proof.
  apply (X11_detectLanguage_without_dot "Makefile").
  apply no_dot_by_eqb. reflexivity.
Defined.

End Detect.

(* ================================================================== *)
(** * The issues of the catalogs *)
(* ================================================================== *)

Section Catalogs.

Lemma language_pattern_issues_filter (patterns : list (string * regex)) (code : string) :
  language_pattern_issues patterns code
  = map (language_issue_of code) (List.filter (pattern_matches code) patterns).
Proof.
  unfold language_pattern_issues.
  rewrite <- (app_nil_l (map _ _)). generalize (@nil language_issue).
  induction patterns as [|[patternName pattern] patterns IH]; intros acc;
    cbn [fold_left List.filter map].
  - now rewrite app_nil_r.
  - rewrite IH. unfold pattern_matches at 2, push_if. cbn [snd].
    destruct (0 <? count_matches pattern code)%nat; [|reflexivity].
    cbn [map]. now rewrite <- app_assoc.
Qed.

Lemma apply_style_rules_filter (rules : list style_rule) (code : string) :
  apply_style_rules rules code
  = map (custom_issue_of code) (List.filter (rule_matches code) rules).
Proof.
  unfold apply_style_rules.
  rewrite <- (app_nil_l (map _ _)). generalize (@nil custom_issue).
  induction rules as [|rule rules IH]; intros acc; cbn [fold_left List.filter map].
  - now rewrite app_nil_r.
  - rewrite IH. unfold rule_matches at 2, push_if.
    destruct (0 <? count_matches (rule_pattern rule) code)%nat; [|reflexivity].
    cbn [map]. now rewrite <- app_assoc.
Qed.

Lemma sublist_of_filter {A : Type} (f : A -> bool) (l : list A) : sublist (List.filter f l) l.
Proof.
  induction l as [|x l IH]; cbn [List.filter]; [constructor|].
  destruct (f x); now constructor.
Qed.

Lemma getSeverityForPattern_known (patternName : string) :
  In (getSeverityForPattern patternName) ["High"; "Medium"; "Low"].
Proof.
  unfold getSeverityForPattern. cbn [severityMap own_property].
  repeat match goal with
         | |- context [String.eqb ?a patternName] => destruct (String.eqb a patternName)
         end; cbn; tauto.
Qed.

Lemma catalog_shape (language : string) (rules : language_rules) :
  own_property languageRules language = Some rules ->
  List.NoDup (map fst (lr_patterns rules)) /\ length (lr_patterns rules) = 4%nat.
Proof.
  cbn [languageRules own_property].
  repeat match goal with
         | |- context [String.eqb ?a language] =>
             destruct (String.eqb a language);
             [intros [= <-]; split; [|reflexivity];
              apply NoDup_ListNoDup, (bool_decide_unpack _); vm_compute; exact I|]
         end.
  discriminate.
Qed.

(** X12.  Every issue of the language analyzer stands for one pattern of
    the language's catalog that matches the text, with the number of its
    matches and one of the three severities; there is one issue for a
    pattern at most, so four at most. *)
Theorem X12_language_issues_follow_the_catalog (code language : string)
    (issues : list language_issue) :
  analyzeLanguageSpecific code language = Normal issues ->
  (forall i, In i issues ->
     exists rules pattern,
       own_property languageRules language = Some rules
       /\ In (li_type i, pattern) (lr_patterns rules)
       /\ li_count i = count_matches pattern code
       /\ (1 <= li_count i)%nat
       /\ In (li_severity i) ["High"; "Medium"; "Low"])
  /\ List.NoDup (map li_type issues)
  /\ (length issues <= 4)%nat.
Proof.
  unfold analyzeLanguageSpecific, get_property.
  destruct (own_property languageRules language) as [rules|] eqn:O;
    [|destruct (existsb _ _); [discriminate|intros [= <-]; cbn; repeat split;
                                             [tauto|constructor|lia]]].
  intros [= <-]. destruct (catalog_shape language rules O) as [N L].
  rewrite language_pattern_issues_filter. split; [|split].
  - intros i I. apply in_map_iff in I as [[patternName pattern] [<- I]].
    apply filter_In in I as [I M]. cbn [language_issue_of li_type li_count li_severity fst snd].
    exists rules, pattern. repeat split; [exact I| |apply getSeverityForPattern_known].
    unfold pattern_matches in M. cbn [snd] in M. apply Nat.ltb_lt in M. lia.
  - rewrite map_map. change (fun x => li_type (language_issue_of code x)) with (@fst string regex).
    apply NoDup_ListNoDup. apply NoDup_ListNoDup in N.
    eapply sublist_NoDup; [exact N|]. apply fmap_sublist, sublist_of_filter.
  - rewrite length_map, <- L. apply sublist_length, sublist_of_filter.
Qed.

Lemma X12_witness :
  List.NoDup ["execUsage"; "evalUsage"].
Proof.
  apply (X12_language_issues_follow_the_catalog
           "exec(eval(x))" "python"
           [ {| li_type := "execUsage"; li_description := "Detected execUsage pattern";
                li_count := 1; li_severity := "High" |};
             {| li_type := "evalUsage"; li_description := "Detected evalUsage pattern";
                li_count := 1; li_severity := "High" |} ]).
  vm_compute. reflexivity.
Defined.

End Catalogs.

(* ================================================================== *)
(** * The summary of the style enforcement *)
(* ================================================================== *)

Section Style.

Lemma count_severity_known (b : severity_breakdown) (s : string) :
  style_severity s -> breakdown_sum (count_severity b s) = S (breakdown_sum b).
Proof.
  intros [<-|[<-|[<-|[]]]]; unfold count_severity, breakdown_sum; cbv zeta.
  - change (toLowerCase "High") with "high". cbn. lia.
  - change (toLowerCase "Medium") with "medium". cbn. lia.
  - change (toLowerCase "Low") with "low". cbn. lia.
Qed.

Lemma count_severity_le (b : severity_breakdown) (s : string) :
  (breakdown_sum b <= breakdown_sum (count_severity b s) <= S (breakdown_sum b))%nat.
Proof.
  unfold count_severity, breakdown_sum.
  cbv zeta. repeat (destruct (String.eqb _ _); [cbn [high medium low]; lia|]). lia.
Qed.

Lemma count_issues_known (l : list string) (s : style_summary) :
  Forall style_severity l ->
  breakdown_sum (ss_severityBreakdown (count_issues l s))
  = (breakdown_sum (ss_severityBreakdown s) + length l)%nat.
Proof.
  unfold count_issues. cbn [ss_severityBreakdown]. generalize (ss_severityBreakdown s).
  induction l as [|x l IH]; intros b H; cbn [fold_left length]; [lia|].
  apply Forall_cons in H as [Hx Hl]. rewrite (IH _ Hl), (count_severity_known _ _ Hx). lia.
Qed.

Lemma count_issues_le (l : list string) (s : style_summary) :
  (breakdown_sum (ss_severityBreakdown s)
   <= breakdown_sum (ss_severityBreakdown (count_issues l s))
   <= breakdown_sum (ss_severityBreakdown s) + length l)%nat.
Proof.
  unfold count_issues. cbn [ss_severityBreakdown]. generalize (ss_severityBreakdown s).
  induction l as [|x l IH]; intros b; cbn [fold_left length]; [lia|].
  pose proof (IH (count_severity b x)). pose proof (count_severity_le b x). lia.
Qed.

Lemma getSeverityFromESLint_known (n : Z) : style_severity (getSeverityFromESLint n).
Proof.
  unfold getSeverityFromESLint, style_severity.
  destruct (n =? 1); [cbn; tauto|]. destruct (n =? 2); cbn; tauto.
Qed.

Lemma fold_left_push {A B : Type} (f : A -> B) (l : list A) (acc : list B) :
  fold_left (fun acc a => acc ++ [f a]) l acc = acc ++ map f l.
Proof.
  revert acc. induction l as [|a l IH]; intros acc; cbn [fold_left map].
  - now rewrite app_nil_r.
  - now rewrite IH, <- app_assoc.
Qed.

Lemma processESLintResults_issues (results : list eslint_result) :
  ec_issues (processESLintResults results)
  = flat_map (fun result => map eslint_issue_of (er_messages result)) results.
Proof.
  unfold processESLintResults. cbn [ec_issues].
  enough (G : forall acc,
             fold_left
               (fun issues result =>
                  fold_left (fun issues message => issues ++ [eslint_issue_of message])
                            (er_messages result) issues)
               results acc
             = acc ++ flat_map (fun result => map eslint_issue_of (er_messages result)) results)
    by apply G.
  induction results as [|r results IH]; intros acc; cbn [fold_left flat_map].
  - now rewrite app_nil_r.
  - now rewrite IH, fold_left_push, <- app_assoc.
Qed.

Lemma processESLintResults_severities (results : list eslint_result) :
  Forall style_severity (map ei_severity (ec_issues (processESLintResults results))).
Proof.
  rewrite processESLintResults_issues. apply List.Forall_forall. intros s I.
  apply in_map_iff in I as [i [<- I]]. apply in_flat_map in I as [r [_ I]].
  apply in_map_iff in I as [m [<- _]]. apply getSeverityFromESLint_known.
Qed.

Lemma style_rules_severities (language : string) (rules : list style_rule) :
  own_property style_rules language = Some rules ->
  Forall (fun rule => style_severity (rule_severity rule)) rules.
Proof.
  cbn [style_rules own_property].
  repeat match goal with
         | |- context [String.eqb ?a language] =>
             destruct (String.eqb a language);
             [intros [= <-]; repeat constructor; cbn; tauto|]
         end.
  discriminate.
Qed.

Lemma apply_style_rules_severities (rules : list style_rule) (code : string) :
  Forall (fun rule => style_severity (rule_severity rule)) rules ->
  Forall style_severity (map ci_severity (apply_style_rules rules code)).
Proof.
  intros H. rewrite apply_style_rules_filter, map_map. cbn [custom_issue_of ci_severity].
  apply List.Forall_forall. intros s I. apply in_map_iff in I as [rule [<- I]].
  apply filter_In in I as [I _].
  rewrite List.Forall_forall in H. now apply H.
Qed.

Lemma checkCustomStyleRules_severities (code : string) (language : option string)
    (issues : list custom_issue) :
  checkCustomStyleRules code language = Normal issues ->
  Forall style_severity (map ci_severity issues).
Proof.
  unfold checkCustomStyleRules, get_property.
  destruct (own_property style_rules (default "javascript" language)) as [rules|] eqn:O.
  - intros [= <-]. apply apply_style_rules_severities. eapply style_rules_severities, O.
  - destruct (existsb _ _); [discriminate|]. intros [= <-].
    apply apply_style_rules_severities.
    apply (style_rules_severities "javascript"). reflexivity.
Qed.

Lemma generateStyleSummary_total (results : style_results) :
  ss_totalIssues (generateStyleSummary results)
  = (length (found ec_issues (sr_eslint results))
     + length (found prettier_issues (sr_prettier results))
     + length (sr_customRules results))%nat.
Proof.
  unfold generateStyleSummary.
  destruct (sr_eslint results) as [[eslint|]|], (sr_prettier results) as [[prettier|]|];
    cbn [found count_issues ss_totalIssues length]; rewrite ?length_map; lia.
Qed.

Lemma generateStyleSummary_breakdown (results : style_results) :
  Forall style_severity (map ei_severity (found ec_issues (sr_eslint results))) ->
  Forall style_severity (map pi_severity (found prettier_issues (sr_prettier results))) ->
  Forall style_severity (map ci_severity (sr_customRules results)) ->
  breakdown_sum (ss_severityBreakdown (generateStyleSummary results))
  = ss_totalIssues (generateStyleSummary results).
Proof.
  intros E P C. rewrite generateStyleSummary_total. unfold generateStyleSummary.
  rewrite (count_issues_known _ _ C), length_map.
  destruct (sr_eslint results) as [[eslint|]|], (sr_prettier results) as [[prettier|]|];
    cbn [found] in *;
    rewrite ?(count_issues_known _ _ P), ?(count_issues_known _ _ E), ?length_map;
    cbn [ss_severityBreakdown length]; unfold breakdown_sum; cbn [high medium low]; lia.
Qed.

Lemma checkESLintStyle_severities (lint : completion (list eslint_result)) (enabled : bool) :
  Forall style_severity
    (map ei_severity
       (found ec_issues (if enabled then Some (checkESLintStyle lint) else None))).
Proof.
  destruct enabled; [|constructor].
  destruct lint; cbn [checkESLintStyle found]; [|constructor].
  apply processESLintResults_severities.
Qed.

Lemma checkPrettierStyle_severities (write : completion unit) (check : completion string)
    (enabled : bool) :
  Forall style_severity
    (map pi_severity
       (found prettier_issues
          (if enabled then Some (checkPrettierStyle write check) else None))).
Proof.
  destruct enabled; [|constructor].
  destruct write as [[]|]; cbn [checkPrettierStyle found]; [|constructor].
  destruct check; cbn [prettier_issues map pi_severity]; [constructor|].
  constructor; [|constructor]. unfold style_severity. cbn. tauto.
Qed.

(** X13.  Whenever the style enforcement succeeds, the total of its
    summary is the number of issues that the checks that ran and succeeded
    have found, and the three counts of the severity breakdown add up to it. *)
Theorem X13_style_summary_adds_up (lint : completion (list eslint_result))
    (write : completion unit) (check : completion string)
    (code : string) (config : style_config) (r : style_report) :
  enforceCodeStyle lint write check code config = Succeeded r ->
  ss_totalIssues (style_summary_of r)
  = (length (found ec_issues (sr_eslint (style_results_of r)))
     + length (found prettier_issues (sr_prettier (style_results_of r)))
     + length (sr_customRules (style_results_of r)))%nat
  /\ breakdown_sum (ss_severityBreakdown (style_summary_of r))
     = ss_totalIssues (style_summary_of r).
Proof.
  unfold enforceCodeStyle.
  destruct (if cfg_customRules config then _ else _) as [customRules|e] eqn:C;
    cbn [mbind completion_bind]; [|discriminate].
  intros [= <-]. cbn [style_results_of style_summary_of].
  split; [apply generateStyleSummary_total|].
  apply generateStyleSummary_breakdown; cbn [sr_eslint sr_prettier sr_customRules].
  - apply checkESLintStyle_severities.
  - apply checkPrettierStyle_severities.
  - destruct (cfg_customRules config).
    + eapply checkCustomStyleRules_severities, C.
    + injection C as <-. constructor.
Qed.

Lemma X13_witness :
  exists r,
    enforceCodeStyle (Throw (Error "no configuration")) (Normal tt) (Throw (Error "exit 1"))
      "var x = 1; console.log(x);"
      {| cfg_eslint := true; cfg_prettier := true; cfg_customRules := true;
         cfg_language := None |} = Succeeded r
    /\ ss_totalIssues (style_summary_of r) = 3%nat
    /\ breakdown_sum (ss_severityBreakdown (style_summary_of r))
       = ss_totalIssues (style_summary_of r).
Proof.
  eexists. split; [vm_compute; reflexivity|]. split; [reflexivity|].
  apply (X13_style_summary_adds_up
           (Throw (Error "no configuration")) (Normal tt) (Throw (Error "exit 1"))
           "var x = 1; console.log(x);"
           {| cfg_eslint := true; cfg_prettier := true; cfg_customRules := true;
              cfg_language := None |}).
  vm_compute. reflexivity.
Defined.

End Style.

(* ================================================================== *)
(** * The developers of a team *)
(* ================================================================== *)

Section Developers.
Local Open Scope nat_scope.

Lemma authors_snoc (prs : list pull_request) (pr : pull_request) :
  authors (prs ++ [pr]) = set_add (pr_author pr) (authors prs).
Proof. unfold authors. now rewrite fold_left_app. Qed.

Lemma in_set_add (x y : string) (s : list string) :
  In y (set_add x s) <-> In y s \/ x = y.
Proof.
  unfold set_add. destruct (existsb (String.eqb x) s) eqn:E.
  - split; [now left|]. intros [H|<-]; [exact H|].
    apply existsb_exists in E as [z [I E]]. apply String.eqb_eq in E. now subst.
  - rewrite in_app_iff. cbn. tauto.
Qed.

Lemma in_authors (prs : list pull_request) (name : string) :
  In name (authors prs) <-> exists pr, In pr prs /\ pr_author pr = name.
Proof.
  induction prs as [|pr prs IH] using rev_ind.
  - cbn. split; [tauto|]. now intros [pr [[] _]].
  - rewrite authors_snoc, in_set_add, IH. split.
    + intros [[p [I E]]|E]; [exists p|exists pr]; rewrite in_app_iff; cbn; tauto.
    + intros [p [I E]]. apply in_app_iff in I as [I|[<-|[]]]; [left; now exists p|now right].
Qed.

Lemma NoDup_set_add (x : string) (s : list string) :
  List.NoDup s -> List.NoDup (set_add x s).
Proof.
  intros H. unfold set_add. destruct (existsb (String.eqb x) s) eqn:E; [exact H|].
  apply List.NoDup_app; [exact H|repeat constructor; intros []|].
  intros y I [<-|[]]. apply not_true_iff_false in E. apply E, existsb_exists.
  exists x. split; [exact I|apply String.eqb_refl].
Qed.

Lemma NoDup_authors (prs : list pull_request) : List.NoDup (authors prs).
Proof.
  induction prs as [|pr prs IH] using rev_ind; [constructor|].
  rewrite authors_snoc. now apply NoDup_set_add.
Qed.

Lemma NoDup_types_of (issues : list review_issue) : List.NoDup (types_of issues).
Proof.
  unfold types_of. generalize (List.NoDup_nil string). generalize (@nil string).
  induction issues as [|i issues IH]; intros acc H; cbn [fold_left]; [exact H|].
  apply IH. destruct (truthy_type i); [now apply NoDup_set_add|exact H].
Qed.

Lemma pull_requests_of_snoc (author : string) (prs : list pull_request) (pr : pull_request) :
  pull_requests_of author (prs ++ [pr])
  = pull_requests_of author prs ++ (if String.eqb (pr_author pr) author then [pr] else []).
Proof. unfold pull_requests_of. rewrite List.filter_app. reflexivity. Qed.

Lemma developer_of_other (prs : list pull_request) (pr : pull_request) (name : string) :
  pr_author pr <> name -> developer_of (prs ++ [pr]) name = developer_of prs name.
Proof.
  intros N. unfold developer_of. rewrite pull_requests_of_snoc.
  apply String.eqb_neq in N. rewrite N. now rewrite app_nil_r.
Qed.

Lemma developer_of_author (prs : list pull_request) (pr : pull_request) :
  developer_of (prs ++ [pr]) (pr_author pr)
  = record_pull_request pr (developer_of prs (pr_author pr)).
Proof.
  unfold developer_of, record_pull_request. rewrite pull_requests_of_snoc, String.eqb_refl.
  cbn [dev_name prCount dev_issues dev_patterns].
  rewrite length_app. cbn [length]. rewrite Nat.add_1_r.
  unfold issues_of. rewrite flat_map_app. cbn [flat_map]. rewrite app_nil_r.
  destruct (pr_issues pr) as [issues|].
  - change (default [] (Some issues)) with issues. f_equal.
    unfold types_of. now rewrite fold_left_app.
  - change (default [] None) with (@nil review_issue). now rewrite app_nil_r.
Qed.

Lemma has_developer_map (prs : list pull_request) (names : list string) (author : string) :
  has_developer (map (developer_of prs) names) author = existsb (String.eqb author) names.
Proof.
  unfold has_developer. induction names as [|n names IH]; [reflexivity|].
  cbn [map existsb]. rewrite IH. cbn [developer_of dev_name]. now rewrite String.eqb_sym.
Qed.

Lemma no_pull_requests_of (prs : list pull_request) (author : string) :
  ~ In author (authors prs) -> pull_requests_of author prs = [].
Proof.
  intros H. unfold pull_requests_of.
  induction prs as [|pr prs IH]; [reflexivity|]. cbn [List.filter].
  destruct (String.eqb_spec (pr_author pr) author) as [E|N].
  - exfalso. apply H, in_authors. exists pr. split; [now left|exact E].
  - apply IH. intros I. apply H. apply in_authors in I as [p [I E]].
    apply in_authors. exists p. split; [now right|exact E].
Qed.

Lemma list_sum_cons (n : nat) (l : list nat) : list_sum (n :: l) = n + list_sum l.
Proof. reflexivity. Qed.

Lemma indicator_sum (author : string) (names : list string) :
  List.NoDup names ->
  list_sum (map (fun name => if String.eqb author name then 1 else 0) names)
  = if existsb (String.eqb author) names then 1 else 0.
Proof.
  induction names as [|n names IH]; intros H; [reflexivity|].
  inversion H as [|? ? Hn Hnames]; subst. cbn [map existsb].
  rewrite list_sum_cons, (IH Hnames).
  destruct (String.eqb_spec author n) as [->|N]; [|reflexivity].
  cbn [orb]. destruct (existsb _ names) eqn:E; [|reflexivity].
  exfalso. apply Hn. apply existsb_exists in E as [z [I E]].
  apply String.eqb_eq in E. now subst.
Qed.

Lemma pull_requests_partition (prs : list pull_request) (names : list string) :
  List.NoDup names ->
  list_sum (map (fun name => length (pull_requests_of name prs)) names)
  = length (List.filter (fun pr => existsb (String.eqb (pr_author pr)) names) prs).
Proof.
  intros H. induction prs as [|pr prs IH].
  - clear H. induction names as [|n names IHn]; [reflexivity|].
    cbn [map]. rewrite list_sum_cons, IHn. reflexivity.
  - cbn [List.filter]. unfold pull_requests_of. cbn [List.filter]. fold (pull_requests_of).
    transitivity
      (list_sum (map (fun name => if String.eqb (pr_author pr) name then 1 else 0) names)
       + list_sum (map (fun name => length (pull_requests_of name prs)) names)).
    + clear. induction names as [|n names IHn]; [reflexivity|].
      cbn [map]. rewrite !list_sum_cons, IHn. unfold pull_requests_of.
      destruct (String.eqb (pr_author pr) n); cbn [length]; lia.
    + rewrite IH, (indicator_sum _ _ H).
      destruct (existsb _ names); cbn [length]; lia.
Qed.

Lemma extractDevelopers_groups (pullRequests : list pull_request) :
  extractDevelopers pullRequests = map (developer_of pullRequests) (authors pullRequests).
Proof.
  induction pullRequests as [|pr prs IH] using rev_ind; [reflexivity|].
  unfold extractDevelopers. rewrite fold_left_app. cbn [fold_left].
  fold (extractDevelopers prs). rewrite IH, has_developer_map, authors_snoc.
  unfold set_add. destruct (existsb (String.eqb (pr_author pr)) (authors prs)) eqn:E.
  - rewrite map_map. apply map_ext_in. intros name I. cbn [developer_of dev_name].
    destruct (String.eqb_spec name (pr_author pr)) as [->|N].
    + symmetry. apply developer_of_author.
    + symmetry. apply developer_of_other. congruence.
  - rewrite !map_app, map_map. cbn [map]. f_equal.
    + apply map_ext_in. intros name I. cbn [developer_of dev_name].
      destruct (String.eqb_spec name (pr_author pr)) as [->|N].
      * exfalso. apply not_true_iff_false in E. apply E, existsb_exists.
        exists (pr_author pr). split; [exact I|apply String.eqb_refl].
      * symmetry. apply developer_of_other. congruence.
    + cbn [dev_name]. rewrite String.eqb_refl, developer_of_author. f_equal. f_equal.
      unfold developer_of. rewrite no_pull_requests_of; [reflexivity|].
      intros I. apply not_true_iff_false in E. apply E, existsb_exists.
      exists (pr_author pr). split; [exact I|apply String.eqb_refl].
Qed.

(** X14.  The developers are the authors, each once and in the order of
    their first pull request, each with the number of their pull requests,
    the issues of these in order, and the distinct types of those issues;
    the counts of the developers add up to the number of pull requests. *)
Theorem X14_extractDevelopers_groups_by_author (pullRequests : list pull_request) :
  extractDevelopers pullRequests = map (developer_of pullRequests) (authors pullRequests)
  /\ List.NoDup (map dev_name (extractDevelopers pullRequests))
  /\ list_sum (map prCount (extractDevelopers pullRequests)) = length pullRequests.
Proof.
  pose proof (extractDevelopers_groups pullRequests) as G.
  split; [exact G|]. split.
  - rewrite G, map_map. cbn [developer_of dev_name]. rewrite map_id. apply NoDup_authors.
  - rewrite G, map_map. cbn [developer_of prCount].
    rewrite (pull_requests_partition _ _ (NoDup_authors pullRequests)).
    f_equal. apply forallb_filter_id, forallb_forall. intros pr I.
    apply existsb_exists. exists (pr_author pr). split; [|apply String.eqb_refl].
    apply in_authors. now exists pr.
Qed.

End Developers.

(* ================================================================== *)
(** * The violations and the analysis of a team *)
(* ================================================================== *)

Section Violations.
Local Open Scope nat_scope.

Lemma in_insert_by_count (x y : violation) (l : list violation) :
  In y (insert_by_count x l) <-> x = y \/ In y l.
Proof.
  induction l as [|z l IH]; cbn [insert_by_count]; [reflexivity|].
  destruct (violation_count x <? violation_count z); cbn [In]; [rewrite IH; tauto|reflexivity].
Qed.

Lemma in_sort_by_count (y : violation) (l : list violation) :
  In y (sort_by_count l) <-> In y l.
Proof.
  induction l as [|x l IH]; cbn [sort_by_count fold_right]; [reflexivity|].
  fold (sort_by_count l). now rewrite in_insert_by_count, IH.
Qed.

Lemma insert_by_count_sorted (x : violation) (l : list violation) :
  Sorted (fun a b => violation_count b <= violation_count a) l ->
  Sorted (fun a b => violation_count b <= violation_count a) (insert_by_count x l).
Proof.
  induction l as [|y l IH]; intros Hs; cbn [insert_by_count].
  - repeat constructor.
  - destruct (Nat.ltb_spec (violation_count x) (violation_count y)) as [L|L].
    + inversion Hs as [|? ? Hs' Hhd]; subst. constructor; [now apply IH|].
      destruct l as [|z l]; cbn [insert_by_count].
      * constructor. lia.
      * destruct (violation_count x <? violation_count z); constructor; [|lia].
        now inversion Hhd.
    + constructor; [exact Hs|]. now constructor.
Qed.

Lemma sort_by_count_sorted (l : list violation) :
  Sorted (fun a b => violation_count b <= violation_count a) (sort_by_count l).
Proof.
  induction l as [|x l IH]; [constructor|]. now apply insert_by_count_sorted.
Qed.

Lemma count_patterns_invariant (patterns : list string) :
  List.NoDup patterns ->
  forall m : list (string * nat),
    List.NoDup (map fst m) -> Forall (fun p => 0 < snd p) m ->
    let m' :=
      fold_left
        (fun violations pattern =>
           if existsb (String.eqb pattern) antiPatterns
           then increment pattern violations
           else violations)
        patterns m in
    List.NoDup (map fst m') /\ Forall (fun p => 0 < snd p) m'
    /\ forall type, count_of type m'
                    = count_of type m
                      + (if is_antiPattern type && existsb (String.eqb type) patterns
                         then 1 else 0).
Proof.
  induction patterns as [|p patterns IH]; intros Hp m Hnd Hpos; cbn zeta; cbn [fold_left].
  - split; [exact Hnd|split; [exact Hpos|]]. intros type. cbn [existsb].
    rewrite andb_false_r. lia.
  - inversion Hp as [|? ? Hnotin Hp']; subst.
    assert (Hstep : forall type,
               (if is_antiPattern type && existsb (String.eqb type) (p :: patterns)
                then 1 else 0)
               = (if is_antiPattern type && String.eqb type p then 1 else 0)
                 + (if is_antiPattern type && existsb (String.eqb type) patterns
                    then 1 else 0)).
    { intros type. cbn [existsb]. destruct (String.eqb_spec type p) as [->|N].
      - destruct (existsb (String.eqb p) patterns) eqn:E.
        + exfalso. apply Hnotin. apply existsb_exists in E as [z [I E]].
          apply String.eqb_eq in E. now subst.
        + rewrite andb_false_r. destruct (is_antiPattern p); cbn; lia.
      - rewrite andb_false_r. cbn [orb]. lia. }
    fold (is_antiPattern p). destruct (is_antiPattern p) eqn:A.
    + destruct (IH Hp' (increment p m)) as [H1 [H2 H3]].
      * now apply keys_increment.
      * now apply positive_increment.
      * split; [exact H1|split; [exact H2|]]. intros type.
        rewrite H3, count_of_increment, Hstep.
        rewrite (String.eqb_sym type p).
        destruct (String.eqb_spec p type) as [<-|N]; [rewrite A|rewrite andb_false_r];
          cbn [andb]; lia.
    + destruct (IH Hp' m Hnd Hpos) as [H1 [H2 H3]].
      split; [exact H1|split; [exact H2|]]. intros type. rewrite H3, Hstep.
      destruct (String.eqb_spec type p) as [->|N]; [rewrite A|rewrite andb_false_r];
        cbn [andb]; lia.
Qed.

Lemma count_violations_invariant (developers : list developer) :
  Forall (fun dev => List.NoDup (dev_patterns dev)) developers ->
  forall m : list (string * nat),
    List.NoDup (map fst m) -> Forall (fun p => 0 < snd p) m ->
    let m' :=
      fold_left
        (fun violations dev =>
           fold_left
             (fun violations pattern =>
                if existsb (String.eqb pattern) antiPatterns
                then increment pattern violations
                else violations)
             (dev_patterns dev) violations)
        developers m in
    List.NoDup (map fst m') /\ Forall (fun p => 0 < snd p) m'
    /\ forall type, count_of type m'
                    = count_of type m
                      + (if is_antiPattern type then developers_with type developers else 0).
Proof.
  induction developers as [|dev developers IH]; intros Hd m Hnd Hpos; cbn zeta;
    cbn [fold_left].
  - split; [exact Hnd|split; [exact Hpos|]]. intros type.
    unfold developers_with. cbn [List.filter length]. destruct (is_antiPattern type); lia.
  - inversion Hd as [|? ? Hdev Hd']; subst.
    destruct (count_patterns_invariant (dev_patterns dev) Hdev m Hnd Hpos) as [H1 [H2 H3]].
    destruct (IH Hd' _ H1 H2) as [G1 [G2 G3]].
    split; [exact G1|split; [exact G2|]]. intros type. rewrite G3, H3.
    unfold developers_with. cbn [List.filter].
    destruct (is_antiPattern type); cbn [andb]; [|lia].
    destruct (existsb (String.eqb type) (dev_patterns dev)); cbn [length]; lia.
Qed.

Lemma extractDevelopers_patterns (prs : list pull_request) :
  Forall (fun dev => List.NoDup (dev_patterns dev)) (extractDevelopers prs).
Proof.
  rewrite extractDevelopers_groups.
  apply List.Forall_forall. intros dev I. apply in_map_iff in I as [name [<- _]].
  apply NoDup_types_of.
Qed.

Lemma percentage_bounds (count developerCount : nat) :
  1 <= count <= developerCount ->
  (0 <= Math_round (jsmul (jsdiv (num count) (num developerCount)) 100) <= 100)%Z.
Proof.
  intros H. apply Math_round_bounds.
  - apply fl_nonneg. apply Qmult_le_0_compat; [|discriminate].
    apply jsdiv_nonneg; [apply num_nonneg|apply num_pos; lia].
  - change (inject_Z 100) with 100%Q. apply fl_upper; [|reflexivity].
    assert (jsdiv (num count) (num developerCount) <= 1)%Q.
    { apply fl_upper; [|reflexivity]. apply Qle_shift_div_r; [apply num_pos; lia|].
      rewrite Qmult_1_l. apply num_le. lia. }
    lra.
Qed.

(** X15.  On the developers of a list of pull requests, the violations
    are sorted by descending count; each is one of the anti-patterns,
    counted once for every developer who has it, so that its percentage
    is at most 100. *)
Theorem X15_violations_count_developers (pullRequests : list pull_request) :
  let developers := extractDevelopers pullRequests in
  Sorted (fun a b => violation_count b <= violation_count a)
         (findBestPracticeViolations developers)
  /\ forall v, In v (findBestPracticeViolations developers) ->
       In (violation_type v) antiPatterns
       /\ violation_count v = developers_with (violation_type v) developers
       /\ 1 <= violation_count v <= length developers
       /\ (0 <= violation_percentage v <= 100)%Z.
Proof.
  cbn zeta. set (developers := extractDevelopers pullRequests).
  unfold findBestPracticeViolations. split; [apply sort_by_count_sorted|].
  intros v I. apply in_sort_by_count, in_map_iff in I as [[type count] [<- I]].
  cbn [violation_type violation_count violation_percentage].
  destruct (count_violations_invariant developers (extractDevelopers_patterns pullRequests)
              [] (List.NoDup_nil _) (List.Forall_nil _)) as [Hnd [Hpos Hcount]].
  fold (count_violations developers) in Hnd, Hpos, Hcount.
  pose proof (in_table_count_of _ _ _ Hnd I) as E. rewrite Hcount in E.
  change (count_of type []) with 0 in E.
  rewrite List.Forall_forall in Hpos. specialize (Hpos _ I). cbn [snd] in Hpos.
  destruct (is_antiPattern type) eqn:A; [|lia].
  assert (L : count <= length developers).
  { rewrite <- E. unfold developers_with. apply List.filter_length_le. }
  split; [|split; [now symmetry|split; [lia|apply percentage_bounds; lia]]].
  unfold is_antiPattern in A. apply existsb_exists in A as [z [Iz Ez]].
  apply String.eqb_eq in Ez. now subst.
Qed.

Lemma length_generateTeamRecommendations (common : list common_issue)
    (violations : list violation) :
  length (generateTeamRecommendations common violations)
  = length common + length violations.
Proof.
  unfold generateTeamRecommendations. rewrite !fold_left_push, !length_app, !length_map.
  reflexivity.
Qed.

Lemma last_slice_last {A : Type} (l : list A) (x : A) :
  last (slice_last 10 (l ++ [x])) = Some x.
Proof.
  unfold slice_last. rewrite length_app. cbn [length].
  rewrite drop_app_le by lia. apply last_snoc.
Qed.

(** X16.  The common issues are sorted by descending frequency; a type is
    reported exactly when some issue has it and its occurrences over all
    the issue lists reach the threshold, with the number of these
    occurrences as its frequency. *)
Theorem X16_common_issues_are_the_frequent_types (developers : list developer) :
  Sorted (fun a b => frequency b <= frequency a) (findCommonIssues developers)
  /\ forall y, In y (findCommonIssues developers) <->
       0 < frequency y
       /\ frequency y = occurrences (common_type y) developers
       /\ (common_threshold (length developers) <= Z.of_nat (frequency y))%Z
       /\ percentage y
          = Math_round (jsmul (jsdiv (num (frequency y)) (num (length developers))) 100).
Proof.
  split; [apply sort_by_frequency_sorted|]. intros y.
  apply findCommonIssues_counts_occurrences.
Qed.

(** X17.  An analysis of pull requests returns insights that count the
    distinct authors and hold one recommendation for each common issue and
    each violation; it stores them as the newest entry of the history of
    their team and leaves the history of every other team as it was.
    Without a list of pull requests it throws, and stores nothing. *)
Theorem X17_team_analysis_is_recorded (now : team_clock) (prData : pr_data)
    (storage : gmap string (list history_entry)) :
  match pd_pullRequests prData with
  | None =>
      analyzeTeamCollaboration now prData storage
      = (Throw (Error "Failed to analyze team collaboration patterns"), storage)
  | Some pullRequests =>
      exists ins storage',
        analyzeTeamCollaboration now prData storage = (Normal ins, storage')
        /\ teamId ins = or_else (pd_teamId prData) "default"
        /\ developerCount ins = length (authors pullRequests)
        /\ length (recommendations ins)
           = length (commonIssues ins) + length (bestPracticeViolations ins)
        /\ last (getTeamInsightsHistory (teamId ins) storage')
           = Some {| timestamp := stamp now; entry_insights := ins |}
        /\ forall team, team <> teamId ins ->
             getTeamInsightsHistory team storage' = getTeamInsightsHistory team storage
  end.
Proof.
  unfold analyzeTeamCollaboration.
  destruct (pd_pullRequests prData) as [pullRequests|]; [|reflexivity].
  cbn [mbind completion_bind]. eexists. eexists. split; [reflexivity|].
  cbn [teamId developerCount recommendations commonIssues bestPracticeViolations].
  split; [reflexivity|]. split.
  { now rewrite extractDevelopers_groups, length_map. }
  split; [apply length_generateTeamRecommendations|]. split.
  - rewrite history_after_store, String.eqb_refl. apply last_slice_last.
  - intros team N. rewrite history_after_store. cbn [teamId].
    destruct (String.eqb_spec (or_else (pd_teamId prData) "default") team) as [E|_];
      [congruence|reflexivity].
Qed.

End Violations.

(* ================================================================== *)
(** * The explanation, the report and the inherited names *)
(* ================================================================== *)

Section Explanation.

Lemma join_nonempty (separator x : string) (l : list string) :
  x <> EmptyString -> join separator (x :: l) <> EmptyString.
Proof.
  cbn [join]. revert x. induction l as [|y l IH]; intros x H; cbn [fold_left]; [exact H|].
  apply IH. destruct x; [congruence|discriminate].
Qed.

(** X18.  The explanation is the empty text exactly when no metric was
    reduced. *)
Theorem X18_explanation_is_empty_without_a_reduction (analysis : performance_comparison) :
  generatePerformanceExplanation analysis = EmptyString
  <-> loopReduction (pc_improvements analysis) <= 0
      /\ callReduction (pc_improvements analysis) <= 0
      /\ depthReduction (pc_improvements analysis) <= 0
      /\ memoryReduction (pc_improvements analysis) <= 0.
Proof.
  unfold generatePerformanceExplanation. cbv zeta.
  destruct (Z.ltb_spec 0 (loopReduction (pc_improvements analysis))) as [L|L],
           (Z.ltb_spec 0 (callReduction (pc_improvements analysis))) as [C|C],
           (Z.ltb_spec 0 (depthReduction (pc_improvements analysis))) as [D|D],
           (Z.ltb_spec 0 (memoryReduction (pc_improvements analysis))) as [M|M];
    cbn [push_if app];
    try (split; [intros E; exfalso; revert E; apply join_nonempty; discriminate|lia]).
  split; [lia|reflexivity].
Qed.

End Explanation.

Section Report.
Local Open Scope nat_scope.

Lemma known_severity_format (issues : list issue) :
  length (List.filter known_severity (formatIssuesWithSeverity issues))
  = length (List.filter known_issue issues).
Proof.
  unfold formatIssuesWithSeverity. induction issues as [|i issues IH]; [reflexivity|].
  cbn [map List.filter]. unfold known_severity at 1, has_severity, known_issue at 1.
  cbn [fi_issue existsb]. rewrite orb_false_r, <- orb_assoc.
  destruct (_ || _); cbn [length]; now rewrite IH.
Qed.

Lemma known_severity_format_or_empty (l : option (list issue)) :
  length (List.filter known_severity (format_or_empty l))
  = length (List.filter known_issue (default [] l)).
Proof. destruct l; [apply known_severity_format|reflexivity]. Qed.

(** X19.  The details of a report hold every issue of the analysis result;
    the three counts of its severity breakdown add up to the number of
    issues whose severity is exactly High, Medium or Low, which is at most
    the number of issues in the details; and its total, with the
    performance and the refactor suggestions, is the number in the details. *)
Theorem X19_report_counts (now : clock) (reviewData : review_data) :
  let r := review_report now reviewData in
  detail_issue_count r = length (all_issues reviewData)
  /\ breakdown_total r = length (List.filter known_issue (all_issues reviewData))
  /\ breakdown_total r <= detail_issue_count r
  /\ totalIssues (summary r) + length (rep_performance (det_ai (details r)))
     + length (rep_refactor (det_ai (details r))) = detail_issue_count r.
Proof.
  cbn zeta.
  assert (D : detail_issue_count (review_report now reviewData)
              = length (all_issues reviewData)).
  { rewrite review_report_detail_issue_count, review_report_totalIssues.
    rewrite !length_format_or_empty. unfold all_issues. rewrite !length_app.
    destruct (ai_bugs _), (ai_performance _), (ai_refactor _); cbn; lia. }
  assert (B : breakdown_total (review_report now reviewData)
              = length (List.filter known_issue (all_issues reviewData))).
  { rewrite breakdown_total_counts_known, !known_severity_format,
      !known_severity_format_or_empty.
    unfold all_issues. rewrite !List.filter_app, !length_app. lia. }
  split; [exact D|]. split; [exact B|]. split.
  - rewrite B, D. apply List.filter_length_le.
  - rewrite review_report_detail_issue_count.
    cbn [review_report createStructuredOutput structureCodeReviewOutput details det_ai
         rep_performance rep_refactor an_aiAnalysis aa_performance aa_refactor].
    now rewrite !length_map.
Qed.

End Report.

Section Inherited.

(** X20.  A language named as a property that every object inherits makes
    both analyzers throw a TypeError, and the style enforcement fail. *)
Theorem X20_inherited_language_throws (code language : string)
    (lint : completion (list eslint_result)) (write : completion unit)
    (check : completion string) (eslint prettier : bool) :
  In language object_prototype_keys ->
  analyzeLanguageSpecific code language
  = Throw (TypeError "Cannot convert undefined or null to object")
  /\ checkCustomStyleRules code (Some language)
     = Throw (TypeError "languageRules.forEach is not a function")
  /\ enforceCodeStyle lint write check code
       {| cfg_eslint := eslint; cfg_prettier := prettier; cfg_customRules := true;
          cfg_language := Some language |}
     = Failed "Failed to enforce code style" "languageRules.forEach is not a function".
Proof.
  intros H.
  assert (L : get_property languageRules language = Inherited
              /\ get_property style_rules language = Inherited).
  { cbn [object_prototype_keys In] in H.
    repeat (destruct H as [<-|H]; [split; reflexivity|]). destruct H. }
  destruct L as [L1 L2].
  assert (C : checkCustomStyleRules code (Some language)
              = Throw (TypeError "languageRules.forEach is not a function")).
  { unfold checkCustomStyleRules. change (default "javascript" (Some language)) with language.
    now rewrite L2. }
  split; [|split; [exact C|]].
  - unfold analyzeLanguageSpecific. now rewrite L1.
  - unfold enforceCodeStyle. cbn [cfg_customRules cfg_language]. now rewrite C.
Qed.

Lemma X20_witness :
  analyzeLanguageSpecific "var x;" "constructor"
  = Throw (TypeError "Cannot convert undefined or null to object").
Proof.
  apply (X20_inherited_language_throws "var x;" "constructor"
           (Normal []) (Normal tt) (Normal EmptyString) true true).
  left. reflexivity.
Defined.

End Inherited.

(* ================================================================== *)
(** * The priority of a test *)
(* ================================================================== *)

Section Tests.

Lemma toLowerCase_append (a b : string) :
  toLowerCase (a +:+ b) = toLowerCase a +:+ toLowerCase b.
Proof.
  unfold toLowerCase. rewrite chars_append, map_app.
  rewrite <- (of_list_chars (_ +:+ _)), chars_append, !chars_of_list. reflexivity.
Qed.

Lemma contains_toLowerCase (big small : string) :
  contains big small -> contains (toLowerCase big) (toLowerCase small).
Proof.
  intros [pre [post ->]]. exists (toLowerCase pre), (toLowerCase post).
  now rewrite !toLowerCase_append.
Qed.

Lemma existsb_includes_mono (big small : string) (keywords : list string) :
  contains big small ->
  existsb (fun keyword => includes small keyword) keywords = true ->
  existsb (fun keyword => includes big keyword) keywords = true.
Proof.
  intros C H. apply existsb_exists in H as [k [I H]]. apply existsb_exists.
  exists k. split; [exact I|]. now apply (includes_mono big small).
Qed.

(** X21.  When the description of a test occurs, in any letter case, in
    the description of another, the other test has the priority high or
    the effort high whenever the first has, and a priority above low
    whenever the first has; a test without a description has the priority
    low and the effort medium. *)
Theorem X21_test_priority_rises_with_the_description (shorter longer : test_suggestion) :
  contains (description_of longer) (description_of shorter) ->
  (calculateTestPriority shorter = "high" -> calculateTestPriority longer = "high")
  /\ (calculateTestPriority shorter <> "low" -> calculateTestPriority longer <> "low")
  /\ (estimateTestEffort shorter = "high" -> estimateTestEffort longer = "high")
  /\ (ts_description shorter = None ->
      calculateTestPriority shorter = "low" /\ estimateTestEffort shorter = "medium").
Proof.
  intros C.
  assert (N : ts_description shorter = None ->
              calculateTestPriority shorter = "low" /\ estimateTestEffort shorter = "medium").
  { unfold calculateTestPriority, estimateTestEffort, description_of. now intros ->. }
  pose proof (existsb_includes_mono _ _ criticalKeywords C) as M1.
  pose proof (existsb_includes_mono _ _ mediumKeywords C) as M2.
  pose proof (existsb_includes_mono _ _ complexKeywords C) as M3.
  split; [|split; [|split; [|exact N]]]; clear N;
    unfold calculateTestPriority, estimateTestEffort; cbv zeta;
    set (a1 := existsb _ criticalKeywords) in M1 |- *;
    set (a2 := existsb (fun keyword => includes (description_of longer) keyword)
                       criticalKeywords) in *;
    set (b1 := existsb _ mediumKeywords) in M2 |- *;
    set (b2 := existsb (fun keyword => includes (description_of longer) keyword)
                       mediumKeywords) in *;
    set (c1 := existsb _ complexKeywords) in M3 |- *;
    set (c2 := existsb (fun keyword => includes (description_of longer) keyword)
                       complexKeywords) in *;
    clearbody a1 a2 b1 b2 c1 c2.
  - destruct a1; [now rewrite M1|]. destruct b1; discriminate.
  - destruct a1; [rewrite M1 by reflexivity; discriminate|].
    destruct b1; [|congruence]. rewrite M2 by reflexivity. destruct a2; discriminate.
  - destruct c1; [now rewrite M3|]. destruct (existsb _ simpleKeywords); discriminate.
Qed.

Lemma X21_witness :
  calculateTestPriority
    {| ts_subject := "checkout"; ts_testName := "rejects a bad card";
       ts_description := Some "Should VALIDATE the card before the payment";
       ts_testType := "unit"; ts_suggestion := "call checkout with a bad card" |} = "high".
Proof.
  apply (X21_test_priority_rises_with_the_description
           {| ts_subject := "checkout"; ts_testName := "validates";
              ts_description := Some "validate the card";
              ts_testType := "unit"; ts_suggestion := "call checkout" |}).
  - exists "should ", " before the payment". reflexivity.
  - reflexivity.
Defined.

End Tests.

